(** * proginit: program initialisation of coryne-segmentation

    A shallow embedding of [src/proginit.py]: the three module flags
    ([conf_rw], [conf_rw_save], [conf_rw_backup]), the parsed arguments
    [pargs], the shared [ConfigParser] object [conf], the root [logger] and
    the functions [cleanup], [reconfigure_logger], [reload_conf] and
    [save_conf], the module body,
    together with the part of the Python library they call (os.access,
    posixpath, shutil.copy/move, open, configparser, logging).

    Conventions of the model:
    - text is [string]; characters are the 8-bit characters of Rocq, so the
      library functions that depend on the character class (strip, lower,
      the regular expressions of configparser) are the ASCII ones;
    - the file system maps path names to nodes; two spellings of one path
      are two keys (no symbolic links); [os.path.abspath] normalises as
      [posixpath.normpath] does;
    - every call into the file system is recorded, with the file system it
      found, in the ghost field [trace] of the program state;
    - text sent through an attached log handler is kept in the logger
      ([records]), not in the file system; the calls that close, remove
      and add handlers are kept, in their order, in the ghost field
      [events] of the logger. *)

From Stdlib Require Import Ascii String ZArith.
From stdpp Require Import gmap strings list.

Local Open Scope string_scope.

(** ** Python text operations *)

Module Py.

(** [str.isspace] on one ASCII character: TAB, LF, VT, FF, CR, the four
    separators 0x1c-0x1f and the blank. *)
Definition isspace (c : ascii) : bool :=
  let n := nat_of_ascii c in
  (((9 <=? n) && (n <=? 13)) || ((28 <=? n) && (n <=? 32)))%nat.

(** [s.lstrip(chars)] for a class of characters. *)
Fixpoint lstrip_by (f : ascii -> bool) (s : string) : string :=
  match s with
  | EmptyString => EmptyString
  | String c s' => if f c then lstrip_by f s' else s
  end.

(** [s.rstrip(chars)] for a class of characters. *)
Fixpoint rstrip_by (f : ascii -> bool) (s : string) : string :=
  match s with
  | EmptyString => EmptyString
  | String c s' =>
      match rstrip_by f s' with
      | EmptyString => if f c then EmptyString else String c EmptyString
      | r => String c r
      end
  end.

Definition lstrip : string -> string := lstrip_by isspace.
Definition rstrip : string -> string := rstrip_by isspace.
Definition strip (s : string) : string := lstrip (rstrip s).

Definition lower_char (c : ascii) : ascii :=
  let n := nat_of_ascii c in
  if ((65 <=? n) && (n <=? 90))%nat then ascii_of_nat (n + 32) else c.

(** [str.lower] *)
Fixpoint lower (s : string) : string :=
  match s with
  | EmptyString => EmptyString
  | String c s' => String (lower_char c) (lower s')
  end.

(** [s.startswith(p)] *)
Definition startswith (p s : string) : bool := String.prefix p s.

Definition is_char (a c : ascii) : bool := bool_decide (a = c).

Definition LF : ascii := "010"%char.
Definition CR : ascii := "013"%char.
Definition TAB : ascii := "009"%char.

(** The lines a text-mode file object yields (universal newlines: LF, CR
    and CR LF each end a line), without their terminators. *)
Fixpoint readlines (s : string) : list string :=
  match s with
  | EmptyString => []
  | String c s' =>
      if is_char LF c then EmptyString :: readlines s'
      else if is_char CR c then
        match s' with
        | String c' s'' =>
            if is_char LF c' then EmptyString :: readlines s''
            else EmptyString :: readlines s'
        | EmptyString => [EmptyString]
        end
      else
        match readlines s' with
        | [] => [String c EmptyString]
        | l :: ls => String c l :: ls
        end
  end.

(** [s.replace('\n', '\n\t')] *)
Fixpoint replace_nl (s : string) : string :=
  match s with
  | EmptyString => EmptyString
  | String c s' =>
      if is_char LF c then String LF (String TAB (replace_nl s'))
      else String c (replace_nl s')
  end.

(** ['\n'.join(l)] *)
Fixpoint join_nl (l : list string) : string :=
  match l with
  | [] => EmptyString
  | [x] => x
  | x :: rest => x +:+ String LF (join_nl rest)
  end.

Definition nonempty (s : string) : bool :=
  match s with EmptyString => false | _ => true end.

Fixpoint leading_spaces (s : string) : nat :=
  match s with
  | EmptyString => 0
  | String c s' => if isspace c then S (leading_spaces s') else 0
  end.

(** [m = re.search(r"\S", s)]; [m.start() if m else 0] *)
Definition first_nonspace (s : string) : nat :=
  if nonempty (lstrip s) then leading_spaces s else 0.

End Py.

(** ** posixpath *)

Module posixpath.

Definition is_sep : ascii -> bool := Py.is_char "/"%char.

(** [p[:p.rfind('/') + 1]] *)
Fixpoint head_with_sep (p : string) : string :=
  match p with
  | EmptyString => EmptyString
  | String c p' =>
      match head_with_sep p' with
      | EmptyString => if is_sep c then String c EmptyString else EmptyString
      | h => String c h
      end
  end.

(** [p[p.rfind('/') + 1:]] *)
Fixpoint basename (p : string) : string :=
  match p with
  | EmptyString => EmptyString
  | String c p' =>
      match head_with_sep p' with
      | EmptyString => if is_sep c then p' else p
      | _ => basename p'
      end
  end.

(** [head != '/' * len(head)] *)
Definition only_seps (h : string) : bool :=
  negb (Py.nonempty (Py.lstrip_by is_sep h)).

Definition dirname (p : string) : string :=
  let head := head_with_sep p in
  if Py.nonempty head && negb (only_seps head)
  then Py.rstrip_by is_sep head
  else head.

Definition endswith_sep (p : string) : bool :=
  negb (bool_decide (Py.rstrip_by is_sep p = p)).

(** [p.split('/')] *)
Fixpoint split_sep (p : string) : list string :=
  match p with
  | EmptyString => [EmptyString]
  | String c p' =>
      if is_sep c then EmptyString :: split_sep p'
      else
        match split_sep p' with
        | [] => [String c EmptyString]
        | x :: xs => String c x :: xs
        end
  end.

(** ['/'.join(comps)] *)
Fixpoint join_sep (comps : list string) : string :=
  match comps with
  | [] => EmptyString
  | [x] => x
  | x :: rest => x +:+ "/" +:+ join_sep rest
  end.

Definition is_nil {A} (l : list A) : bool :=
  match l with [] => true | _ => false end.

(** [normpath(path)]: empty components and [.] go, [..] takes the
    component before it with it; one or two slashes at the start stay. *)
Definition normpath (path : string) : string :=
  if negb (Py.nonempty path) then "." else
  let initial_slashes :=
    if Py.startswith "/" path then
      if Py.startswith "//" path && negb (Py.startswith "///" path) then 2 else 1
    else 0 in
  let new_comps :=
    fold_left
      (fun new_comps comp =>
         if bool_decide (comp = "") || bool_decide (comp = ".") then new_comps
         else if negb (bool_decide (comp = ".."))
                 || ((initial_slashes =? 0)%nat && is_nil new_comps)
                 || (negb (is_nil new_comps)
                     && bool_decide (List.last new_comps "" = ".."))
         then (new_comps ++ [comp])%list
         else removelast new_comps)
      (split_sep path) [] in
  let path := join_sep new_comps in
  let path := fold_right (fun s r => s +:+ r) path (repeat "/" initial_slashes) in
  if Py.nonempty path then path else ".".

(** [join(a, b)] for two components. *)
Definition join (a b : string) : string :=
  if Py.startswith "/" b then b
  else if negb (Py.nonempty a) || endswith_sep a then a +:+ b
  else a +:+ "/" +:+ b.

End posixpath.

(** ** Exceptions *)

Inductive Exn :=
| RuntimeError (msg : string)
| AttributeError (name : string)
| FileNotFoundError (path : string)
| PermissionError (path : string)
| IsADirectoryError (path : string)
| NotADirectoryError (path : string)
| SameFileError (src dst : string)
| ShutilError (path : string)
| MissingSectionHeaderError (lineno : nat)
| DuplicateSectionError (section : string) (lineno : nat)
| DuplicateOptionError (section opt : string) (lineno : nat)
| ParsingError (linenos : list nat).

(** [isinstance(e, OSError)] *)
Definition is_OSError (e : Exn) : bool :=
  match e with
  | FileNotFoundError _ | PermissionError _ | IsADirectoryError _
  | NotADirectoryError _ | SameFileError _ _ | ShutilError _ => true
  | _ => false
  end.

(** ** The file system, as os, open and shutil see it *)

Module os.

(** A node is a regular file (its text and whether the process may read
    and write it) or a directory (whether the process may list it and may
    create, rename and remove entries in it). *)
Inductive Node :=
| RegFile (data : string) (r w : bool)
| Directory (r w : bool).

Record FileSystem := mkFS {
  nodes : gmap string Node;
  cwd : string
}.

Inductive Mode := R_OK | W_OK.

Definition lookup_node (fs : FileSystem) (path : string) : option Node :=
  if Py.nonempty path then nodes fs !! path else None.

Definition set_node (path : string) (n : Node) (fs : FileSystem) : FileSystem :=
  mkFS (<[path := n]> (nodes fs)) (cwd fs).

Definition del_node (path : string) (fs : FileSystem) : FileSystem :=
  mkFS (delete path (nodes fs)) (cwd fs).

(** [os.access(path, mode)] *)
Definition access (fs : FileSystem) (path : string) (m : Mode) : bool :=
  match lookup_node fs path, m with
  | Some (RegFile _ r _), R_OK | Some (Directory r _), R_OK => r
  | Some (RegFile _ _ w), W_OK | Some (Directory _ w), W_OK => w
  | None, _ => false
  end.

(** [os.path.isdir], [os.path.exists] *)
Definition isdir (fs : FileSystem) (path : string) : bool :=
  match lookup_node fs path with Some (Directory _ _) => true | _ => false end.
Definition exists_ (fs : FileSystem) (path : string) : bool :=
  match lookup_node fs path with Some _ => true | None => false end.

(** The directory an entry named [path] lives in. *)
Definition parent (fs : FileSystem) (path : string) : string :=
  let d := posixpath.dirname path in
  if Py.nonempty d then d else cwd fs.

(** May the process add, replace or remove the entry [path]? *)
Definition check_entry (fs : FileSystem) (path : string) : option Exn :=
  if Py.nonempty path then
    match lookup_node fs (parent fs path) with
    | Some (Directory _ true) => None
    | Some (Directory _ false) => Some (PermissionError path)
    | Some (RegFile _ _ _) => Some (NotADirectoryError path)
    | None => Some (FileNotFoundError path)
    end
  else Some (FileNotFoundError path).

(** [open(path)]: the text of the file. *)
Definition open_r (fs : FileSystem) (path : string) : Exn + string :=
  match lookup_node fs path with
  | Some (RegFile data r _) => if r then inr data else inl (PermissionError path)
  | Some (Directory _ _) => inl (IsADirectoryError path)
  | None => inl (FileNotFoundError path)
  end.

(** Opening for output: the node the open leaves at [path], where [keep]
    says what becomes of the text of an existing file. *)
Definition open_out (keep : string -> string) (fs : FileSystem) (path : string)
  : Exn + FileSystem :=
  match lookup_node fs path with
  | Some (RegFile data r w) =>
      if w then inr (set_node path (RegFile (keep data) r w) fs)
      else inl (PermissionError path)
  | Some (Directory _ _) => inl (IsADirectoryError path)
  | None =>
      match check_entry fs path with
      | Some e => inl e
      | None => inr (set_node path (RegFile "" true true) fs)
      end
  end.

(** The node at [path], if any, does not refuse [open(path, "w")]. *)
Definition can_open_w (fs : FileSystem) (path : string) : bool :=
  match lookup_node fs path with
  | Some (RegFile _ _ w) => w
  | Some (Directory _ _) => false
  | None => true
  end.

(** [path] is free, or names a file the process may read and write. *)
Definition rw_slot (fs : FileSystem) (path : string) : bool :=
  match lookup_node fs path with
  | Some (RegFile _ r w) => r && w
  | Some (Directory _ _) => false
  | None => true
  end.

(** [open(path, "w")] truncates, [open(path, "a")] does not. *)
Definition open_w : FileSystem -> string -> Exn + FileSystem :=
  open_out (fun _ => "").
Definition open_a : FileSystem -> string -> Exn + FileSystem :=
  open_out (fun data => data).

(** [fh.write(text)] on a file just opened with mode "w", and its close. *)
Definition write (fs : FileSystem) (path : string) (text : string) : FileSystem :=
  match lookup_node fs path with
  | Some (RegFile data r w) => set_node path (RegFile (data +:+ text) r w) fs
  | _ => fs
  end.

(** [shutil.copyfile(src, dst)] followed by the copy of the mode bits
    ([copymode], [copystat]). *)
Definition copyfile_mode (fs : FileSystem) (src dst : string) : Exn + FileSystem :=
  if bool_decide (src = dst) && exists_ fs src then inl (SameFileError src dst)
  else
    match lookup_node fs src with
    | None => inl (FileNotFoundError src)
    | Some (Directory _ _) => inl (IsADirectoryError src)
    | Some (RegFile data r w) =>
        if r then
          match open_w fs dst with
          | inl e => inl e
          | inr fs' => inr (set_node dst (RegFile data r w) fs')
          end
        else inl (PermissionError src)
    end.

End os.

Module shutil.
Import os.

(** [shutil.copy(src, dst)] (and [copy2], which differs in metadata the
    model does not hold). *)
Definition copy (fs : FileSystem) (src dst : string) : Exn + FileSystem :=
  let dst := if isdir fs dst then posixpath.join dst (posixpath.basename src)
             else dst in
  copyfile_mode fs src dst.

(** [os.rename(src, dst)] for a source that is not a directory. *)
Definition rename (fs : FileSystem) (src dst : string) : Exn + FileSystem :=
  match lookup_node fs src with
  | None => inl (FileNotFoundError src)
  | Some n =>
      match check_entry fs src, check_entry fs dst with
      | Some e, _ | None, Some e => inl e
      | None, None =>
          if isdir fs dst then inl (IsADirectoryError dst)
          else inr (set_node dst n (del_node src fs))
      end
  end.

(** [os.unlink(path)] *)
Definition unlink (fs : FileSystem) (path : string) : Exn + FileSystem :=
  match lookup_node fs path with
  | None => inl (FileNotFoundError path)
  | Some (Directory _ _) => inl (IsADirectoryError path)
  | Some (RegFile _ _ _) =>
      match check_entry fs path with
      | Some e => inl e
      | None => inr (del_node path fs)
      end
  end.

(** [shutil.move(src, dst)]. The source is a regular file or missing at
    the one call the program makes (it has just been written); a source
    that is a directory is answered with IsADirectoryError. The second
    component is the file system the call leaves behind when it raises. *)
Definition move (fs : FileSystem) (src dst : string) : (Exn * FileSystem) + FileSystem :=
  if isdir fs src then inl (IsADirectoryError src, fs) else
  let real_dst := if isdir fs dst then posixpath.join dst (posixpath.basename src)
                  else dst in
  if isdir fs dst && exists_ fs real_dst then inl (ShutilError real_dst, fs)
  else
    match rename fs src real_dst with
    | inr fs' => inr fs'
    | inl _ =>
        match copy fs src real_dst with
        | inl e => inl (e, fs)
        | inr fs1 =>
            match unlink fs1 src with
            | inl e => inl (e, fs1)
            | inr fs2 => inr fs2
            end
        end
    end.

End shutil.

(** ** Python dictionaries with string keys

    Insertion-ordered: assigning to a key that is present keeps its place,
    a new key goes to the end. Only the first binding of a key counts. *)

Module dict.
Section Dict.
Context {V : Type}.

Definition t := list (string * V).

Fixpoint get (k : string) (d : t) : option V :=
  match d with
  | [] => None
  | (k', v) :: d' => if bool_decide (k' = k) then Some v else get k d'
  end.

Definition mem (k : string) (d : t) : bool :=
  match get k d with Some _ => true | None => false end.

(** [d[k] = v] *)
Fixpoint set (k : string) (v : V) (d : t) : t :=
  match d with
  | [] => [(k, v)]
  | (k', v') :: d' =>
      if bool_decide (k' = k) then (k, v) :: d' else (k', v') :: set k v d'
  end.

(** [del d[k]] *)
Fixpoint del (k : string) (d : t) : t :=
  match d with
  | [] => []
  | (k', v') :: d' =>
      if bool_decide (k' = k) then d' else (k', v') :: del k d'
  end.

(** In-place change of the value held at [k] (a method call on [d[k]]). *)
Fixpoint update (k : string) (f : V -> V) (d : t) : t :=
  match d with
  | [] => []
  | (k', v') :: d' =>
      if bool_decide (k' = k) then (k', f v') :: d' else (k', v') :: update k f d'
  end.

Definition keys (d : t) : list string := map fst d.

End Dict.
Arguments t : clear implicits.

Definition map_values {V W : Type} (f : V -> W) (d : t V) : t W :=
  map (fun kv => (fst kv, f (snd kv))) d.

End dict.

(** ** configparser.ConfigParser, with the default settings *)

Module configparser.

(** The two dictionaries of a parser object: [_defaults] holds the options
    of the default section, [_sections] the other sections. *)
Record Parser (V : Type) := mkParser {
  _defaults : dict.t V;
  _sections : dict.t (dict.t V)
}.
Arguments mkParser {V}.
Arguments _defaults {V}.
Arguments _sections {V}.

(** [ConfigParser()] *)
Definition empty {V} : Parser V := mkParser [] [].

Definition default_section : string := "DEFAULT".

Definition optionxform (optionstr : string) : string := Py.lower optionstr.

Section Access.
Context {V : Type}.

(** [sections()]: "Return a list of section names, excluding [DEFAULT]". *)
Definition sections (cp : Parser V) : list string := dict.keys (_sections cp).

Definition has_section (cp : Parser V) (section : string) : bool :=
  dict.mem section (_sections cp).

Definition remove_section (section : string) (cp : Parser V) : Parser V :=
  if dict.mem section (_sections cp)
  then mkParser (_defaults cp) (dict.del section (_sections cp))
  else cp.

Definition has_option (cp : Parser V) (section opt : string) : bool :=
  if negb (Py.nonempty section) || bool_decide (section = default_section)
  then dict.mem (optionxform opt) (_defaults cp)
  else
    match dict.get section (_sections cp) with
    | None => false
    | Some d => dict.mem (optionxform opt) d
                || dict.mem (optionxform opt) (_defaults cp)
    end.


End Access.

(** *** write *)

Definition write_option (kv : string * string) : string :=
  fst kv +:+ " = " +:+ Py.replace_nl (snd kv) +:+ String Py.LF "".

Definition _write_section (section_name : string) (section_items : dict.t string)
  : string :=
  "[" +:+ section_name +:+ "]" +:+ String Py.LF "" +:+
  fold_right (fun kv rest => write_option kv +:+ rest) (String Py.LF "")
             section_items.

(** The text [write(fp)] sends to [fp]. *)
Definition write (cp : Parser string) : string :=
  (match _defaults cp with
   | [] => ""
   | items => _write_section default_section items
   end) +:+
  fold_right (fun s rest => _write_section (fst s) (snd s) +:+ rest) ""
             (_sections cp).

(** *** _read *)

(** A value while a file is being read: the list of its lines; a value
    that was in memory before is a string. *)
Inductive optval := Str (s : string) | Lines (l : list string).

(** Which dictionary the variable [cursect] refers to. *)
Inductive cursect_ref := CurNone | CurDefaults | CurSection (name : string).

Inductive element := ElSection (name : string) | ElOption (section opt : string).

#[export] Instance element_eq_dec : EqDecision element.
Proof. solve_decision. Defined.

Record rstate := mkR {
  cp : Parser optval;
  cursect : cursect_ref;
  sectname : string;
  optname : option string;
  indent_level : nat;
  elements_added : list element;
  e : list nat            (* the line numbers of the pending ParsingError *)
}.

Definition comment_prefixes : list string := ["#"; ";"].

(** [SECTCRE.match(value)]: the group [header] of
    [\[(?P<header>.+)\]], the text between the opening bracket and the
    last closing bracket, which must not be empty. *)
Fixpoint before_last_bracket (s : string) : option string :=
  match s with
  | EmptyString => None
  | String c s' =>
      match before_last_bracket s' with
      | Some h => Some (String c h)
      | None => if Py.is_char "]"%char c then Some EmptyString else None
      end
  end.

Definition match_section (value : string) : option string :=
  match value with
  | String c rest =>
      if Py.is_char "["%char c then
        match before_last_bracket rest with
        | Some h => if Py.nonempty h then Some h else None
        | None => None
        end
      else None
  | EmptyString => None
  end.

Definition is_delim (c : ascii) : bool :=
  Py.is_char "="%char c || Py.is_char ":"%char c.

(** The text before and after the first delimiter. *)
Fixpoint split_delim (s : string) : option (string * string) :=
  match s with
  | EmptyString => None
  | String c s' =>
      if is_delim c then Some (EmptyString, s')
      else match split_delim s' with
           | Some (a, b) => Some (String c a, b)
           | None => None
           end
  end.

(** [OPTCRE.match(value)]: the groups [option] and [value] of
    the verbose pattern [(?P<option> .*? ) \s* (?P<vi> =|: ) \s* (?P<value> .* ) $].
    The lazy [option] ends before the blanks that precede the first
    delimiter; [value] starts after the blanks that follow it. *)
Definition match_option (value : string) : option (string * string) :=
  match split_delim value with
  | Some (a, b) => Some (Py.rstrip a, Py.lstrip b)
  | None => None
  end.

Definition truthy (o : option string) : bool :=
  match o with Some s => Py.nonempty s | None => false end.

(** [cursect[optname] = v] *)
Definition cur_set (c : cursect_ref) (o : string) (v : optval) (p : Parser optval)
  : Parser optval :=
  match c with
  | CurNone => p
  | CurDefaults => mkParser (dict.set o v (_defaults p)) (_sections p)
  | CurSection s =>
      mkParser (_defaults p) (dict.update s (dict.set o v) (_sections p))
  end.

Definition append_line (x : string) (v : optval) : optval :=
  match v with
  | Lines l => Lines (l ++ [x])%list
  | Str s => Str s
  end.

(** [cursect[optname].append(x)] *)
Definition cur_append (c : cursect_ref) (o : string) (x : string) (p : Parser optval)
  : Parser optval :=
  match c with
  | CurNone => p
  | CurDefaults => mkParser (dict.update o (append_line x) (_defaults p)) (_sections p)
  | CurSection s =>
      mkParser (_defaults p)
               (dict.update s (dict.update o (append_line x)) (_sections p))
  end.

Definition is_cur (c : cursect_ref) : bool :=
  match c with CurNone => false | _ => true end.

(** One turn of the loop [for lineno, line in enumerate(fp, start=1)]. *)
Definition read_line (lineno : nat) (line : string) (st : rstate) : Exn + rstate :=
  let is_comment :=
    existsb (fun prefix => Py.startswith prefix (Py.strip line)) comment_prefixes in
  let value := if is_comment then "" else Py.strip line in
  if negb (Py.nonempty value) then
    if negb is_comment && is_cur (cursect st) && truthy (optname st) then
      inr (mkR (cur_append (cursect st) (default "" (optname st)) "" (cp st))
               (cursect st) (sectname st) (optname st) (indent_level st)
               (elements_added st) (e st))
    else inr st
  else
    let cur_indent_level := Py.first_nonspace line in
    if is_cur (cursect st) && truthy (optname st)
       && (indent_level st <? cur_indent_level)%nat then
      inr (mkR (cur_append (cursect st) (default "" (optname st)) value (cp st))
               (cursect st) (sectname st) (optname st) (indent_level st)
               (elements_added st) (e st))
    else
      match match_section value with
      | Some header =>
          if dict.mem header (_sections (cp st)) then
            if bool_decide (ElSection header ∈ elements_added st)
            then inl (DuplicateSectionError header lineno)
            else inr (mkR (cp st) (CurSection header) header None cur_indent_level
                          (ElSection header :: elements_added st) (e st))
          else if bool_decide (header = default_section) then
            inr (mkR (cp st) CurDefaults header None cur_indent_level
                     (elements_added st) (e st))
          else
            inr (mkR (mkParser (_defaults (cp st))
                               (dict.set header [] (_sections (cp st))))
                     (CurSection header) header None cur_indent_level
                     (ElSection header :: elements_added st) (e st))
      | None =>
          if negb (is_cur (cursect st)) then inl (MissingSectionHeaderError lineno)
          else
            match match_option value with
            | Some (o, ov) =>
                let e' := if Py.nonempty o then e st else (e st ++ [lineno])%list in
                let o := optionxform (Py.rstrip o) in
                if bool_decide (ElOption (sectname st) o ∈ elements_added st)
                then inl (DuplicateOptionError (sectname st) o lineno)
                else
                  inr (mkR (cur_set (cursect st) o (Lines [Py.strip ov]) (cp st))
                           (cursect st) (sectname st) (Some o) cur_indent_level
                           (ElOption (sectname st) o :: elements_added st) e')
            | None =>
                inr (mkR (cp st) (cursect st) (sectname st) (optname st)
                         cur_indent_level (elements_added st) (e st ++ [lineno])%list)
            end
      end.

Fixpoint read_lines (lineno : nat) (lines : list string) (st : rstate)
  : Exn + rstate :=
  match lines with
  | [] => inr st
  | line :: rest =>
      match read_line lineno line st with
      | inl err => inl err
      | inr st' => read_lines (S lineno) rest st'
      end
  end.

Definition join_value (v : optval) : string :=
  match v with
  | Lines l => Py.rstrip (Py.join_nl l)
  | Str s => s
  end.

Definition _join_multiline_values (p : Parser optval) : Parser string :=
  mkParser (dict.map_values join_value (_defaults p))
           (dict.map_values (dict.map_values join_value) (_sections p)).

(** The values in memory when the read starts are strings. *)
Definition in_memory (p : Parser string) : Parser optval :=
  mkParser (dict.map_values Str (_defaults p))
           (dict.map_values (dict.map_values Str) (_sections p)).

(** How [_read(fp, fpname)] ends. *)
Inductive read_result :=
| ReadOk (p : Parser string)
| ReadParsingError (err : Exn) (p : Parser string)
    (* raised after the last line; every well-formed line has been taken *)
| ReadAborted (err : Exn).
    (* raised at a line; the object keeps the lines read so far as lists *)

Definition _read (text : string) (p : Parser string) : read_result :=
  match read_lines 1 (Py.readlines text)
                   (mkR (in_memory p) CurNone "" None 0 [] []) with
  | inl err => ReadAborted err
  | inr st =>
      let p' := _join_multiline_values (cp st) in
      match e st with
      | [] => ReadOk p'
      | linenos => ReadParsingError (ParsingError linenos) p'
      end
  end.

End configparser.

(** ** logging: the root logger and its handlers *)

Module logging.

Definition DEBUG : nat := 10.
Definition INFO : nat := 20.
Definition WARNING : nat := 30.

Inductive Stream := Stdout | FileStream (baseFilename : string).

(** A handler object. [hid] is its identity (two handlers made by two
    calls are two objects, also when they write to the same stream). *)
Record Handler := mkHandler {
  hid : nat;
  stream : Stream;
  formatter : option (string * string)    (* format string, datefmt *)
}.

#[export] Instance Stream_eq_dec : EqDecision Stream.
Proof. solve_decision. Defined.
#[export] Instance Handler_eq_dec : EqDecision Handler.
Proof. solve_decision. Defined.

(** What was done to the handler list, in the order of the calls: the
    handler of identity [h] was closed, taken off the list, or put on it. *)
Inductive Event := Closed (h : nat) | Removed (h : nat) | Added (h : nat).

Record Logger := mkLogger {
  handlers : list Handler;
  level : nat;
  closed : list nat;            (* the handlers [close()] was called on *)
  next_hid : nat;               (* the next object identity to hand out *)
  records : list (Stream * nat * string);  (* what the handlers emitted *)
  events : list Event           (* the calls on the handler list, oldest first *)
}.

(** [logging.getLogger()] before anything is configured. *)
Definition root : Logger := mkLogger [] WARNING [] 0 [] [].

(** [list.remove(x)]: drops the first element equal to [x]. *)
Fixpoint list_remove (x : Handler) (l : list Handler) : list Handler :=
  match l with
  | [] => []
  | y :: l' => if bool_decide (y = x) then l' else y :: list_remove x l'
  end.

Definition close (h : Handler) (lg : Logger) : Logger :=
  mkLogger (handlers lg) (level lg) (hid h :: closed lg) (next_hid lg) (records lg)
           (events lg ++ [Closed (hid h)])%list.

Definition removeHandler (h : Handler) (lg : Logger) : Logger :=
  if bool_decide (h ∈ handlers lg)
  then mkLogger (list_remove h (handlers lg)) (level lg) (closed lg)
                (next_hid lg) (records lg) (events lg ++ [Removed (hid h)])%list
  else lg.

Definition addHandler (h : Handler) (lg : Logger) : Logger :=
  if bool_decide (h ∈ handlers lg) then lg
  else mkLogger (handlers lg ++ [h])%list (level lg) (closed lg)
                (next_hid lg) (records lg) (events lg ++ [Added (hid h)])%list.

(** A new handler object on [s]. *)
Definition new_handler (s : Stream) (lg : Logger) : Handler * Logger :=
  (mkHandler (next_hid lg) s None,
   mkLogger (handlers lg) (level lg) (closed lg) (S (next_hid lg)) (records lg)
            (events lg)).

Definition setFormatter (f : string * string) (h : Handler) : Handler :=
  mkHandler (hid h) (stream h) (Some f).

Definition setLevel (l : nat) (lg : Logger) : Logger :=
  mkLogger (handlers lg) l (closed lg) (next_hid lg) (records lg) (events lg).

(** [logger.log(lvl, msg)] on the root logger: every attached handler
    emits the record when the level is enabled. *)
Definition log (lvl : nat) (msg : string) (lg : Logger) : Logger :=
  if (level lg <=? lvl)%nat then
    mkLogger (handlers lg) (level lg) (closed lg) (next_hid lg)
             (records lg ++ map (fun h => (stream h, lvl, msg)) (handlers lg))%list
             (events lg)
  else lg.

End logging.

(** ** The program state *)

(** An attribute of an [argparse.Namespace]: [name in pargs] is false for
    [Absent]. *)
Inductive attr (A : Type) := Absent | Attr (v : A).
Arguments Absent {A}.
Arguments Attr {A}.

(** [pargs]. The parser declares [input], [logfile] (both [None] unless
    given) and the counter [verbose]; lines 117-118 give [verbose] the
    value 0 should it be missing, so the functions always find an integer
    there. [conffile] is looked up but never declared. *)
Record Namespace := mkNamespace {
  input : attr (option string);
  logfile : attr (option string);
  verbose : Z;
  conffile : attr string
}.

Inductive FsCall :=
| CallAccess (path : string) (m : os.Mode)
| CallOpenR (path : string)
| CallOpenW (path : string)
| CallOpenA (path : string)
| CallWrite (path : string) (text : string)
| CallCopy (src dst : string)
| CallMove (src dst : string).

(** The module globals and the world around them. [trace] lists the calls
    made into the file system, oldest first, each with the file system it
    was made on. *)
Record State := mkState {
  conf_rw : bool;
  conf_rw_save : bool;
  conf_rw_backup : bool;
  conf : configparser.Parser string;
  logger : logging.Logger;
  pargs : Namespace;
  fs : os.FileSystem;
  trace : list (FsCall * os.FileSystem)
}.

Definition set_conf (c : configparser.Parser string) (st : State) : State :=
  mkState (conf_rw st) (conf_rw_save st) (conf_rw_backup st) c (logger st)
          (pargs st) (fs st) (trace st).
Definition set_logger (l : logging.Logger) (st : State) : State :=
  mkState (conf_rw st) (conf_rw_save st) (conf_rw_backup st) (conf st) l
          (pargs st) (fs st) (trace st).
Definition set_pargs (p : Namespace) (st : State) : State :=
  mkState (conf_rw st) (conf_rw_save st) (conf_rw_backup st) (conf st) (logger st)
          p (fs st) (trace st).
(** A call into the file system that leaves it as [fs']. *)
Definition sys (c : FsCall) (fs' : os.FileSystem) (st : State) : State :=
  mkState (conf_rw st) (conf_rw_save st) (conf_rw_backup st) (conf st) (logger st)
          (pargs st) fs' (trace st ++ [(c, fs st)])%list.

(** ** Statements: state and exceptions *)

Inductive Result (A : Type) :=
| Ok (a : A) (st : State)
| Raise (err : Exn) (st : State)
| RaiseInRead (err : Exn).
    (* raised inside [ConfigParser._read]: [conf] is left half-read, with
       lists of lines for values, which [State] cannot hold *)
Arguments Ok {A}.
Arguments Raise {A}.
Arguments RaiseInRead {A}.

Definition M (A : Type) : Type := State -> Result A.

Definition ret {A} (a : A) : M A := fun st => Ok a st.
Definition raise {A} (err : Exn) : M A := fun st => Raise err st.
Definition bind {A B} (m : M A) (k : A -> M B) : M B :=
  fun st =>
    match m st with
    | Ok a st' => k a st'
    | Raise err st' => Raise err st'
    | RaiseInRead err => RaiseInRead err
    end.
Definition gets {A} (f : State -> A) : M A := fun st => Ok (f st) st.
Definition modify (f : State -> State) : M unit := fun st => Ok tt (f st).

#[export] Instance M_ret : MRet M := @ret.
#[export] Instance M_bind : MBind M := fun A B k m => bind m k.

Notation "'let*' x := m 'in' k" := (bind m (fun x => k))
  (at level 10, x name, m at level 100, k at level 200).

Definition when (b : bool) (m : M unit) : M unit := if b then m else ret tt.

(** [for x in l: body(x)] *)
Fixpoint for_ {A} (l : list A) (body : A -> M unit) : M unit :=
  match l with
  | [] => ret tt
  | x :: l' => body x ;; for_ l' body
  end.

(** *** The calls into the file system *)

Definition access (path : string) (m : os.Mode) : M bool :=
  fun st => Ok (os.access (fs st) path m) (sys (CallAccess path m) (fs st) st).

Definition copy (src dst : string) : M unit :=
  fun st =>
    match shutil.copy (fs st) src dst with
    | inl err => Raise err (sys (CallCopy src dst) (fs st) st)
    | inr fs' => Ok tt (sys (CallCopy src dst) fs' st)
    end.

Definition move (src dst : string) : M unit :=
  fun st =>
    match shutil.move (fs st) src dst with
    | inl (err, fs') => Raise err (sys (CallMove src dst) fs' st)
    | inr fs' => Ok tt (sys (CallMove src dst) fs' st)
    end.

(** [open(path, "w")]; the file object is named by its path. *)
Definition open_w (path : string) : M string :=
  fun st =>
    match os.open_w (fs st) path with
    | inl err => Raise err (sys (CallOpenW path) (fs st) st)
    | inr fs' => Ok path (sys (CallOpenW path) fs' st)
    end.

Definition fh_write (fh : string) (text : string) : M unit :=
  fun st => Ok tt (sys (CallWrite fh text) (os.write (fs st) fh text) st).

(** [conf.write(fh)] *)
Definition conf_write (fh : string) : M unit :=
  let* c := gets conf in fh_write fh (configparser.write c).

(** [conf.sections()], [conf.remove_section(section)] *)
Definition conf_sections : M (list string) :=
  gets (fun st => configparser.sections (conf st)).
Definition conf_remove_section (section : string) : M unit :=
  modify (fun st => set_conf (configparser.remove_section section (conf st)) st).

(** [conf.read(filename)]: a file that cannot be opened is skipped
    ([except OSError: continue]); what [_read] raises is passed on. *)
Definition conf_read (filename : string) : M unit :=
  fun st =>
    let st' := sys (CallOpenR filename) (fs st) st in
    match os.open_r (fs st) filename with
    | inl err => if is_OSError err then Ok tt st' else Raise err st'
    | inr text =>
        match configparser._read text (conf st) with
        | configparser.ReadOk c => Ok tt (set_conf c st')
        | configparser.ReadParsingError err c => Raise err (set_conf c st')
        | configparser.ReadAborted err => RaiseInRead err
        end
    end.

(** *** Logging statements *)

Definition logger_info (msg : string) : M unit :=
  modify (fun st => set_logger (logging.log logging.INFO msg (logger st)) st).

(** [logging.StreamHandler(sys.stdout)] *)
Definition StreamHandler_stdout : M logging.Handler :=
  fun st =>
    let '(h, lg) := logging.new_handler logging.Stdout (logger st) in
    Ok h (set_logger lg st).

(** [os.path.abspath(path)] *)
Definition abspath (fs : os.FileSystem) (path : string) : string :=
  posixpath.normpath
    (if Py.startswith "/" path then path else posixpath.join (os.cwd fs) path).

(** [logging.FileHandler(filename=...)]: opens the file for appending. *)
Definition FileHandler (filename : string) : M logging.Handler :=
  fun st =>
    let base := abspath (fs st) filename in
    match os.open_a (fs st) base with
    | inl err => Raise err (sys (CallOpenA base) (fs st) st)
    | inr fs' =>
        let st' := sys (CallOpenA base) fs' st in
        let '(h, lg) := logging.new_handler (logging.FileStream base) (logger st') in
        Ok h (set_logger lg st')
    end.

(** ** proginit.py *)

Definition logformat : string * string :=
  ("{asctime} [{levelname:8}] {message}", "%Y-%m-%d %H:%M:%S").

Definition on_logger (f : logging.Logger -> logging.Logger) : M unit :=
  modify (fun st => set_logger (f (logger st)) st).

(** Lines 32-59. *)
Definition reconfigure_logger : M unit :=
  (* Clear all log handler *)
  let* hs := gets (fun st => logging.handlers (logger st)) in
  for_ hs (fun lhandler =>
    on_logger (logging.close lhandler);;
    on_logger (logging.removeHandler lhandler));;
  (* Create new log handler *)
  let* lhandler := StreamHandler_stdout in
  on_logger (logging.addHandler (logging.setFormatter logformat lhandler));;
  let* pa := gets pargs in
  match logfile pa with
  | Attr (Some path) =>
      (* Write logs to a logfile *)
      let* lhandler := FileHandler path in
      on_logger (logging.addHandler (logging.setFormatter logformat lhandler))
  | _ => mret tt
  end;;
  (* Loglevel auswerten *)
  let loglevel :=
    if (verbose pa =? 1)%Z then logging.INFO
    else if (1 <? verbose pa)%Z then logging.DEBUG
    else logging.WARNING in
  on_logger (logging.setLevel loglevel).

(** Lines 62-90. *)
Definition reload_conf (clear_load : bool) : M unit :=
  let* pa := gets pargs in
  match conffile pa with
  | Absent => mret tt
  | Attr conffile =>
      (* Check config file *)
      let* readable := access conffile os.R_OK in
      if negb readable then
        raise (RuntimeError ("can not access config file '" +:+ conffile +:+ "'"))
      else
        let* rw := gets conf_rw in
        (if rw then
           let* files := gets (fun st => conf_rw_save st || conf_rw_backup st) in
           let* dir_ok := (if files then access (posixpath.dirname conffile) os.W_OK
                           else mret true) in
           if negb dir_ok then
             raise (RuntimeError ("can not write to directory '" +:+
                                  posixpath.dirname conffile +:+ "' to create files"))
           else
             let* writable := access conffile os.W_OK in
             if negb writable then
               raise (RuntimeError ("can not write to config file '" +:+ conffile +:+ "'"))
             else mret tt
         else mret tt);;
        (* Clear all sections and do not create a new instance *)
        when clear_load (
          let* sections := conf_sections in
          for_ sections conf_remove_section);;
        (* Read configuration *)
        logger_info ("loading config file: " +:+ conffile);;
        conf_read conffile
  end.

(** Lines 93-106. *)
Definition save_conf : M unit :=
  let* rw := gets conf_rw in
  if negb rw then raise (RuntimeError "You have to set conf_rw to True.")
  else
    let* pa := gets pargs in
    match conffile pa with
    | Absent => mret tt
    | Attr conffile =>
        let* backup := gets conf_rw_backup in
        when backup (copy conffile (conffile +:+ ".bak"));;
        let* save := gets conf_rw_save in
        if save then
          let* fh := open_w (conffile +:+ ".new") in
          conf_write fh;;
          move (conffile +:+ ".new") conffile
        else
          let* fh := open_w conffile in
          conf_write fh
    end.

(** Lines 26-29. [logging.shutdown()] closes the handlers that are still
    alive, the last created first. Of the handlers this module makes,
    those are the ones attached to the logger: a handler taken off the
    logger by [reconfigure_logger] is referenced by nothing any more. *)
Definition cleanup : M unit :=
  let* hs := gets (fun st => logging.handlers (logger st)) in
  for_ (rev hs) (fun lhandler => on_logger (logging.close lhandler)).

(** *** The module body, lines 109-134 *)

(** One option of the command line, as argparse hands it to its actions
    ([-i]/[--input], [-f]/[--logfile], [-v]/[--verbose]). A command line
    argparse rejects ends the process before any of this runs. *)
Inductive Option_ :=
| OptInput (value : string)
| OptLogfile (value : string)
| OptVerbose.

(** [parser.parse_args()]: the namespace starts with the defaults of the
    three declared destinations; each option stores into its own. *)
Definition parse_args (argv : list Option_) : Namespace :=
  fold_left
    (fun ns o =>
       match o with
       | OptInput v => mkNamespace (Attr (Some v)) (logfile ns) (verbose ns) (conffile ns)
       | OptLogfile v => mkNamespace (input ns) (Attr (Some v)) (verbose ns) (conffile ns)
       | OptVerbose => mkNamespace (input ns) (logfile ns) (verbose ns + 1)%Z (conffile ns)
       end)
    argv
    (mkNamespace (Attr None) (Attr None) 0%Z Absent).

Definition on_pargs (f : Namespace -> Namespace) : M unit :=
  modify (fun st => set_pargs (f (pargs st)) st).

Definition startup (argv : list Option_) : M unit :=
  on_pargs (fun _ => parse_args argv);;
  (* Get absolute paths *)
  let* pwd := gets (fun st => abspath (fs st) ".") in
  (* Configure logger *)
  let* pa := gets pargs in
  match logfile pa with
  | Attr (Some lf) =>
      when (negb (Py.nonempty (posixpath.dirname lf)))
        (on_pargs (fun ns => mkNamespace (input ns) (Attr (Some (posixpath.join pwd lf)))
                                         (verbose ns) (conffile ns)))
  | _ => mret tt
  end;;
  reconfigure_logger;;
  (* Initialize configparser of globalconfig *)
  let* pa := gets pargs in
  match conffile pa with
  | Attr cf =>
      when (negb (Py.nonempty (posixpath.dirname cf)))
        (on_pargs (fun ns => mkNamespace (input ns) (logfile ns) (verbose ns)
                                         (Attr (posixpath.join pwd cf))))
  | Absent => mret tt
  end.

Definition main (argv : list Option_) : M unit :=
  startup argv;;
  (* Load configuration *)
  reload_conf false.

(** The globals as lines 15-23 set them, in a world with file system [fs]. *)
Definition initial (fs : os.FileSystem) : State :=
  mkState true true true configparser.empty logging.root
          (mkNamespace Absent Absent 0%Z Absent) fs [].

(** [m] run [n] times in a row. *)
Fixpoint times (n : nat) (m : M unit) : M unit :=
  match n with
  | 0 => mret tt
  | S n' => m;; times n' m
  end.

(** ** Configurations the INI text format carries unchanged *)

Fixpoint all_chars (f : ascii -> bool) (s : string) : bool :=
  match s with
  | EmptyString => true
  | String c s' => f c && all_chars f s'
  end.

(** An ASCII character that does not end a line. *)
Definition plain (c : ascii) : bool :=
  negb (Py.is_char Py.LF c) && negb (Py.is_char Py.CR c)
  && (nat_of_ascii c <? 128)%nat.




(** The lines of a value: [v.split('\n')]. *)
Fixpoint value_lines (v : string) : list string :=
  match v with
  | EmptyString => [EmptyString]
  | String c v' =>
      if Py.is_char Py.LF c then EmptyString :: value_lines v'
      else
        match value_lines v' with
        | [] => [String c EmptyString]
        | l :: ls => String c l :: ls
        end
  end.








(** ** Sample worlds *)

Definition set_flags (rw save backup : bool) (st : State) : State :=
  mkState rw save backup (conf st) (logger st) (pargs st) (fs st) (trace st).
Definition set_fs (fs' : os.FileSystem) (st : State) : State :=
  mkState (conf_rw st) (conf_rw_save st) (conf_rw_backup st) (conf st) (logger st)
          (pargs st) fs' (trace st).

Definition nl : string := String Py.LF "".

Definition sample_path : string := "/etc/app/main.cfg".

Definition sample_text : string :=
  "[main]" +:+ nl +:+ "name = x" +:+ nl.

(** A writable directory with a readable, writable configuration file. *)
Definition sample_fs : os.FileSystem :=
  os.mkFS (<["/etc/app" := os.Directory true true]>
           (<[sample_path := os.RegFile sample_text true true]> ∅))
          "/home/user".

(** The same file in a directory the process may not write to. *)
Definition readonly_dir_fs : os.FileSystem :=
  os.mkFS (<["/etc/app" := os.Directory true false]>
           (<[sample_path := os.RegFile sample_text true true]> ∅))
          "/home/user".

(** A file the process may not read, in such a directory. *)
Definition unreadable_fs : os.FileSystem :=
  os.mkFS (<["/etc/app" := os.Directory true false]>
           (<[sample_path := os.RegFile sample_text false true]> ∅))
          "/home/user".

(** [pargs] as the parser leaves it for an empty command line. *)
Definition bare_pargs : Namespace := parse_args [].

(** The same with [conffile] supplied from outside. *)
Definition sample_pargs : Namespace :=
  mkNamespace (Attr None) (Attr None) 0%Z (Attr sample_path).

Definition sample_state : State := set_pargs sample_pargs (initial sample_fs).

Definition sample_conf : configparser.Parser string :=
  configparser.mkParser [] [("main", [("name", "x"); ("mode", "fast")])].

(** A world with a directory for log files, and arguments that ask for
    a log file there ([-vv -f /var/log/app.log]). *)
Definition logging_fs : os.FileSystem :=
  os.mkFS (<["/var/log" := os.Directory true true]> ∅) "/home/user".

Definition logging_state : State :=
  set_pargs (parse_args [OptVerbose; OptVerbose; OptLogfile "/var/log/app.log"])
            (initial logging_fs).

(** A configuration file with an option in the default section, and the
    same file after that option has been taken out. *)
Definition defaults_text : string :=
  "[DEFAULT]" +:+ nl +:+ "debug = 1" +:+ nl +:+
  "[main]" +:+ nl +:+ "name = x" +:+ nl +:+ "mode = fast" +:+ nl.
Definition edited_text : string :=
  "[main]" +:+ nl +:+ "name = x" +:+ nl.

Definition fs_with (text : string) : os.FileSystem :=
  os.mkFS (<["/etc/app" := os.Directory true true]>
           (<[sample_path := os.RegFile text true true]> ∅))
          "/home/user".

(** A configuration with a value of three lines, the second one empty,
    and a key that starts with an opening bracket. *)
Definition lines_conf : configparser.Parser string :=
  configparser.mkParser
    [("debug", "1")]
    [("main", [("name", "a" +:+ nl +:+ nl +:+ "b = c"); ("[mode", "fast")])].


(** ** Notions used in the statements *)

(** What a run that returned left in memory and in a file. *)
Definition conf_of {A} (r : Result A) : option (configparser.Parser string) :=
  match r with Ok _ st => Some (conf st) | _ => None end.


(** The configuration file is replaced from outside the program. *)
Definition edit_file (text : string) : M unit :=
  modify (set_fs (fs_with text)).

(** The log file, if one is asked for, can be opened for appending. *)
Definition log_openable (st : State) : Prop :=
  match logfile (pargs st) with
  | Attr (Some path) =>
      exists fs', os.open_a (fs st) (abspath (fs st) path) = inr fs'
  | _ => True
  end.

(** The calls that clear a list of handlers: each one is closed and then
    taken off the logger, in the order of the list. *)
Definition close_events (hs : list logging.Handler) : list logging.Event :=
  flat_map (fun h => [logging.Closed (logging.hid h); logging.Removed (logging.hid h)]) hs.

(** The calls that attach a list of handlers, in the order of the list. *)
Definition attach_events (hs : list logging.Handler) : list logging.Event :=
  map (fun h => logging.Added (logging.hid h)) hs.

(** The streams the arguments ask for. *)
Definition file_streams (st : State) : list logging.Stream :=
  match logfile (pargs st) with
  | Attr (Some path) => [logging.FileStream (abspath (fs st) path)]
  | _ => []
  end.

(** [keeps R m]: however [m] ends, the state it leaves is related by [R]
    to the one it started in. *)
Definition keeps {A} (R : State -> State -> Prop) (m : M A) : Prop :=
  forall st,
    match m st with
    | Ok _ st' | Raise _ st' => R st st'
    | RaiseInRead _ => True
    end.

(** The globals other than the file system and its trace. *)
Definition same_but_fs (st st' : State) : Prop :=
  conf_rw st' = conf_rw st /\ conf_rw_save st' = conf_rw_save st /\
  conf_rw_backup st' = conf_rw_backup st /\ conf st' = conf st /\
  pargs st' = pargs st /\ logger st' = logger st.

(** The logger is the only global [on_logger] touches. *)
Definition same_but_logger (st st' : State) : Prop :=
  conf_rw st' = conf_rw st /\ conf_rw_save st' = conf_rw_save st /\
  conf_rw_backup st' = conf_rw_backup st /\ conf st' = conf st /\
  pargs st' = pargs st.

(** The mode of the file [open(path, "w")] leaves: that of the file that
    was there, or the mode of a new file. *)
Definition mode_after_open (fs0 : os.FileSystem) (q : string) : bool * bool :=
  match os.lookup_node fs0 q with
  | Some (os.RegFile _ r w) => (r, w)
  | _ => (true, true)
  end.






(** Two runs of the read loop that agree on everything but the options
    of the default section. *)
Definition same_sections (st1 st2 : configparser.rstate) : Prop :=
  configparser._sections (configparser.cp st1)
  = configparser._sections (configparser.cp st2)
  /\ configparser.cursect st1 = configparser.cursect st2
  /\ configparser.sectname st1 = configparser.sectname st2
  /\ configparser.optname st1 = configparser.optname st2
  /\ configparser.indent_level st1 = configparser.indent_level st2
  /\ configparser.elements_added st1 = configparser.elements_added st2
  /\ configparser.e st1 = configparser.e st2.

Definition same_outcome (r1 r2 : Exn + configparser.rstate) : Prop :=
  match r1, r2 with
  | inr st1, inr st2 => same_sections st1 st2
  | inl err1, inl err2 => err1 = err2
  | _, _ => False
  end.

(** ** Notions used in the further properties *)

(** The tests of lines 73-81, as one condition on the state. *)
Definition checks_pass (st : State) (path : string) : bool :=
  os.access (fs st) path os.R_OK
  && (negb (conf_rw st)
      || ((negb (conf_rw_save st || conf_rw_backup st)
           || os.access (fs st) (posixpath.dirname path) os.W_OK)
          && os.access (fs st) path os.W_OK)).

(** A configuration without its sections. *)
Definition cleared (c : configparser.Parser string) : configparser.Parser string :=
  configparser.mkParser (configparser._defaults c) [].

(** What [logger.info(msg)] makes the attached handlers emit. *)
Definition info_records (msg : string) (lg : logging.Logger)
  : list (logging.Stream * nat * string) :=
  if (logging.level lg <=? logging.INFO)%nat
  then map (fun h => (logging.stream h, logging.INFO, msg)) (logging.handlers lg)
  else [].

(** Every handler object made so far is attached to the logger or has
    been closed. *)
Definition accounted (lg : logging.Logger) : Prop :=
  forall i, i < logging.next_hid lg ->
    i ∈ logging.closed lg \/ i ∈ map logging.hid (logging.handlers lg).

(** How often [-v] occurs on the command line. *)
Fixpoint count_verbose (argv : list Option_) : nat :=
  match argv with
  | [] => 0
  | OptVerbose :: rest => S (count_verbose rest)
  | _ :: rest => count_verbose rest
  end.

(** What [_read] makes of a line before it looks at it: nothing for a
    comment, else the line without the blanks around it. *)
Definition line_value (line : string) : string :=
  if existsb (fun prefix => Py.startswith prefix (Py.strip line))
             configparser.comment_prefixes
  then "" else Py.strip line.

(** A configuration file the process may read but not write, in a
    directory it may write to. *)
Definition readonly_file_fs : os.FileSystem :=
  os.mkFS (<["/etc/app" := os.Directory true true]>
           (<[sample_path := os.RegFile sample_text true false]> ∅))
          "/home/user".

(** The same file in a directory the process may not write to either. *)
Definition readonly_fs : os.FileSystem :=
  os.mkFS (<["/etc/app" := os.Directory true false]>
           (<[sample_path := os.RegFile sample_text true false]> ∅))
          "/home/user".

(** A directory where the configuration file is expected. *)
Definition dir_at_path_fs : os.FileSystem :=
  os.mkFS (<["/etc/app" := os.Directory true true]>
           (<[sample_path := os.Directory true true]> ∅))
          "/home/user".

(** A writable directory without the configuration file. *)
Definition no_file_fs : os.FileSystem :=
  os.mkFS (<["/etc/app" := os.Directory true true]> ∅) "/home/user".

(** A read-only directory in which the configuration file and a left-over
    [.new] file are writable. *)
Definition leftover_fs : os.FileSystem :=
  os.mkFS (<["/etc/app" := os.Directory true false]>
           (<[sample_path := os.RegFile sample_text true true]>
            (<[sample_path +:+ ".new" := os.RegFile "old" true true]> ∅)))
          "/home/user".

(** Arguments that ask for a log file in a directory that is missing. *)
Definition bad_logfile_state : State :=
  set_pargs (parse_args [OptVerbose; OptLogfile "/nowhere/app.log"])
            (initial logging_fs).

(** A writable directory in which a directory stands where the [.new]
    file would go. *)
Definition blocked_new_fs : os.FileSystem :=
  os.mkFS (<["/etc/app" := os.Directory true true]>
           (<[sample_path := os.RegFile sample_text true true]>
            (<[sample_path +:+ ".new" := os.Directory true true]> ∅)))
          "/home/user".

(** The sample state after a start with one [-v]: a console handler, the
    level INFO. *)
Definition verbose_state : State :=
  set_logger
    (logging.mkLogger [logging.mkHandler 0 logging.Stdout (Some logformat)]
                      logging.INFO [] 1 [] [logging.Added 0])
    sample_state.





(** A configuration with an option in the default section. *)
Definition defaults_conf : configparser.Parser string :=
  configparser.mkParser [("debug", "1")] [("main", [("name", "x"); ("mode", "fast")])].

(** The value of the last [-f] on the command line. *)
Fixpoint last_logfile (argv : list Option_) : option string :=
  match argv with
  | [] => None
  | OptLogfile v :: rest =>
      match last_logfile rest with Some v' => Some v' | None => Some v end
  | _ :: rest => last_logfile rest
  end.

(** A file with a line that is neither a header nor an option. *)
Definition bad_line_text : string :=
  "[main]" +:+ nl +:+ "name = z" +:+ nl +:+ "no delimiter here" +:+ nl.

(** A world with a home directory, and the process started there. *)
Definition home_fs : os.FileSystem :=
  os.mkFS (<["/home/user" := os.Directory true true]> ∅) "/home/user".

(** [d0] with the dictionary [w] laid over it: a key of [d0] keeps its
    place, and where [w] has the key too its value is made by [comb] from
    the value in [w] and its own; the keys that only [w] has follow, in
    the order of [w]. *)
Definition overlay_with {V : Type} (comb : V -> V -> V) (w d0 : dict.t V) : dict.t V :=
  (map (fun kv => (fst kv, match dict.get (fst kv) w with
                           | Some v => comb v (snd kv)
                           | None => snd kv
                           end)) d0
   ++ List.filter (fun kv => negb (dict.mem (fst kv) d0)) w)%list.

(** Options: the value of [w] replaces the one of [d0]. *)
Definition overlay_dict {V : Type} : dict.t V -> dict.t V -> dict.t V :=
  overlay_with (fun v _ => v).

(** Configurations: the default sections are laid over each other, and
    so are the sections, name by name. *)
Definition overlay {V : Type} (cf c0 : configparser.Parser V) : configparser.Parser V :=
  configparser.mkParser
    (overlay_dict (configparser._defaults cf) (configparser._defaults c0))
    (overlay_with overlay_dict (configparser._sections cf) (configparser._sections c0)).

(** What holds of every [ConfigParser] object: a key occurs once in a
    dictionary, and no section is called DEFAULT. *)
Definition well_formed {V : Type} (c : configparser.Parser V) : Prop :=
  NoDup (dict.keys (configparser._defaults c))
  /\ NoDup (dict.keys (configparser._sections c))
  /\ (forall s, s ∈ configparser._sections c -> NoDup (dict.keys (snd s)))
  /\ dict.mem configparser.default_section (configparser._sections c) = false.

(** The run of the read loop on a parser that held [c0], next to the run
    on a new parser: the same course, and in memory what the new parser
    holds laid over [c0]. *)
Definition overlaid (c0 : configparser.Parser configparser.optval)
    (stA stB : configparser.rstate) : Prop :=
  configparser.cp stA = overlay (configparser.cp stB) c0
  /\ configparser.cursect stA = configparser.cursect stB
  /\ configparser.sectname stA = configparser.sectname stB
  /\ configparser.optname stA = configparser.optname stB
  /\ configparser.indent_level stA = configparser.indent_level stB
  /\ configparser.elements_added stA = configparser.elements_added stB
  /\ configparser.e stA = configparser.e stB
  /\ (forall s, configparser.ElSection s ∈ configparser.elements_added stB ->
                dict.mem s (configparser._sections (configparser.cp stB)) = true)
  /\ (forall s, configparser.cursect stB = configparser.CurSection s ->
                dict.mem s (configparser._sections (configparser.cp stB)) = true).

Definition overlaid_outcome (c0 : configparser.Parser configparser.optval)
    (rA rB : Exn + configparser.rstate) : Prop :=
  match rA, rB with
  | inr stA, inr stB => overlaid c0 stA stB
  | inl errA, inl errB => errA = errB
  | _, _ => False
  end.

(** The value section [s] itself holds for option [k], the default
    section left aside. *)
Definition option_in {V : Type} (c : configparser.Parser V) (s k : string) : option V :=
  match dict.get s (configparser._sections c) with
  | Some d => dict.get k d
  | None => None
  end.

(** [well_formed], decided. *)
Definition well_formed_b {V : Type} (c : configparser.Parser V) : bool :=
  bool_decide (NoDup (dict.keys (configparser._defaults c)))
  && bool_decide (NoDup (dict.keys (configparser._sections c)))
  && forallb (fun s => bool_decide (NoDup (dict.keys (snd s)))) (configparser._sections c)
  && negb (dict.mem configparser.default_section (configparser._sections c)).

(** The sample configuration in memory, and on disk the file with an
    option in its default section. *)
Definition merge_state : State :=
  set_conf (configparser.mkParser [] [("main", [("name", "y"); ("extra", "1")])])
           (set_fs (fs_with defaults_text) sample_state).

(** * Properties *)

(** ** The library model on examples *)

Example dirname_abs : posixpath.dirname "/etc/app/main.cfg" = "/etc/app".
Proof. reflexivity. Qed.
Example dirname_bare : posixpath.dirname "main.cfg" = "".
Proof. reflexivity. Qed.
Example dirname_root : posixpath.dirname "//main.cfg" = "//".
Proof. reflexivity. Qed.
Example basename_abs : posixpath.basename "/etc/app/main.cfg" = "main.cfg".
Proof. reflexivity. Qed.
Example join_rel : posixpath.join "/home/u" "main.cfg" = "/home/u/main.cfg".
Proof. reflexivity. Qed.
Example readlines_mixed :
  Py.readlines ("a" +:+ String Py.LF ("b" +:+ String Py.CR (String Py.LF
               (String Py.CR "c")))) = ["a"; "b"; ""; "c"].
Proof. reflexivity. Qed.
Example strip_both : Py.strip (String Py.TAB " k = v  ") = "k = v".
Proof. reflexivity. Qed.

(** Keys are lower-cased, values stripped, an indented line continues the
    value above it, comment lines are skipped, and the options of
    [[DEFAULT]] go to [_defaults]. *)
Example read_sample :
  configparser._read
    ("# settings" +:+ nl +:+ "[DEFAULT]" +:+ nl +:+ "Debug: 1" +:+ nl +:+
     "[main]" +:+ nl +:+ "name =  x " +:+ nl +:+ "   y" +:+ nl)
    configparser.empty
  = configparser.ReadOk
      (configparser.mkParser [("debug", "1")]
                             [("main", [("name", "x" +:+ nl +:+ "y")])]).
Proof. vm_compute. reflexivity. Qed.

Example read_no_header :
  configparser._read ("name = x" +:+ nl) configparser.empty
  = configparser.ReadAborted (MissingSectionHeaderError 1).
Proof. vm_compute. reflexivity. Qed.

Example read_duplicate_option :
  configparser._read ("[main]" +:+ nl +:+ "name = x" +:+ nl +:+ "NAME = y" +:+ nl)
                     configparser.empty
  = configparser.ReadAborted (DuplicateOptionError "main" "name" 3).
Proof. vm_compute. reflexivity. Qed.

Example read_bad_line :
  configparser._read ("[main]" +:+ nl +:+ "no delimiter" +:+ nl +:+ "name = x" +:+ nl)
                     configparser.empty
  = configparser.ReadParsingError (ParsingError [2])
      (configparser.mkParser [] [("main", [("name", "x")])]).
Proof. vm_compute. reflexivity. Qed.

Example write_sample :
  configparser.write sample_conf
  = "[main]" +:+ nl +:+ "name = x" +:+ nl +:+ "mode = fast" +:+ nl +:+ nl.
Proof. vm_compute. reflexivity. Qed.

(** The lines of a value after the first are written behind a TAB, an
    empty line as the TAB alone; read back, they are the value. *)
Example write_lines :
  configparser.write lines_conf
  = "[DEFAULT]" +:+ nl +:+ "debug = 1" +:+ nl +:+ nl +:+
    "[main]" +:+ nl +:+ "name = a" +:+ nl +:+ String Py.TAB nl +:+
    String Py.TAB ("b = c" +:+ nl) +:+ "[mode = fast" +:+ nl +:+ nl.
Proof. vm_compute. reflexivity. Qed.

Example read_lines_back :
  configparser._read (configparser.write lines_conf) configparser.empty
  = configparser.ReadOk lines_conf.
Proof. vm_compute. reflexivity. Qed.

Example normpath_samples :
  posixpath.normpath "" = "."
  /\ posixpath.normpath "/var//log/./app.log" = "/var/log/app.log"
  /\ posixpath.normpath "/var/log/../app.log" = "/var/app.log"
  /\ posixpath.normpath "//var/log/" = "//var/log"
  /\ posixpath.normpath "///var" = "/var"
  /\ posixpath.normpath "/.." = "/"
  /\ posixpath.normpath "../a/.." = "..".
Proof. repeat split; vm_compute; reflexivity. Qed.

(** What [os.path.abspath] makes of a log file name in the working
    directory [/home/user]: an empty name is the directory itself. *)
Example abspath_samples :
  abspath home_fs "" = "/home/user"
  /\ abspath home_fs "app.log" = "/home/user/app.log"
  /\ abspath home_fs "./app.log" = "/home/user/app.log"
  /\ abspath home_fs "logs/" = "/home/user/logs"
  /\ abspath home_fs "a/../app.log" = "/home/user/app.log"
  /\ abspath home_fs "/var/log/app.log" = "/var/log/app.log".
Proof. repeat split; vm_compute; reflexivity. Qed.

Example startup_empty_logfile :
  exists st', startup [OptLogfile ""] (initial home_fs)
              = Raise (IsADirectoryError "/home/user") st'.
Proof. eexists. vm_compute. reflexivity. Qed.

(** ** save_conf and reload_conf: the paths that do nothing *)

(** C5. While write-back is disabled, [save_conf] raises (RuntimeError is
    the exception the specification calls ConfigModeError) and the state,
    with its file system and the record of file-system calls, is the one
    it started from. *)
Theorem save_conf_disabled (st : State) :
  conf_rw st = false ->
  save_conf st = Raise (RuntimeError "You have to set conf_rw to True.") st.
Proof.
  intros Hrw. unfold save_conf, bind, gets. rewrite Hrw. reflexivity.
Qed.

Lemma save_conf_disabled_witness :
  save_conf (set_flags false true true sample_state)
  = Raise (RuntimeError "You have to set conf_rw to True.")
          (set_flags false true true sample_state).
Proof. apply save_conf_disabled. reflexivity. Defined.

(** C9. With write-back enabled and no [conffile] attribute, [save_conf]
    returns normally and leaves the whole state (configuration, file
    system, record of file-system calls) as it was. *)
Theorem save_conf_without_conffile (st : State) :
  conf_rw st = true ->
  conffile (pargs st) = Absent ->
  save_conf st = Ok tt st.
Proof.
  intros Hrw Hc. unfold save_conf, bind, gets. rewrite Hrw. simpl.
  rewrite Hc. reflexivity.
Qed.

Lemma save_conf_without_conffile_witness :
  save_conf (set_pargs bare_pargs sample_state)
  = Ok tt (set_pargs bare_pargs sample_state).
Proof. apply save_conf_without_conffile; reflexivity. Defined.

Lemma parse_args_conffile (argv : list Option_) (ns : Namespace) :
  conffile (fold_left
    (fun ns o =>
       match o with
       | OptInput v => mkNamespace (Attr (Some v)) (logfile ns) (verbose ns) (conffile ns)
       | OptLogfile v => mkNamespace (input ns) (Attr (Some v)) (verbose ns) (conffile ns)
       | OptVerbose => mkNamespace (input ns) (logfile ns) (verbose ns + 1)%Z (conffile ns)
       end) argv ns) = conffile ns.
Proof.
  revert ns. induction argv as [|o argv IH]; intros ns; [reflexivity|].
  simpl. rewrite IH. destruct o; reflexivity.
Qed.

(** ** What a statement leaves alone *)

Section Keeps.
Context (R : State -> State -> Prop) `{!PreOrder R}.

Lemma keeps_ret {A} (a : A) : keeps R (mret a).
Proof. intros st. simpl. reflexivity. Qed.

Lemma keeps_raise {A} (err : Exn) : keeps R (@raise A err).
Proof. intros st. simpl. reflexivity. Qed.

Lemma keeps_gets {A} (f : State -> A) : keeps R (gets f).
Proof. intros st. simpl. reflexivity. Qed.

Lemma keeps_bind {A B} (m : M A) (k : A -> M B) :
  keeps R m -> (forall a, keeps R (k a)) -> keeps R (bind m k).
Proof.
  intros Hm Hk st. unfold bind. specialize (Hm st).
  destruct (m st) as [a st1|err st1|err]; [|exact Hm|exact I].
  specialize (Hk a st1). destruct (k a st1); [| |exact I]; by etrans.
Qed.

Lemma keeps_mbind {A B} (m : M A) (k : A -> M B) :
  keeps R m -> (forall a, keeps R (k a)) -> keeps R (m ≫= k).
Proof. apply keeps_bind. Qed.

Lemma keeps_when (b : bool) (m : M unit) : keeps R m -> keeps R (when b m).
Proof. destruct b; [done|]. intros _. apply keeps_ret. Qed.

Lemma keeps_for {A} (l : list A) (body : A -> M unit) :
  (forall x, keeps R (body x)) -> keeps R (for_ l body).
Proof.
  intros Hb. induction l as [|x l IH]; simpl; [apply keeps_ret|].
  apply keeps_mbind; [apply Hb|intros _; apply IH].
Qed.

Lemma keeps_modify (f : State -> State) :
  (forall st, R st (f st)) -> keeps R (modify f).
Proof. intros Hf st. apply Hf. Qed.

End Keeps.

#[local] Instance same_but_logger_preorder : PreOrder same_but_logger.
Proof.
  split.
  - intros st. by repeat split.
  - intros a b c (?&?&?&?&?) (?&?&?&?&?). repeat split; congruence.
Qed.

Lemma keeps_on_logger f : keeps same_but_logger (on_logger f).
Proof. apply keeps_modify. intros st. by repeat split. Qed.

Lemma keeps_StreamHandler_stdout : keeps same_but_logger StreamHandler_stdout.
Proof. intros st. unfold StreamHandler_stdout. simpl. by repeat split. Qed.

Lemma keeps_FileHandler path : keeps same_but_logger (FileHandler path).
Proof.
  intros st. unfold FileHandler.
  destruct (os.open_a _ _); simpl; by repeat split.
Qed.

Lemma reconfigure_logger_keeps : keeps same_but_logger reconfigure_logger.
Proof.
  unfold reconfigure_logger.
  apply keeps_bind; [apply _|apply keeps_gets; apply _|intros hs].
  apply keeps_mbind; [apply _| |intros _].
  { apply keeps_for; [apply _|]. intros h.
    apply keeps_mbind; [apply _|apply keeps_on_logger|intros _; apply keeps_on_logger]. }
  apply keeps_bind; [apply _|apply keeps_StreamHandler_stdout|intros h].
  apply keeps_mbind; [apply _|apply keeps_on_logger|intros _].
  apply keeps_bind; [apply _|apply keeps_gets; apply _|intros pa].
  apply keeps_mbind; [apply _| |intros _; apply keeps_on_logger].
  destruct (logfile pa) as [|[path|]]; try (apply keeps_ret; apply _).
  apply keeps_bind; [apply _|apply keeps_FileHandler|intros h'; apply keeps_on_logger].
Qed.

(** After [startup], whatever the command line, [pargs] has no [conffile]. *)
Lemma startup_conffile (argv : list Option_) (st st' : State) :
  startup argv st = Ok tt st' -> conffile (pargs st') = Absent.
Proof.
  assert (Htail : forall (k : string -> State -> State) s,
    conffile (pargs s) = Absent ->
    match reconfigure_logger s with
    | Ok _ s1 =>
        match conffile (pargs s1) with
        | Absent => mret tt
        | Attr cf => when (negb (Py.nonempty (posixpath.dirname cf)))
                          (fun st0 => Ok tt (k cf st0))
        end s1
    | Raise err s1 => Raise err s1
    | RaiseInRead err => RaiseInRead err
    end = Ok tt st' -> conffile (pargs st') = Absent).
  { intros k s Hs. pose proof (reconfigure_logger_keeps s) as Hk.
    destruct (reconfigure_logger s) as [[] s1|err s1|err]; try discriminate.
    destruct Hk as (_&_&_&_&Hp). rewrite Hp, Hs. simpl.
    intros [= <-]. by rewrite Hp. }
  unfold startup, on_pargs, modify, gets, mbind, M_bind, bind. simpl.
  pose proof (parse_args_conffile argv (mkNamespace (Attr None) (Attr None) 0%Z Absent)) as Hc.
  fold (parse_args argv) in Hc. simpl in Hc.
  destruct (logfile (parse_args argv)) as [|[lf|]]; simpl.
  - apply (Htail (fun cf st0 => _)). exact Hc.
  - destruct (negb _); simpl; apply (Htail (fun cf st0 => _)); exact Hc.
  - apply (Htail (fun cf st0 => _)). exact Hc.
Qed.

(** C10. Without a [conffile] attribute [reload_conf] returns normally
    and leaves the whole state as it was: no check runs, no call into the
    file system is made, the configuration is untouched. The namespace the
    declared parser builds has no such attribute for any command line, so
    the [reload_conf] that ends the module body changes nothing: [main]
    ends exactly as [startup] does. *)
Theorem reload_conf_without_conffile
    (clear_load : bool) (argv : list Option_) (st : State) :
  (conffile (pargs st) = Absent -> reload_conf clear_load st = Ok tt st) /\
  conffile (parse_args argv) = Absent /\
  main argv st = startup argv st.
Proof.
  split; [|split].
  - intros Hc. unfold reload_conf, bind, gets. by rewrite Hc.
  - apply parse_args_conffile.
  - unfold main, mbind, M_bind, bind.
    destruct (startup argv st) as [[] st'|err st'|err] eqn:Hs; try done.
    apply startup_conffile in Hs.
    unfold reload_conf, bind, gets. by rewrite Hs.
Qed.

Lemma reload_conf_without_conffile_witness :
  reload_conf true (set_pargs bare_pargs sample_state)
  = Ok tt (set_pargs bare_pargs sample_state).
Proof.
  apply (proj1 (reload_conf_without_conffile true [] (set_pargs bare_pargs sample_state))).
  reflexivity.
Defined.

(** ** reload_conf: the checks of the configuration file *)

(** C4. When [os.access] denies reading the configured file,
    [reload_conf] raises the RuntimeError that names the file (the
    specification calls it ConfigAccessError). The access check is the one
    call it made; the configuration, the flags, the logger and the file
    system are as before. *)
Theorem reload_conf_unreadable (clear_load : bool) (st : State) (path : string) :
  conffile (pargs st) = Attr path ->
  os.access (fs st) path os.R_OK = false ->
  exists st',
    reload_conf clear_load st
    = Raise (RuntimeError ("can not access config file '" +:+ path +:+ "'")) st'
    /\ conf st' = conf st /\ fs st' = fs st /\ logger st' = logger st
    /\ trace st' = (trace st ++ [(CallAccess path os.R_OK, fs st)])%list.
Proof.
  intros Hc Ha. eexists. split.
  - unfold reload_conf, bind, gets, access. rewrite Hc. simpl. rewrite Ha. simpl.
    reflexivity.
  - by repeat split.
Qed.

Lemma reload_conf_unreadable_witness :
  exists st',
    reload_conf false (set_fs unreadable_fs sample_state)
    = Raise (RuntimeError "can not access config file '/etc/app/main.cfg'") st'
    /\ conf st' = conf (set_fs unreadable_fs sample_state)
    /\ fs st' = unreadable_fs
    /\ logger st' = logger (set_fs unreadable_fs sample_state)
    /\ trace st' = [(CallAccess sample_path os.R_OK, unreadable_fs)].
Proof.
  apply (reload_conf_unreadable false (set_fs unreadable_fs sample_state) sample_path);
    reflexivity.
Defined.

(** C3, as amended. The directory check belongs to the case where
    write-back is on and safe-save or backup is on, and it comes after the
    check that the file is readable. In that case an unwritable directory
    makes [reload_conf] raise the RuntimeError that names the directory,
    after two access checks and nothing else: nothing was opened, nothing
    parsed, the configuration is as before. *)
Theorem reload_conf_directory_not_writable
    (clear_load : bool) (st : State) (path : string) :
  conffile (pargs st) = Attr path ->
  os.access (fs st) path os.R_OK = true ->
  conf_rw st = true ->
  conf_rw_save st || conf_rw_backup st = true ->
  os.access (fs st) (posixpath.dirname path) os.W_OK = false ->
  exists st',
    reload_conf clear_load st
    = Raise (RuntimeError ("can not write to directory '" +:+
                           posixpath.dirname path +:+ "' to create files")) st'
    /\ conf st' = conf st /\ fs st' = fs st /\ logger st' = logger st
    /\ trace st' = (trace st ++ [(CallAccess path os.R_OK, fs st);
                                 (CallAccess (posixpath.dirname path) os.W_OK, fs st)])%list.
Proof.
  intros Hc Hr Hrw Hsb Hd. eexists. split.
  - unfold reload_conf, mbind, M_bind, bind, gets, access. rewrite Hc. simpl.
    rewrite Hr. simpl. rewrite Hrw. simpl. rewrite Hsb. simpl. rewrite Hd.
    reflexivity.
  - repeat split. simpl. by rewrite <- app_assoc.
Qed.

Lemma reload_conf_directory_not_writable_witness :
  exists st',
    reload_conf false (set_fs readonly_dir_fs sample_state)
    = Raise (RuntimeError "can not write to directory '/etc/app' to create files") st'
    /\ conf st' = conf (set_fs readonly_dir_fs sample_state)
    /\ fs st' = readonly_dir_fs
    /\ logger st' = logger (set_fs readonly_dir_fs sample_state)
    /\ trace st' = [(CallAccess sample_path os.R_OK, readonly_dir_fs);
                    (CallAccess "/etc/app" os.W_OK, readonly_dir_fs)].
Proof.
  apply (reload_conf_directory_not_writable false (set_fs readonly_dir_fs sample_state)
           sample_path); reflexivity.
Defined.

(** C3 as stated fails twice over. With write-back on but safe-save and
    backup both off, the directory is not looked at and the reload goes
    through; and with all three flags on, an unreadable file is reported
    before the directory is looked at. In both worlds write-back is on
    and the directory is not writable, and [reload_conf] does not raise
    the error about the directory. *)
Lemma reload_conf_directory_counterexample :
  (conf_rw (set_flags true false false (set_fs readonly_dir_fs sample_state)) = true
   /\ os.access readonly_dir_fs (posixpath.dirname sample_path) os.W_OK = false
   /\ (exists st',
        reload_conf false (set_flags true false false (set_fs readonly_dir_fs sample_state))
        = Ok tt st')
   /\ forall st',
        reload_conf false (set_flags true false false (set_fs readonly_dir_fs sample_state))
        <> Raise (RuntimeError "can not write to directory '/etc/app' to create files") st')
  /\
  (conf_rw (set_fs unreadable_fs sample_state) = true
   /\ os.access unreadable_fs (posixpath.dirname sample_path) os.W_OK = false
   /\ (exists st',
        reload_conf false (set_fs unreadable_fs sample_state)
        = Raise (RuntimeError "can not access config file '/etc/app/main.cfg'") st')
   /\ forall st',
        reload_conf false (set_fs unreadable_fs sample_state)
        <> Raise (RuntimeError "can not write to directory '/etc/app' to create files") st').
Proof.
  split; (split; [reflexivity|split; [reflexivity|split]]).
  - eexists. vm_compute. reflexivity.
  - intros st' H. vm_compute in H. discriminate.
  - eexists. vm_compute. reflexivity.
  - intros st' H. vm_compute in H. discriminate.
Qed.

(** ** reconfigure_logger *)

Lemma set_node_cwd path n fs0 : os.cwd (os.set_node path n fs0) = os.cwd fs0.
Proof. reflexivity. Qed.

Lemma lookup_set_node_eq path n fs0 :
  Py.nonempty path = true -> os.lookup_node (os.set_node path n fs0) path = Some n.
Proof.
  intros Hp. unfold os.lookup_node, os.set_node. rewrite Hp. simpl.
  apply lookup_insert_eq.
Qed.

Lemma lookup_set_node_ne path path' n fs0 :
  path <> path' ->
  os.lookup_node (os.set_node path n fs0) path' = os.lookup_node fs0 path'.
Proof.
  intros Hne. unfold os.lookup_node, os.set_node. simpl.
  destruct (Py.nonempty path'); [|done]. by apply lookup_insert_ne.
Qed.

Lemma lookup_node_nonempty fs0 path n :
  os.lookup_node fs0 path = Some n -> Py.nonempty path = true.
Proof. unfold os.lookup_node. by destruct (Py.nonempty path). Qed.

Lemma check_entry_nonempty fs0 path :
  os.check_entry fs0 path = None -> Py.nonempty path = true.
Proof. unfold os.check_entry. by destruct (Py.nonempty path). Qed.

(** Opening for output succeeds a second time, on the file system the
    first opening left. *)
Lemma open_out_again keep fs0 path fs1 :
  os.open_out keep fs0 path = inr fs1 ->
  os.cwd fs1 = os.cwd fs0 /\ exists fs2, os.open_out keep fs1 path = inr fs2.
Proof.
  unfold os.open_out.
  destruct (os.lookup_node fs0 path) as [[data r w|r w]|] eqn:Hl; try discriminate.
  - destruct w; [|discriminate]. intros [= <-]. split; [done|].
    rewrite lookup_set_node_eq by (by eapply lookup_node_nonempty). eauto.
  - destruct (os.check_entry fs0 path) eqn:Hc; [discriminate|]. intros [= <-].
    split; [done|].
    rewrite lookup_set_node_eq by (by eapply check_entry_nonempty). eauto.
Qed.

Lemma mbind_Ok {A B} (m : M A) (k : A -> M B) (st : State) a st1 :
  m st = Ok a st1 -> (m ≫= k) st = k a st1.
Proof. intros H. unfold mbind, M_bind, bind. by rewrite H. Qed.

Lemma bind_Ok {A B} (m : M A) (k : A -> M B) (st : State) a st1 :
  m st = Ok a st1 -> bind m k st = k a st1.
Proof. intros H. unfold bind. by rewrite H. Qed.

Lemma set_logger_twice l1 l2 st : set_logger l2 (set_logger l1 st) = set_logger l2 st.
Proof. reflexivity. Qed.

(** The loop that clears the handlers: every handler of the list is
    closed and the list ends up empty. *)
Lemma clear_handlers (hs : list logging.Handler) (st : State) :
  logging.handlers (logger st) = hs ->
  for_ hs (fun lhandler =>
    on_logger (logging.close lhandler);;
    on_logger (logging.removeHandler lhandler)) st
  = Ok tt (set_logger
             (logging.mkLogger [] (logging.level (logger st))
                (rev (map logging.hid hs) ++ logging.closed (logger st))
                (logging.next_hid (logger st)) (logging.records (logger st))
                (logging.events (logger st) ++ close_events hs)) st).
Proof.
  set (body := fun lhandler => _).
  revert st. induction hs as [|h hs IH]; intros st Hh.
  - simpl. unfold mret, M_ret, ret, set_logger. f_equal.
    destruct st as [? ? ? ? lg ? ? ?]. simpl in *. destruct lg. simpl in *.
    subst. by rewrite app_nil_r.
  - cbn [for_].
    assert (Hb : body h st = Ok tt (set_logger
               (logging.mkLogger hs (logging.level (logger st))
                  (logging.hid h :: logging.closed (logger st))
                  (logging.next_hid (logger st)) (logging.records (logger st))
                  (logging.events (logger st)
                   ++ [logging.Closed (logging.hid h); logging.Removed (logging.hid h)]))
               st)).
    { unfold body, mbind, M_bind, bind, on_logger, modify. simpl.
      unfold logging.removeHandler. simpl. rewrite Hh.
      rewrite bool_decide_eq_true_2 by apply list_elem_of_here. simpl.
      rewrite bool_decide_eq_true_2 by done. by rewrite <- app_assoc. }
    rewrite (mbind_Ok _ _ _ _ _ Hb). rewrite IH by reflexivity.
    simpl. rewrite set_logger_twice. do 2 f_equal.
    f_equal; by rewrite <- app_assoc.
Qed.

Lemma addHandler_new (h : logging.Handler) (lg : logging.Logger) :
  logging.hid h ∉ map logging.hid (logging.handlers lg) ->
  logging.addHandler h lg
  = logging.mkLogger (logging.handlers lg ++ [h]) (logging.level lg)
      (logging.closed lg) (logging.next_hid lg) (logging.records lg)
      (logging.events lg ++ [logging.Added (logging.hid h)]).
Proof.
  intros Hh. unfold logging.addHandler.
  rewrite bool_decide_eq_false_2; [done|].
  intros Hin. apply Hh. by apply (list_elem_of_fmap_2 logging.hid).
Qed.

(** The order of the calls on the handler list in one call that returns:
    first each handler that was attached is closed and taken off, then
    the handlers that end up attached are put on, and nothing else. *)
Lemma reconfigure_logger_events (st st' : State) :
  reconfigure_logger st = Ok tt st' ->
  logging.events (logger st')
  = (logging.events (logger st)
     ++ close_events (logging.handlers (logger st))
     ++ attach_events (logging.handlers (logger st')))%list.
Proof.
  unfold reconfigure_logger.
  erewrite bind_Ok by reflexivity.
  erewrite mbind_Ok by (by apply clear_handlers).
  erewrite bind_Ok by reflexivity.
  erewrite mbind_Ok by reflexivity.
  erewrite bind_Ok by reflexivity.
  cbn [pargs set_logger logger logging.new_handler fst snd].
  rewrite addHandler_new by (simpl; apply not_elem_of_nil).
  destruct (logfile (pargs st)) as [|[path|]].
  - erewrite mbind_Ok by reflexivity. intros [= <-]. simpl.
    by rewrite <- app_assoc.
  - unfold mbind at 1, M_bind at 1, bind at 1.
    unfold bind at 1, FileHandler. cbn [fs set_logger logger].
    destruct (os.open_a _ _); [done|].
    cbn [logger sys set_logger logging.new_handler logging.next_hid fst snd].
    unfold on_logger, modify. cbn [logger set_logger].
    rewrite addHandler_new
      by (simpl; intros Hin; apply list_elem_of_singleton in Hin; lia).
    intros [= <-]. simpl. by rewrite <- !app_assoc.
  - erewrite mbind_Ok by reflexivity. intros [= <-]. simpl.
    by rewrite <- app_assoc.
Qed.

(** One call: the handlers attached before are closed, and the list is
    rebuilt from new handler objects, one for the console and one for the
    log file if there is one. *)
Lemma reconfigure_logger_once (st : State) :
  log_openable st ->
  exists st',
    reconfigure_logger st = Ok tt st'
    /\ map logging.stream (logging.handlers (logger st'))
       = logging.Stdout :: file_streams st
    /\ (forall h, h ∈ logging.handlers (logger st) ->
                  logging.hid h ∈ logging.closed (logger st'))
    /\ (forall i, i ∈ logging.closed (logger st) -> i ∈ logging.closed (logger st'))
    /\ (forall h, h ∈ logging.handlers (logger st') ->
                  logging.next_hid (logger st) <= logging.hid h)
    /\ logging.next_hid (logger st) <= logging.next_hid (logger st')
    /\ pargs st' = pargs st /\ os.cwd (fs st') = os.cwd (fs st)
    /\ log_openable st'.
Proof.
  intros Hopen. unfold reconfigure_logger.
  erewrite bind_Ok by reflexivity.
  erewrite mbind_Ok by (by apply clear_handlers).
  erewrite bind_Ok by reflexivity.
  erewrite mbind_Ok by reflexivity.
  erewrite bind_Ok by reflexivity.
  unfold log_openable, file_streams in *. simpl.
  rewrite addHandler_new by (simpl; apply not_elem_of_nil).
  assert (Hcl : forall h, h ∈ logging.handlers (logger st) ->
     logging.hid h ∈ (rev (map logging.hid (logging.handlers (logger st)))
                       ++ logging.closed (logger st))%list).
  { intros h Hh. apply elem_of_app. left.
    apply list_elem_of_In, in_rev. rewrite rev_involutive.
    apply list_elem_of_In. by apply (list_elem_of_fmap_2 logging.hid). }
  destruct (logfile (pargs st)) as [|[path|]] eqn:Hlf.
  - eexists. split; [reflexivity|]. simpl.
    repeat split; try done; try lia.
    + intros i Hi. apply elem_of_app. by right.
    + intros h Hh. apply list_elem_of_singleton in Hh. subst. simpl. lia.
    + by rewrite Hlf.
  - destruct Hopen as [fs' Hfs'].
    unfold FileHandler, mbind, M_bind, bind, abspath in *. simpl. rewrite Hfs'. simpl.
    destruct (open_out_again _ _ _ _ Hfs') as [Hcwd [fs2 Hfs2]].
    rewrite addHandler_new
      by (simpl; intros Hin; apply list_elem_of_singleton in Hin; lia).
    eexists. split; [reflexivity|]. simpl. rewrite Hlf.
    repeat split; try done; try lia.
    + intros i Hi. apply elem_of_app. by right.
    + intros h Hh. apply elem_of_cons in Hh as [->|Hh]; [simpl; lia|].
      apply list_elem_of_singleton in Hh. subst. simpl. lia.
    + rewrite Hcwd. eauto.
  - eexists. split; [reflexivity|]. simpl.
    repeat split; try done; try lia.
    + intros i Hi. apply elem_of_app. by right.
    + intros h Hh. apply list_elem_of_singleton in Hh. subst. simpl. lia.
    + by rewrite Hlf.
Qed.

Lemma times_add (a b : nat) (m : M unit) (st : State) :
  times (a + b) m st = (times a m;; times b m) st.
Proof.
  revert st. induction a as [|a IH]; intros st; [reflexivity|].
  simpl. unfold mbind, M_bind, bind in *.
  destruct (m st) as [[] st1|err st1|err]; [|done|done].
  apply IH.
Qed.

(** Calls in a row keep the log file openable. *)
Lemma reconfigure_logger_times_openable (k : nat) (st st_k : State) :
  log_openable st ->
  times k reconfigure_logger st = Ok tt st_k ->
  log_openable st_k.
Proof.
  revert st. induction k as [|k IH]; intros st Hopen.
  - by intros [= <-].
  - simpl. destruct (reconfigure_logger_once st Hopen) as (st1 & Hst1 & H).
    rewrite (mbind_Ok _ _ _ _ _ Hst1). apply IH. apply H.
Qed.

Lemma reconfigure_logger_times (n : nat) (st : State) :
  log_openable st ->
  exists st',
    times (S n) reconfigure_logger st = Ok tt st'
    /\ map logging.stream (logging.handlers (logger st'))
       = logging.Stdout :: file_streams st
    /\ (forall h, h ∈ logging.handlers (logger st) ->
                  logging.hid h ∈ logging.closed (logger st'))
    /\ (forall i, i ∈ logging.closed (logger st) -> i ∈ logging.closed (logger st'))
    /\ (forall h, h ∈ logging.handlers (logger st') ->
                  logging.next_hid (logger st) <= logging.hid h)
    /\ logging.next_hid (logger st) <= logging.next_hid (logger st').
Proof.
  revert st. induction n as [|n IH]; intros st Hopen.
  - destruct (reconfigure_logger_once st Hopen)
      as (st1 & Hst1 & Hs & Hc & Hm & Hn & Hle & _).
    exists st1. simpl. rewrite (mbind_Ok _ _ _ _ _ Hst1). done.
  - destruct (reconfigure_logger_once st Hopen)
      as (st1 & Hst1 & Hs & Hc & Hm & Hn & Hle & Hp & Hcwd & Hopen1).
    destruct (IH st1 Hopen1) as (st' & Hst' & Hs' & Hc' & Hm' & Hn' & Hle').
    exists st'. change (times (S (S n)) reconfigure_logger st)
      with ((reconfigure_logger;; times (S n) reconfigure_logger) st).
    rewrite (mbind_Ok _ _ _ _ _ Hst1). split; [done|].
    repeat split.
    + rewrite Hs'. unfold file_streams, abspath. by rewrite Hp, Hcwd.
    + intros h Hh. apply Hm', Hc, Hh.
    + intros i Hi. apply Hm', Hm, Hi.
    + intros h Hh. specialize (Hn' h Hh). lia.
    + lia.
Qed.

(** The streams the arguments ask for are the same after any number of
    calls. *)
Lemma times_file_streams (k : nat) (st st_k : State) :
  log_openable st ->
  times k reconfigure_logger st = Ok tt st_k ->
  file_streams st_k = file_streams st.
Proof.
  revert st. induction k as [|k IH]; intros st Hopen.
  - by intros [= <-].
  - simpl. destruct (reconfigure_logger_once st Hopen)
      as (st1 & Hst1 & _ & _ & _ & _ & _ & Hp & Hcwd & Hopen1).
    rewrite (mbind_Ok _ _ _ _ _ Hst1). intros Hrun.
    rewrite (IH st1 Hopen1 Hrun). unfold file_streams, abspath.
    by rewrite Hp, Hcwd.
Qed.

(** C8. When the log file (if one is asked for) can be opened, [N >= 1]
    calls in a row all return, and the handlers attached at the end are
    one on the console followed, exactly when [pargs.logfile] holds a
    path, by one on that file: as after a single call. Every handler that
    was attached before the calls, or after any [k < N] of them, has been
    closed, and none of them is among the attached ones, which are objects
    created later than all of those. In each of the calls, the one after
    any [k < N] of them, the handlers that were attached are closed and
    taken off the logger, one after the other, before the first new one
    is put on: what the call does to the handler list is these closings
    and removals, followed by the attaching of the handlers it leaves,
    which are new objects on the console and the log file. *)
Theorem reconfigure_logger_idempotent (N : nat) (st : State) :
  1 <= N ->
  log_openable st ->
  exists st',
    times N reconfigure_logger st = Ok tt st'
    /\ map logging.stream (logging.handlers (logger st'))
       = logging.Stdout :: file_streams st
    /\ forall k st_k,
         k < N ->
         times k reconfigure_logger st = Ok tt st_k ->
         (forall h, h ∈ logging.handlers (logger st_k) ->
                    logging.hid h ∈ logging.closed (logger st'))
         /\ (forall h, h ∈ logging.handlers (logger st') ->
                       logging.next_hid (logger st_k) <= logging.hid h)
         /\ exists st_k1,
              reconfigure_logger st_k = Ok tt st_k1
              /\ logging.events (logger st_k1)
                 = (logging.events (logger st_k)
                    ++ close_events (logging.handlers (logger st_k))
                    ++ attach_events (logging.handlers (logger st_k1)))%list
              /\ map logging.stream (logging.handlers (logger st_k1))
                 = logging.Stdout :: file_streams st
              /\ (forall h, h ∈ logging.handlers (logger st_k1) ->
                            logging.next_hid (logger st_k) <= logging.hid h).
Proof.
  intros HN Hopen. destruct N as [|n]; [lia|].
  destruct (reconfigure_logger_times n st Hopen) as (st' & Hst' & Hs & _).
  exists st'. split; [done|]. split; [done|].
  intros k st_k Hk Hst_k.
  pose proof (reconfigure_logger_times_openable k st st_k Hopen Hst_k) as Hopen_k.
  destruct (reconfigure_logger_times (n - k) st_k Hopen_k)
    as (st'' & Hst'' & _ & Hc & _ & Hn & _).
  assert (st'' = st') as ->.
  { replace (S n) with (k + S (n - k)) in Hst' by lia.
    rewrite times_add, (mbind_Ok _ _ _ _ _ Hst_k) in Hst'. congruence. }
  split; [done|]. split; [done|].
  destruct (reconfigure_logger_once st_k Hopen_k)
    as (st_k1 & Hst_k1 & Hs1 & _ & _ & Hn1 & _).
  exists st_k1. split; [done|].
  split; [by apply reconfigure_logger_events|].
  split; [|done].
  rewrite Hs1. f_equal. by eapply times_file_streams.
Qed.

Lemma reconfigure_logger_idempotent_witness :
  exists st',
    times 3 reconfigure_logger logging_state = Ok tt st'
    /\ map logging.stream (logging.handlers (logger st'))
       = logging.Stdout :: file_streams logging_state
    /\ forall k st_k,
         k < 3 ->
         times k reconfigure_logger logging_state = Ok tt st_k ->
         (forall h, h ∈ logging.handlers (logger st_k) ->
                    logging.hid h ∈ logging.closed (logger st'))
         /\ (forall h, h ∈ logging.handlers (logger st') ->
                       logging.next_hid (logger st_k) <= logging.hid h)
         /\ exists st_k1,
              reconfigure_logger st_k = Ok tt st_k1
              /\ logging.events (logger st_k1)
                 = (logging.events (logger st_k)
                    ++ close_events (logging.handlers (logger st_k))
                    ++ attach_events (logging.handlers (logger st_k1)))%list
              /\ map logging.stream (logging.handlers (logger st_k1))
                 = logging.Stdout :: file_streams logging_state
              /\ (forall h, h ∈ logging.handlers (logger st_k1) ->
                            logging.next_hid (logger st_k) <= logging.hid h).
Proof.
  apply (reconfigure_logger_idempotent 3 logging_state); [lia|].
  exists (os.set_node "/var/log/app.log" (os.RegFile "" true true) logging_fs).
  reflexivity.
Defined.

(** C8 as stated fails for arguments whose log file cannot be opened.
    The arguments name a log file in a directory that does not exist;
    however often [reconfigure_logger] is called, the first call raises
    the error of [open] after it has attached the console handler, and
    the logger is left with that handler alone, not with the console and
    the file handler the arguments ask for. *)
Lemma reconfigure_logger_idempotent_counterexample :
  logfile (pargs bad_logfile_state) = Attr (Some "/nowhere/app.log")
  /\ file_streams bad_logfile_state = [logging.FileStream "/nowhere/app.log"]
  /\ forall N, 1 <= N ->
       exists st',
         times N reconfigure_logger bad_logfile_state
         = Raise (FileNotFoundError "/nowhere/app.log") st'
         /\ map logging.stream (logging.handlers (logger st')) = [logging.Stdout].
Proof.
  split; [reflexivity|]. split; [reflexivity|].
  intros [|n] HN; [lia|]. cbn [times]. unfold mbind, M_bind, bind.
  destruct (reconfigure_logger bad_logfile_state) as [[] st1|err st1|err] eqn:Hrun;
    vm_compute in Hrun; try discriminate.
  injection Hrun as <- <-. eexists. split; reflexivity.
Qed.

(** ** Paths and file-system facts used by save_conf *)

Lemma app_ne_self (p s : string) : s <> "" -> p +:+ s <> p.
Proof.
  intros Hs. induction p as [|c p IH]; simpl; [done|].
  intros [= H]. by apply IH.
Qed.

Lemma app_suffix_ne (p s1 s2 : string) : s1 <> s2 -> p +:+ s1 <> p +:+ s2.
Proof.
  intros Hs. induction p as [|c p IH]; simpl; [done|].
  intros [= H]. by apply IH.
Qed.

Lemma nonempty_app (p s : string) :
  Py.nonempty s = true -> Py.nonempty (p +:+ s) = true.
Proof. by destruct p, s. Qed.

Lemma head_with_sep_app (p s : string) :
  posixpath.head_with_sep s = "" ->
  posixpath.head_with_sep (p +:+ s) = posixpath.head_with_sep p.
Proof.
  intros Hs. induction p as [|c p IH]; simpl; [done|]. by rewrite IH.
Qed.

(** A suffix without a separator names a sibling: same directory. *)
Lemma parent_app (fs0 : os.FileSystem) (p s : string) :
  posixpath.head_with_sep s = "" ->
  os.parent fs0 (p +:+ s) = os.parent fs0 p.
Proof.
  intros Hs. unfold os.parent, posixpath.dirname. by rewrite head_with_sep_app.
Qed.

Lemma lookup_del_node_eq path fs0 : os.lookup_node (os.del_node path fs0) path = None.
Proof.
  unfold os.lookup_node, os.del_node. simpl.
  destruct (Py.nonempty path); [|done]. apply lookup_delete_eq.
Qed.

Lemma lookup_del_node_ne path path' fs0 :
  path <> path' ->
  os.lookup_node (os.del_node path fs0) path' = os.lookup_node fs0 path'.
Proof.
  intros Hne. unfold os.lookup_node, os.del_node. simpl.
  destruct (Py.nonempty path'); [|done]. by apply lookup_delete_ne.
Qed.

Lemma parent_set_node (fs0 : os.FileSystem) (k : string) (n : os.Node) (q : string) :
  os.parent (os.set_node k n fs0) q = os.parent fs0 q.
Proof. reflexivity. Qed.

Lemma check_entry_set_node (fs0 : os.FileSystem) (k : string) (n : os.Node) (q : string) :
  os.parent fs0 q <> k ->
  os.check_entry (os.set_node k n fs0) q = os.check_entry fs0 q.
Proof.
  intros Hk. unfold os.check_entry.
  change (os.parent (os.set_node k n fs0) q) with (os.parent fs0 q).
  by rewrite lookup_set_node_ne.
Qed.

Lemma check_entry_del_node (fs0 : os.FileSystem) (k q : string) :
  os.parent fs0 q <> k ->
  os.check_entry (os.del_node k fs0) q = os.check_entry fs0 q.
Proof.
  intros Hk. unfold os.check_entry.
  change (os.parent (os.del_node k fs0) q) with (os.parent fs0 q).
  by rewrite lookup_del_node_ne.
Qed.

(** The directory of an entry that may be created is a directory node. *)
Lemma check_entry_parent (fs0 : os.FileSystem) (q : string) :
  os.check_entry fs0 q = None ->
  exists r, os.lookup_node fs0 (os.parent fs0 q) = Some (os.Directory r true).
Proof.
  unfold os.check_entry. destruct (Py.nonempty q); [|done].
  destruct (os.lookup_node fs0 (os.parent fs0 q)) as [[? ? ?|r []]|]; try done.
  eauto.
Qed.

(** What [open(path, "w")] does where it is allowed. *)
Lemma open_w_allowed (fs0 : os.FileSystem) (q : string) :
  os.can_open_w fs0 q = true ->
  os.check_entry fs0 q = None ->
  exists r w, os.open_w fs0 q = inr (os.set_node q (os.RegFile "" r w) fs0)
              /\ mode_after_open fs0 q = (r, w).
Proof.
  unfold os.can_open_w, os.open_w, os.open_out, mode_after_open. intros Hq Hc.
  destruct (os.lookup_node fs0 q) as [[d r w|r w]|]; try done.
  - subst w. eauto.
  - rewrite Hc. eauto.
Qed.

(** An entry [open(path, "w")] accepts is not the directory of a sibling. *)
Lemma can_open_w_not_parent (fs0 : os.FileSystem) (q q' : string) :
  os.can_open_w fs0 q = true ->
  os.check_entry fs0 q' = None ->
  os.parent fs0 q' <> q.
Proof.
  intros Hq Hc Heq. apply check_entry_parent in Hc as [r Hr].
  rewrite Heq in Hr. unfold os.can_open_w in Hq. by rewrite Hr in Hq.
Qed.

(** Writing to a file that has just been opened with mode "w". *)
Lemma write_set_node (fs0 : os.FileSystem) (q text : string) (r w : bool) :
  Py.nonempty q = true ->
  os.write (os.set_node q (os.RegFile "" r w) fs0) q text
  = os.set_node q (os.RegFile text r w) (os.set_node q (os.RegFile "" r w) fs0).
Proof. intros Hq. unfold os.write. by rewrite lookup_set_node_eq. Qed.

Lemma check_entry_ext (fs0 fs1 : os.FileSystem) (q : string) :
  os.cwd fs1 = os.cwd fs0 ->
  os.lookup_node fs1 (os.parent fs0 q) = os.lookup_node fs0 (os.parent fs0 q) ->
  os.check_entry fs1 q = os.check_entry fs0 q.
Proof.
  intros Hcwd Hl. unfold os.check_entry.
  replace (os.parent fs1 q) with (os.parent fs0 q)
    by (unfold os.parent; by rewrite Hcwd).
  by rewrite Hl.
Qed.

(** *** Which entries a call can change *)

Lemma open_out_only keep (fs0 fs1 : os.FileSystem) (q : string) :
  os.open_out keep fs0 q = inr fs1 ->
  forall q', q' <> q -> os.lookup_node fs1 q' = os.lookup_node fs0 q'.
Proof.
  unfold os.open_out.
  destruct (os.lookup_node fs0 q) as [[d r w|r w]|]; try done.
  - destruct w; [|done]. intros [= <-] q' Hq'. by apply lookup_set_node_ne.
  - destruct (os.check_entry fs0 q); [done|].
    intros [= <-] q' Hq'. by apply lookup_set_node_ne.
Qed.

(** The backup step where it is allowed: the copy holds the text and the
    mode of the original, and nothing else has changed. *)
Lemma backup_copy (fs0 fs_o : os.FileSystem) (path data : string) (w : bool) :
  os.lookup_node fs0 path = Some (os.RegFile data true w) ->
  os.open_w fs0 (path +:+ ".bak") = inr fs_o ->
  exists fs1,
    shutil.copy fs0 path (path +:+ ".bak") = inr fs1
    /\ os.cwd fs1 = os.cwd fs0
    /\ os.lookup_node fs1 (path +:+ ".bak") = Some (os.RegFile data true w)
    /\ forall q, q <> path +:+ ".bak" -> os.lookup_node fs1 q = os.lookup_node fs0 q.
Proof.
  intros Hp Ho.
  unfold shutil.copy, os.isdir.
  assert (Hnd : match os.lookup_node fs0 (path +:+ ".bak") with
                | Some (os.Directory _ _) => true | _ => false end = false).
  { unfold os.open_w, os.open_out in Ho.
    by destruct (os.lookup_node fs0 (path +:+ ".bak")) as [[]|]. }
  rewrite Hnd. unfold os.copyfile_mode.
  rewrite (bool_decide_eq_false_2 (path = path +:+ ".bak"))
    by (intros Heq; by apply (app_ne_self path ".bak")).
  simpl. rewrite Hp, Ho. eexists. split; [reflexivity|].
  assert (Hcwd : os.cwd fs_o = os.cwd fs0) by (by apply open_out_again in Ho as [? _]).
  split; [done|]. split.
  - apply lookup_set_node_eq. apply nonempty_app. reflexivity.
  - intros q Hq. rewrite lookup_set_node_ne by done.
    by apply (open_out_only _ _ _ _ Ho).
Qed.

(** The safe-save steps of [save_conf], from a state where they are
    allowed: the text goes to the [.new] file, which is then renamed. *)
Lemma safe_save_steps (st1 : State) (path : string) :
  os.check_entry (fs st1) path = None ->
  os.isdir (fs st1) path = false ->
  os.can_open_w (fs st1) (path +:+ ".new") = true ->
  exists st' fs_open fs_written r w,
    (let* fh := open_w (path +:+ ".new") in
     conf_write fh;; move (path +:+ ".new") path) st1 = Ok tt st'
    /\ trace st' = (trace st1 ++
         [(CallOpenW (path +:+ ".new"), fs st1);
          (CallWrite (path +:+ ".new") (configparser.write (conf st1)), fs_open);
          (CallMove (path +:+ ".new") path, fs_written)])%list
    /\ os.lookup_node fs_open path = os.lookup_node (fs st1) path
    /\ os.lookup_node fs_open (path +:+ ".new") = Some (os.RegFile "" r w)
    /\ os.lookup_node fs_written path = os.lookup_node (fs st1) path
    /\ os.lookup_node fs_written (path +:+ ".new")
       = Some (os.RegFile (configparser.write (conf st1)) r w)
    /\ os.lookup_node (fs st') (path +:+ ".new") = None
    /\ os.lookup_node (fs st') path
       = Some (os.RegFile (configparser.write (conf st1)) r w)
    /\ (forall q, q <> path -> q <> path +:+ ".new" ->
                  os.lookup_node (fs st') q = os.lookup_node (fs st1) q)
    /\ same_but_fs st1 st'
    /\ mode_after_open (fs st1) (path +:+ ".new") = (r, w).
Proof.
  intros Hc Hnd Hnew.
  set (new := path +:+ ".new") in *.
  assert (Hne : new <> path) by (by apply app_ne_self).
  assert (Hnn : Py.nonempty new = true) by (apply nonempty_app; reflexivity).
  assert (Hpn : os.parent (fs st1) new = os.parent (fs st1) path)
    by (by apply parent_app).
  assert (Hcn : os.check_entry (fs st1) new = None).
  { unfold os.check_entry in *. rewrite Hpn, Hnn. destruct (Py.nonempty path); [|done].
    by destruct (os.lookup_node (fs st1) (os.parent (fs st1) path)) as [[? ? ?|? []]|]. }
  assert (Hpar : os.parent (fs st1) path <> new)
    by (by apply (can_open_w_not_parent _ _ _ Hnew)).
  assert (Hpar' : os.parent (fs st1) path <> path).
  { intros Heq. apply check_entry_parent in Hc as [r Hr]. rewrite Heq in Hr.
    unfold os.isdir in Hnd. by rewrite Hr in Hnd. }
  destruct (open_w_allowed _ _ Hnew Hcn) as (r & w & Ho & Hmode).
  set (text := configparser.write (conf st1)).
  set (fs2 := os.set_node new (os.RegFile "" r w) (fs st1)).
  set (fs3 := os.set_node new (os.RegFile text r w) fs2).
  assert (Hl3n : os.lookup_node fs3 new = Some (os.RegFile text r w))
    by (unfold fs3; by apply lookup_set_node_eq).
  assert (Hl3p : os.lookup_node fs3 path = os.lookup_node (fs st1) path)
    by (unfold fs3, fs2; by rewrite !lookup_set_node_ne).
  assert (Hc3n : os.check_entry fs3 new = None)
    by (unfold fs3, fs2;
        rewrite !check_entry_set_node by (by rewrite ?parent_set_node, Hpn); done).
  assert (Hc3p : os.check_entry fs3 path = None)
    by (unfold fs3, fs2;
        rewrite !check_entry_set_node by (by rewrite ?parent_set_node); done).
  assert (Hmove : shutil.move fs3 new path
                  = inr (os.set_node path (os.RegFile text r w) (os.del_node new fs3))).
  { unfold shutil.move, shutil.rename, os.isdir. rewrite Hl3n, Hl3p.
    unfold os.isdir in Hnd.
    destruct (os.lookup_node (fs st1) path) as [[d r0 w0|? ?]|] eqn:Hp; try done.
    - simpl. by rewrite ?Hl3n, ?Hc3n, ?Hc3p, ?Hl3p, ?Hp.
    - simpl. by rewrite ?Hl3n, ?Hc3n, ?Hc3p, ?Hl3p, ?Hp. }
  eexists _, fs2, fs3, r, w. split.
  { unfold open_w. erewrite bind_Ok by (by rewrite Ho).
    unfold conf_write. erewrite mbind_Ok; cycle 1.
    { erewrite bind_Ok by reflexivity. unfold fh_write. simpl.
      rewrite (write_set_node _ _ _ _ _ Hnn). reflexivity. }
    unfold move. simpl. unfold fs3, fs2, text in Hmove. rewrite Hmove. reflexivity. }
  simpl. repeat split.
  - by rewrite <- !app_assoc.
  - unfold fs2. by rewrite lookup_set_node_ne.
  - unfold fs2. by rewrite lookup_set_node_eq.
  - done.
  - done.
  - rewrite lookup_set_node_ne by done. apply lookup_del_node_eq.
  - rewrite lookup_set_node_eq; [done|]. by eapply check_entry_nonempty.
  - intros q Hq1 Hq2. rewrite lookup_set_node_ne by done.
    rewrite lookup_del_node_ne by done.
    by rewrite !lookup_set_node_ne.
  - done.
Qed.

(** ** save_conf: safe save and backup *)

(** C1, as amended. With write-back and safe-save on, a configured path
    and a file system that allows the steps (the directory of the file
    takes new entries, the path is not a directory, the [.new] and, for
    a backup, the [.bak] entry can be written, the file can be read for
    the backup), [save_conf] returns and its last three calls into the
    file system are: open [path.new] for writing, write the serialised
    configuration to it, move it over [path]. On the file systems the
    write and the move were made on (where an interruption before the
    rename leaves things) [path] is as it was before [save_conf] and
    [path.new] is there, empty before the write and with the new text
    before the move; after the move [path.new] is gone and [path] holds
    the new text. *)
Theorem save_conf_safe_save (st : State) (path : string) :
  conf_rw st = true ->
  conf_rw_save st = true ->
  conffile (pargs st) = Attr path ->
  os.check_entry (fs st) path = None ->
  os.isdir (fs st) path = false ->
  os.can_open_w (fs st) (path +:+ ".new") = true ->
  (conf_rw_backup st = true ->
     os.access (fs st) path os.R_OK = true
     /\ os.can_open_w (fs st) (path +:+ ".bak") = true) ->
  exists st' pre fs_found fs_open fs_written r w,
    save_conf st = Ok tt st'
    /\ trace st' = (pre ++
         [(CallOpenW (path +:+ ".new"), fs_found);
          (CallWrite (path +:+ ".new") (configparser.write (conf st)), fs_open);
          (CallMove (path +:+ ".new") path, fs_written)])%list
    /\ os.lookup_node fs_open path = os.lookup_node (fs st) path
    /\ os.lookup_node fs_open (path +:+ ".new") = Some (os.RegFile "" r w)
    /\ os.lookup_node fs_written path = os.lookup_node (fs st) path
    /\ os.lookup_node fs_written (path +:+ ".new")
       = Some (os.RegFile (configparser.write (conf st)) r w)
    /\ os.lookup_node (fs st') (path +:+ ".new") = None
    /\ os.lookup_node (fs st') path
       = Some (os.RegFile (configparser.write (conf st)) r w).
Proof.
  intros Hrw Hs Hc Hdir Hnd Hnew Hbak.
  unfold save_conf.
  erewrite bind_Ok by reflexivity. rewrite Hrw. simpl.
  erewrite bind_Ok by reflexivity. rewrite Hc.
  erewrite bind_Ok by reflexivity.
  destruct (conf_rw_backup st) eqn:Hb; unfold when.
  - destruct (Hbak eq_refl) as [Hr Hcb]. clear Hbak.
    assert (exists data w0, os.lookup_node (fs st) path = Some (os.RegFile data true w0))
      as (data & w0 & Hp).
    { unfold os.access, os.isdir in *.
      destruct (os.lookup_node (fs st) path) as [[d r0 w0|? ?]|]; try done.
      subst r0. eauto. }
    assert (Hcbak : os.check_entry (fs st) (path +:+ ".bak") = None).
    { unfold os.check_entry in *. rewrite parent_app by done.
      rewrite nonempty_app by reflexivity. destruct (Py.nonempty path); [|done].
      by destruct (os.lookup_node (fs st) (os.parent (fs st) path)) as [[? ? ?|? []]|]. }
    destruct (open_w_allowed _ _ Hcb Hcbak) as (rb & wb & Hob & _).
    destruct (backup_copy _ _ _ _ _ Hp Hob) as (fs1 & Hcopy & Hcwd & _ & Hsame).
    set (st1 := sys (CallCopy path (path +:+ ".bak")) fs1 st).
    assert (Hst1 : copy path (path +:+ ".bak") st = Ok tt st1)
      by (unfold copy; by rewrite Hcopy).
    rewrite (mbind_Ok _ _ _ _ _ Hst1).
    erewrite bind_Ok by reflexivity.
    change (conf_rw_save st1) with (conf_rw_save st). rewrite Hs.
    assert (Hbn : path +:+ ".new" <> path +:+ ".bak") by (by apply app_suffix_ne).
    assert (Hbp : path <> path +:+ ".bak")
      by (intros Heq; by apply (app_ne_self path ".bak")).
    destruct (safe_save_steps st1 path)
      as (st' & fs_open & fs_written & r & w & Hrun & Htr & Hop & Hon & Hwp & Hwn
          & Hfn & Hfp & _).
    { change (fs st1) with fs1. rewrite <- Hdir. apply check_entry_ext; [done|].
      apply Hsame. by apply (can_open_w_not_parent _ _ _ Hcb). }
    { change (fs st1) with fs1. unfold os.isdir in *. by rewrite Hsame. }
    { change (fs st1) with fs1. unfold os.can_open_w in *. by rewrite Hsame. }
    exists st', (trace st ++ [(CallCopy path (path +:+ ".bak"), fs st)])%list,
           fs1, fs_open, fs_written, r, w.
    split; [exact Hrun|]. split; [by rewrite Htr|].
    split; [by rewrite Hop; apply Hsame|]. split; [done|].
    split; [by rewrite Hwp; apply Hsame|]. done.
  - erewrite mbind_Ok by reflexivity.
    erewrite bind_Ok by reflexivity. rewrite Hs.
    destruct (safe_save_steps st path Hdir Hnd Hnew)
      as (st' & fs_open & fs_written & r & w & Hrun & Htr & Hop & Hon & Hwp & Hwn
          & Hfn & Hfp & _).
    by exists st', (trace st), (fs st), fs_open, fs_written, r, w.
Qed.

Lemma save_conf_safe_save_witness :
  exists st' pre fs_found fs_open fs_written r w,
    save_conf (set_conf sample_conf sample_state) = Ok tt st'
    /\ trace st' = (pre ++
         [(CallOpenW (sample_path +:+ ".new"), fs_found);
          (CallWrite (sample_path +:+ ".new") (configparser.write sample_conf), fs_open);
          (CallMove (sample_path +:+ ".new") sample_path, fs_written)])%list
    /\ os.lookup_node fs_open sample_path = os.lookup_node sample_fs sample_path
    /\ os.lookup_node fs_open (sample_path +:+ ".new") = Some (os.RegFile "" r w)
    /\ os.lookup_node fs_written sample_path = os.lookup_node sample_fs sample_path
    /\ os.lookup_node fs_written (sample_path +:+ ".new")
       = Some (os.RegFile (configparser.write sample_conf) r w)
    /\ os.lookup_node (fs st') (sample_path +:+ ".new") = None
    /\ os.lookup_node (fs st') sample_path
       = Some (os.RegFile (configparser.write sample_conf) r w).
Proof.
  apply (save_conf_safe_save (set_conf sample_conf sample_state) sample_path);
    try reflexivity.
  intros _. split; reflexivity.
Defined.

(** C1 as stated leaves out the test of conf_rw: with it off,
    safe-save on and a path configured, [save_conf] raises at once. It
    made no call into the file system: there is no [path.new], and [path]
    holds the old text, not the serialised configuration. *)
Lemma save_conf_safe_save_counterexample :
  conf_rw_save (set_flags false true true (set_conf sample_conf sample_state)) = true
  /\ conffile (pargs (set_flags false true true (set_conf sample_conf sample_state)))
     = Attr sample_path
  /\ exists st',
       save_conf (set_flags false true true (set_conf sample_conf sample_state))
       = Raise (RuntimeError "You have to set conf_rw to True.") st'
       /\ trace st' = []
       /\ os.lookup_node (fs st') (sample_path +:+ ".new") = None
       /\ os.lookup_node (fs st') sample_path = Some (os.RegFile sample_text true true)
       /\ sample_text <> configparser.write sample_conf.
Proof.
  split; [reflexivity|]. split; [reflexivity|].
  eexists. split; [reflexivity|]. repeat split. discriminate.
Qed.

(** *** Which entries a call can change, continued *)

Lemma write_only (fs0 : os.FileSystem) (q text q' : string) :
  q' <> q -> os.lookup_node (os.write fs0 q text) q' = os.lookup_node fs0 q'.
Proof.
  intros Hq'. unfold os.write.
  destruct (os.lookup_node fs0 q) as [[d r w|r w]|]; try done.
  by apply lookup_set_node_ne.
Qed.

Lemma copyfile_mode_only (fs0 fs1 : os.FileSystem) (src dst : string) :
  os.copyfile_mode fs0 src dst = inr fs1 ->
  forall q', q' <> dst -> os.lookup_node fs1 q' = os.lookup_node fs0 q'.
Proof.
  unfold os.copyfile_mode.
  destruct (bool_decide (src = dst) && os.exists_ fs0 src); [done|].
  destruct (os.lookup_node fs0 src) as [[d r w|r w]|]; try done.
  destruct r; [|done].
  destruct (os.open_w fs0 dst) as [|fs'] eqn:Ho; [done|].
  intros [= <-] q' Hq'. rewrite lookup_set_node_ne by done.
  by apply (open_out_only _ _ _ _ Ho).
Qed.

(** [shutil.move] onto a path that is not a directory changes the source
    and the target at most, also when it raises. *)
Lemma move_only (fs0 : os.FileSystem) (src dst : string) :
  os.isdir fs0 dst = false ->
  forall q', q' <> src -> q' <> dst ->
    match shutil.move fs0 src dst with
    | inl (_, fs1) | inr fs1 => os.lookup_node fs1 q' = os.lookup_node fs0 q'
    end.
Proof.
  intros Hnd q' Hs Hd. unfold shutil.move. rewrite Hnd.
  destruct (os.isdir fs0 src); [done|]. simpl.
  destruct (shutil.rename fs0 src dst) as [err|fs1] eqn:Hren.
  - unfold shutil.copy. rewrite Hnd.
    destruct (os.copyfile_mode fs0 src dst) as [|fs1] eqn:Hcp; [done|].
    pose proof (copyfile_mode_only _ _ _ _ Hcp q' Hd) as Hq1.
    unfold shutil.unlink.
    destruct (os.lookup_node fs1 src) as [[d r w|r w]|]; try done.
    destruct (os.check_entry fs1 src); [done|].
    by rewrite lookup_del_node_ne.
  - unfold shutil.rename in Hren.
    destruct (os.lookup_node fs0 src); [|done].
    destruct (os.check_entry fs0 src); [done|].
    destruct (os.check_entry fs0 dst); [done|].
    rewrite Hnd in Hren. injection Hren as <-.
    rewrite lookup_set_node_ne by done. by rewrite lookup_del_node_ne.
Qed.

(** C7, as amended. With write-back and backup on, a configured path
    naming a readable file, and a [.bak] entry that can be opened for
    writing, the first call [save_conf] makes into the file system is the
    copy of [path] to [path.bak], made on the file system [save_conf]
    found. However the later steps end, the state [save_conf] leaves has
    the text and the mode of the original file under [path.bak], whatever
    was there before. *)
Theorem save_conf_backup (st : State) (path data : string) (w : bool) :
  conf_rw st = true ->
  conf_rw_backup st = true ->
  conffile (pargs st) = Attr path ->
  os.lookup_node (fs st) path = Some (os.RegFile data true w) ->
  (exists fs_o, os.open_w (fs st) (path +:+ ".bak") = inr fs_o) ->
  exists st' tail,
    (save_conf st = Ok tt st' \/ exists err, save_conf st = Raise err st')
    /\ trace st' = (trace st ++ (CallCopy path (path +:+ ".bak"), fs st) :: tail)%list
    /\ os.lookup_node (fs st') (path +:+ ".bak") = Some (os.RegFile data true w).
Proof.
  intros Hrw Hb Hc Hp [fs_o Ho].
  unfold save_conf.
  erewrite bind_Ok by reflexivity. rewrite Hrw. simpl.
  erewrite bind_Ok by reflexivity. rewrite Hc.
  erewrite bind_Ok by reflexivity. rewrite Hb. unfold when.
  destruct (backup_copy _ _ _ _ _ Hp Ho) as (fs1 & Hcopy & Hcwd & Hbak & Hsame).
  set (bak := path +:+ ".bak") in *. set (new := path +:+ ".new").
  set (st1 := sys (CallCopy path bak) fs1 st).
  assert (Hst1 : copy path bak st = Ok tt st1) by (unfold copy; by rewrite Hcopy).
  rewrite (mbind_Ok _ _ _ _ _ Hst1).
  erewrite bind_Ok by reflexivity.
  assert (Hbn : bak <> new) by (by apply app_suffix_ne).
  assert (Hbp : bak <> path) by (by apply app_ne_self).
  assert (Hnp : new <> path) by (by apply app_ne_self).
  change (conf_rw_save st1) with (conf_rw_save st).
  destruct (conf_rw_save st).
  - destruct (os.open_w fs1 new) as [err|fs2] eqn:Ho2.
    { assert (Hrun : open_w new st1 = Raise err (sys (CallOpenW new) fs1 st1))
        by (unfold open_w; change (fs st1) with fs1; by rewrite Ho2).
      unfold bind. rewrite Hrun.
      eexists _, _. split; [right; eexists; reflexivity|]. simpl.
      split; [by rewrite <- app_assoc|done]. }
    assert (Hrun : open_w new st1 = Ok new (sys (CallOpenW new) fs2 st1))
      by (unfold open_w; change (fs st1) with fs1; by rewrite Ho2).
    rewrite (bind_Ok _ _ _ _ _ Hrun).
    pose proof (open_out_only _ _ _ _ Ho2 bak Hbn) as H2.
    unfold mbind, M_bind, bind, conf_write, gets, fh_write, move. simpl.
    set (fs3 := os.write fs2 new _).
    assert (H3 : os.lookup_node fs3 bak = os.lookup_node fs1 bak)
      by (unfold fs3; by rewrite write_only).
    assert (Hnd : os.isdir fs3 path = false).
    { unfold os.isdir, fs3. rewrite write_only by done.
      rewrite (open_out_only _ _ _ _ Ho2) by done.
      by rewrite Hsame, Hp. }
    pose proof (move_only fs3 new path Hnd bak Hbn Hbp) as H4.
    destruct (shutil.move fs3 new path) as [[err fs4]|fs4].
    + eexists _, _. split; [right; eexists; reflexivity|]. simpl.
      split; [by rewrite <- !app_assoc|]. by rewrite H4, H3.
    + eexists _, _. split; [left; reflexivity|]. simpl.
      split; [by rewrite <- !app_assoc|]. by rewrite H4, H3.
  - destruct (os.open_w fs1 path) as [err|fs2] eqn:Ho2.
    { assert (Hrun : open_w path st1 = Raise err (sys (CallOpenW path) fs1 st1))
        by (unfold open_w; change (fs st1) with fs1; by rewrite Ho2).
      unfold bind. rewrite Hrun.
      eexists _, _. split; [right; eexists; reflexivity|]. simpl.
      split; [by rewrite <- app_assoc|done]. }
    assert (Hrun : open_w path st1 = Ok path (sys (CallOpenW path) fs2 st1))
      by (unfold open_w; change (fs st1) with fs1; by rewrite Ho2).
    rewrite (bind_Ok _ _ _ _ _ Hrun).
    pose proof (open_out_only _ _ _ _ Ho2 bak Hbp) as H2.
    unfold conf_write, bind, gets, fh_write. simpl.
    eexists _, _. split; [left; reflexivity|]. simpl.
    split; [by rewrite <- !app_assoc|]. rewrite write_only by done. by rewrite H2.
Qed.

Lemma save_conf_backup_witness :
  exists st' tail,
    (save_conf sample_state = Ok tt st' \/ exists err, save_conf sample_state = Raise err st')
    /\ trace st' = (trace sample_state
                    ++ (CallCopy sample_path (sample_path +:+ ".bak"), sample_fs) :: tail)%list
    /\ os.lookup_node (fs st') (sample_path +:+ ".bak")
       = Some (os.RegFile sample_text true true).
Proof.
  apply (save_conf_backup sample_state sample_path sample_text true); try reflexivity.
  eexists. vm_compute. reflexivity.
Defined.

(** C7 as stated leaves out the test of conf_rw: with it off,
    backup on and a path configured, [save_conf] raises at once. It made
    no call into the file system, and no [path.bak] exists afterwards. *)
Lemma save_conf_backup_counterexample :
  conf_rw_backup (set_flags false true true sample_state) = true
  /\ conffile (pargs (set_flags false true true sample_state)) = Attr sample_path
  /\ exists st',
       save_conf (set_flags false true true sample_state)
       = Raise (RuntimeError "You have to set conf_rw to True.") st'
       /\ trace st' = []
       /\ os.lookup_node (fs st') (sample_path +:+ ".bak") = None.
Proof.
  split; [reflexivity|]. split; [reflexivity|].
  eexists. split; [reflexivity|]. by repeat split.
Qed.

(** ** Text that survives the INI format *)

Lemma str_app_cons (c : ascii) (a b : string) : String c a +:+ b = String c (a +:+ b).
Proof. reflexivity. Qed.




Lemma all_chars_impl (f g : ascii -> bool) (s : string) :
  (forall c, f c = true -> g c = true) ->
  all_chars f s = true -> all_chars g s = true.
Proof.
  intros Hfg. induction s as [|x s IH]; [done|]. simpl.
  intros [Hx Hs]%andb_true_iff. rewrite (Hfg _ Hx). by apply IH.
Qed.

Lemma plain_not_break (c : ascii) :
  plain c = true -> Py.is_char Py.LF c = false /\ Py.is_char Py.CR c = false.
Proof.
  unfold plain. intros [[H1 H2]%andb_true_iff _]%andb_true_iff.
  by apply negb_true_iff in H1, H2.
Qed.


Lemma replace_nl_plain (v : string) :
  all_chars plain v = true -> Py.replace_nl v = v.
Proof.
  induction v as [|c v IH]; [done|]. simpl.
  intros [Hc Hv]%andb_true_iff. destruct (plain_not_break c Hc) as [-> _].
  by rewrite (IH Hv).
Qed.


(** *** The lines of a value *)


(** A value without a line break is its own single line. *)
Lemma value_lines_plain (v : string) :
  all_chars plain v = true -> value_lines v = [v].
Proof.
  induction v as [|c v IH]; [done|]. simpl.
  intros [Hc Hv]%andb_true_iff. destruct (plain_not_break c Hc) as [-> _].
  by rewrite (IH Hv).
Qed.










Lemma rstrip_nonempty_fixed (s : string) :
  Py.rstrip s = s -> s <> "" -> Py.rstrip s <> "".
Proof. by intros ->. Qed.





(** *** What _read does with the lines that write produces *)

Section Codec.
Import configparser.














(** *** Dictionaries under a change of values *)

Section DictMap.
Context {V W : Type} (f : V -> W).

Lemma map_values_get (k : string) (d : dict.t V) :
  dict.get k (dict.map_values f d) = f <$> dict.get k d.
Proof.
  induction d as [|[k' v'] d IH]; [done|]. simpl.
  by destruct (bool_decide (k' = k)).
Qed.

Lemma map_values_mem (k : string) (d : dict.t V) :
  dict.mem k (dict.map_values f d) = dict.mem k d.
Proof. unfold dict.mem. rewrite map_values_get. by destruct (dict.get k d). Qed.

Lemma map_values_keys (d : dict.t V) :
  dict.keys (dict.map_values f d) = dict.keys d.
Proof. induction d as [|[k' v'] d IH]; [done|]. simpl. by rewrite IH. Qed.



End DictMap.

Lemma map_values_id {V W : Type} (f : V -> W) (g : W -> V) (d : dict.t V) :
  (forall v, g (f v) = v) ->
  dict.map_values g (dict.map_values f d) = d.
Proof.
  intros Hgf. induction d as [|[k v] d IH]; [done|]. simpl.
  by rewrite Hgf, IH.
Qed.

Lemma dict_get_elem {V : Type} (k : string) (v : V) (d : dict.t V) :
  NoDup (dict.keys d) -> (k, v) ∈ d -> dict.get k d = Some v.
Proof.
  induction d as [|[k' v'] d IH]; simpl.
  - intros _ Hin. by apply elem_of_nil in Hin.
  - intros Hnd Hin. apply NoDup_cons in Hnd as [Hk' Hnd].
    apply elem_of_cons in Hin as [[= <- <-]|Hin].
    + by rewrite bool_decide_eq_true_2.
    + rewrite bool_decide_eq_false_2; [by apply IH|].
      intros ->. apply Hk'. by apply (list_elem_of_fmap_2 fst _ (k, v)).
Qed.

Lemma dict_mem_keys {V : Type} (k : string) (d : dict.t V) :
  dict.mem k d = true <-> k ∈ dict.keys d.
Proof.
  unfold dict.mem. induction d as [|[k' v'] d IH]; simpl.
  - split; [done|]. intros H. by apply elem_of_nil in H.
  - destruct (bool_decide (k' = k)) eqn:Hk.
    + apply bool_decide_eq_true in Hk as ->. split; [|done]. intros _. by left.
    + apply bool_decide_eq_false in Hk. rewrite IH. split.
      * intros H. by right.
      * intros H. apply elem_of_cons in H as [->|H]; done.
Qed.

(** *** Joining the lines of the values *)





Lemma join_in_memory (c : Parser string) :
  _join_multiline_values (in_memory c) = c.
Proof.
  destruct c as [d s]. unfold _join_multiline_values, in_memory. simpl. f_equal.
  - by apply map_values_id.
  - apply map_values_id. intros v. by apply map_values_id.
Qed.

(** *** The lines of a written configuration *)






Lemma read_lines_app (n : nat) (l1 l2 : list string) (st : rstate) :
  read_lines n (l1 ++ l2) st
  = match read_lines n l1 st with
    | inl err => inl err
    | inr st' => read_lines (n + length l1) l2 st'
    end.
Proof.
  revert n st. induction l1 as [|x l1 IH]; intros n st; simpl.
  - by rewrite Nat.add_0_r.
  - destruct (read_line n x st); [done|]. rewrite IH. by rewrite Nat.add_succ_r.
Qed.

(** *** Reading the lines back *)







End Codec.

(** ** save_conf followed by reload_conf *)

Lemma rw_slot_can_open (fs0 : os.FileSystem) (q : string) :
  os.rw_slot fs0 q = true ->
  os.can_open_w fs0 q = true /\ mode_after_open fs0 q = (true, true).
Proof.
  unfold os.rw_slot, os.can_open_w, mode_after_open.
  destruct (os.lookup_node fs0 q) as [[d r w|r w]|]; try done.
  by intros [-> ->]%andb_true_iff.
Qed.



Lemma dirname_nonempty (path : string) :
  Py.nonempty (posixpath.dirname path) = true -> Py.nonempty path = true.
Proof. by destruct path. Qed.

(** [save_conf] where the flags and the file system let it through: with
    a backup, the file can be read and the [.bak] entry written; with
    safe-save, the path is not a directory and the [.new] entry is free
    or a file that can be read and written; with either, the directory
    takes new entries; without safe-save, the file can be read and
    written, or is missing in a directory that takes new entries. The
    serialised configuration is then under the configured path, readable
    and writable, and the checks of [reload_conf] pass. *)
Lemma save_conf_writes (st : State) (path : string) :
  conf_rw st = true ->
  conffile (pargs st) = Attr path ->
  (conf_rw_save st || conf_rw_backup st = true ->
   exists rd, os.lookup_node (fs st) (posixpath.dirname path)
              = Some (os.Directory rd true)) ->
  (conf_rw_backup st = true ->
   (exists data w, os.lookup_node (fs st) path = Some (os.RegFile data true w))
   /\ os.can_open_w (fs st) (path +:+ ".bak") = true) ->
  (conf_rw_save st = true ->
   os.isdir (fs st) path = false /\ os.rw_slot (fs st) (path +:+ ".new") = true) ->
  (conf_rw_save st = false ->
   (exists data, os.lookup_node (fs st) path = Some (os.RegFile data true true))
   \/ (os.lookup_node (fs st) path = None /\ os.check_entry (fs st) path = None)) ->
  exists st1,
    save_conf st = Ok tt st1
    /\ same_but_fs st st1
    /\ os.lookup_node (fs st1) path
       = Some (os.RegFile (configparser.write (conf st)) true true)
    /\ checks_pass st1 path = true.
Proof.
  intros Hrw Hc Hdir Hbackup Hsave Hplace.
  set (bak := path +:+ ".bak") in *. set (new := path +:+ ".new") in *.
  assert (Hbn : new <> bak) by (by apply app_suffix_ne).
  assert (Hpb : path <> bak) by (intros Heq; by apply (app_ne_self path ".bak")).
  assert (Hpn : path <> new) by (intros Heq; by apply (app_ne_self path ".new")).
  (* the directory, where the flags ask for it *)
  assert (Hparent : forall rd,
    os.lookup_node (fs st) (posixpath.dirname path) = Some (os.Directory rd true) ->
    Py.nonempty path = true
    /\ os.parent (fs st) path = posixpath.dirname path
    /\ os.check_entry (fs st) path = None).
  { intros rd Hd. pose proof (lookup_node_nonempty _ _ _ Hd) as Hdn.
    assert (Hpar : os.parent (fs st) path = posixpath.dirname path)
      by (unfold os.parent; by rewrite Hdn).
    split; [by apply dirname_nonempty|]. split; [done|].
    unfold os.check_entry. by rewrite (dirname_nonempty _ Hdn), Hpar, Hd. }
  (* the backup step, if any *)
  assert (exists st0,
    (let* backup := gets conf_rw_backup in when backup (copy path bak)) st = Ok tt st0
    /\ same_but_fs st st0 /\ os.cwd (fs st0) = os.cwd (fs st)
    /\ forall q, (conf_rw_backup st = true -> q <> bak) ->
                 os.lookup_node (fs st0) q = os.lookup_node (fs st) q)
    as (st0 & Hrun0 & Hsame0 & Hcwd0 & Hfs0).
  { erewrite bind_Ok by reflexivity. destruct (conf_rw_backup st) eqn:Hb; unfold when.
    - destruct (Hbackup eq_refl) as [(data & w & Hp) Hbak'].
      destruct Hdir as [rd Hd]; [by rewrite orb_true_r|].
      destruct (Hparent rd Hd) as (Hne & Hpar & Hce).
      assert (Hcbak : os.check_entry (fs st) bak = None).
      { unfold os.check_entry. unfold bak. rewrite parent_app by done.
        rewrite nonempty_app by reflexivity. by rewrite Hpar, Hd. }
      destruct (open_w_allowed _ _ Hbak' Hcbak) as (rb & wb & Hob & _).
      destruct (backup_copy _ _ _ _ _ Hp Hob) as (fs1 & Hcopy & Hcwd & _ & Hother).
      exists (sys (CallCopy path bak) fs1 st). unfold copy. fold bak in Hcopy.
      rewrite Hcopy. repeat split; try done.
      intros q Hq. apply Hother. by apply Hq.
    - exists st. by repeat split. }
  unfold save_conf.
  erewrite bind_Ok by reflexivity. rewrite Hrw. cbn [negb].
  erewrite bind_Ok by reflexivity. rewrite Hc.
  erewrite bind_Ok by reflexivity.
  erewrite bind_Ok in Hrun0 by reflexivity.
  rewrite (mbind_Ok _ _ _ _ _ Hrun0).
  erewrite bind_Ok by reflexivity.
  destruct Hsame0 as (Hf1 & Hf2 & Hf3 & Hconf0 & Hpargs0 & Hlog0).
  assert (Hp0 : os.lookup_node (fs st0) path = os.lookup_node (fs st) path)
    by (by apply Hfs0).
  assert (Hn0 : os.lookup_node (fs st0) new = os.lookup_node (fs st) new)
    by (by apply Hfs0).
  (* the directory node is not the backup file *)
  assert (Hd0 : forall rd,
    os.lookup_node (fs st) (posixpath.dirname path) = Some (os.Directory rd true) ->
    os.lookup_node (fs st0) (posixpath.dirname path) = Some (os.Directory rd true)).
  { intros rd Hd. rewrite Hfs0; [done|]. intros Hb Heq.
    destruct (Hbackup Hb) as [_ Hbak']. rewrite Heq in Hd.
    unfold os.can_open_w in Hbak'. by rewrite Hd in Hbak'. }
  rewrite Hf2.
  destruct (conf_rw_save st) eqn:Hsv.
  - destruct (Hsave eq_refl) as [Hnd Hnew].
    destruct Hdir as [rd Hd]; [done|].
    destruct (Hparent rd Hd) as (Hne & Hpar & Hce).
    destruct (rw_slot_can_open _ _ Hnew) as [Hnew' Hmode].
    assert (Hce0 : os.check_entry (fs st0) path = None).
    { rewrite <- Hce. apply check_entry_ext; [done|]. rewrite Hpar.
      by rewrite (Hd0 rd Hd). }
    destruct (safe_save_steps st0 path)
      as (st1 & fs_open & fs_written & r & w & Hrun & _ & _ & _ & _ & _ & _ & Hfp
          & Hother & Hsame1 & Hmode1).
    + exact Hce0.
    + unfold os.isdir in *. by rewrite Hp0.
    + unfold os.can_open_w in *. fold new. by rewrite Hn0.
    + exists st1. split; [exact Hrun|].
      destruct Hsame1 as (Hg1 & Hg2 & Hg3 & Hg4 & Hg5 & Hg6).
      split; [repeat split; congruence|].
      assert (Hrw1 : (r, w) = (true, true)).
      { rewrite <- Hmode1, <- Hmode. unfold mode_after_open. fold new. by rewrite Hn0. }
      injection Hrw1 as -> ->.
      assert (Hp1 : os.lookup_node (fs st1) path
                    = Some (os.RegFile (configparser.write (conf st)) true true))
        by (by rewrite Hfp, Hconf0).
      split; [exact Hp1|].
      assert (Hd1 : os.lookup_node (fs st1) (posixpath.dirname path)
                    = Some (os.Directory rd true)).
      { rewrite Hother; [by apply Hd0| |].
        - intros Heq. rewrite Heq in Hd. unfold os.isdir in Hnd. by rewrite Hd in Hnd.
        - intros Heq. fold new in Heq. rewrite Heq in Hd.
          unfold os.can_open_w in Hnew'. by rewrite Hd in Hnew'. }
      unfold checks_pass, os.access. rewrite Hp1, Hd1. by rewrite !orb_true_r.
  - assert (exists fs_o,
      os.open_w (fs st0) path = inr fs_o
      /\ os.lookup_node fs_o path = Some (os.RegFile "" true true)
      /\ (forall q, q <> path -> os.lookup_node fs_o q = os.lookup_node (fs st0) q)
      /\ Py.nonempty path = true) as (fs_o & Hopen & Hpo & Hother & Hne).
    { destruct (Hplace eq_refl) as [(data & Hp)|(Hp & Hce)].
      - exists (os.set_node path (os.RegFile "" true true) (fs st0)).
        pose proof (lookup_node_nonempty _ _ _ Hp) as Hne.
        unfold os.open_w, os.open_out. rewrite Hp0, Hp.
        split; [done|]. split; [by apply lookup_set_node_eq|]. split; [|done].
        intros q Hq. by apply lookup_set_node_ne.
      - assert (Hb : conf_rw_backup st = false).
        { destruct (conf_rw_backup st) eqn:Hb; [|done].
          destruct (Hbackup eq_refl) as [(data & w & Hp') _]. by rewrite Hp in Hp'. }
        assert (Hce0 : os.check_entry (fs st0) path = None).
        { rewrite <- Hce. apply check_entry_ext; [done|]. apply Hfs0. by rewrite Hb. }
        exists (os.set_node path (os.RegFile "" true true) (fs st0)).
        pose proof (check_entry_nonempty _ _ Hce) as Hne.
        unfold os.open_w, os.open_out. rewrite Hp0, Hp, Hce0.
        split; [done|]. split; [by apply lookup_set_node_eq|]. split; [|done].
        intros q Hq. by apply lookup_set_node_ne. }
    assert (Hrun : open_w path st0 = Ok path (sys (CallOpenW path) fs_o st0))
      by (unfold open_w; by rewrite Hopen).
    rewrite (bind_Ok _ _ _ _ _ Hrun).
    unfold conf_write. erewrite bind_Ok by reflexivity.
    unfold fh_write. cbn [fs sys conf].
    assert (Hw : os.write fs_o path (configparser.write (conf st0))
                 = os.set_node path (os.RegFile (configparser.write (conf st0)) true true)
                               fs_o).
    { unfold os.write. by rewrite Hpo. }
    rewrite Hw. eexists. split; [reflexivity|]. cbn [fs sys].
    split; [repeat split; simpl; congruence|].
    assert (Hp1 : os.lookup_node
                    (os.set_node path (os.RegFile (configparser.write (conf st0)) true true)
                                 fs_o) path
                  = Some (os.RegFile (configparser.write (conf st)) true true)).
    { rewrite lookup_set_node_eq by done. by rewrite Hconf0. }
    split; [exact Hp1|].
    unfold checks_pass, os.access. cbn [fs sys conf_rw conf_rw_save conf_rw_backup].
    rewrite Hp1, Hf1, Hf2, Hf3, Hrw. cbn [negb orb andb].
    destruct (conf_rw_backup st) eqn:Hb; [|done]. cbn [negb orb].
    destruct Hdir as [rd Hd]; [done|].
    destruct (Hbackup eq_refl) as [(data & w & Hp) _].
    rewrite lookup_set_node_ne, Hother, (Hd0 rd Hd); [done| |].
    + intros Heq. rewrite Heq in Hd. by rewrite Hd in Hp.
    + intros Heq. rewrite <- Heq in Hd. by rewrite Hd in Hp.
Qed.

(** Without safe-save and backup, a configuration file that is missing
    is made; the directory is not asked for more than that. *)
Example save_conf_writes_new_file :
  exists st1,
    save_conf (set_flags true false false
                 (set_fs no_file_fs (set_conf lines_conf sample_state))) = Ok tt st1
    /\ os.lookup_node (fs st1) sample_path
       = Some (os.RegFile (configparser.write lines_conf) true true)
    /\ checks_pass st1 sample_path = true.
Proof.
  destruct (save_conf_writes
              (set_flags true false false
                 (set_fs no_file_fs (set_conf lines_conf sample_state)))
              sample_path) as (st1 & Hrun & _ & Hp & Hchk).
  - reflexivity.
  - reflexivity.
  - intros H. discriminate H.
  - intros H. discriminate H.
  - intros H. discriminate H.
  - intros _. right. split; reflexivity.
  - by exists st1.
Qed.

(** With a backup and without safe-save, in a directory that takes new
    entries. *)
Example save_conf_writes_with_backup :
  exists st1,
    save_conf (set_flags true false true (set_conf lines_conf sample_state)) = Ok tt st1
    /\ os.lookup_node (fs st1) sample_path
       = Some (os.RegFile (configparser.write lines_conf) true true)
    /\ os.lookup_node (fs st1) (sample_path +:+ ".bak")
       = Some (os.RegFile sample_text true true).
Proof.
  destruct (save_conf_writes
              (set_flags true false true (set_conf lines_conf sample_state))
              sample_path) as (st1 & Hrun & _ & Hp & _).
  - reflexivity.
  - reflexivity.
  - intros _. exists true. reflexivity.
  - intros _. split; [|reflexivity]. exists sample_text, true. reflexivity.
  - intros H. discriminate H.
  - intros _. left. exists sample_text. reflexivity.
  - exists st1. split; [done|]. split; [done|].
    vm_compute in Hrun. injection Hrun as <-. reflexivity.
Qed.





(** ** reload_conf with and without clearing *)

(** The clearing loop removes every section [sections()] lists; the
    options of the default section are not among them and stay. *)
Lemma clear_sections (st : State) :
  (let* sections := conf_sections in for_ sections conf_remove_section) st
  = Ok tt (set_conf (configparser.mkParser (configparser._defaults (conf st)) []) st).
Proof.
  unfold conf_sections. erewrite bind_Ok by reflexivity.
  unfold configparser.sections.
  assert (H : forall secs s,
    configparser._sections (conf s) = secs ->
    for_ (dict.keys secs) conf_remove_section s
    = Ok tt (set_conf (configparser.mkParser (configparser._defaults (conf s)) []) s)).
  { induction secs as [|[name items] secs IH]; intros s Hs.
    - simpl. unfold mret, M_ret, ret. f_equal.
      destruct s as [? ? ? c ? ? ? ?]. destruct c. simpl in *. by subst.
    - cbn [dict.keys map for_ fst].
      assert (Hstep : conf_remove_section name s
                = Ok tt (set_conf (configparser.mkParser
                                     (configparser._defaults (conf s)) secs) s)).
      { unfold conf_remove_section, modify, configparser.remove_section, dict.mem.
        rewrite Hs. simpl. by rewrite bool_decide_eq_true_2. }
      rewrite (mbind_Ok _ _ _ _ _ Hstep). by rewrite IH. }
  by apply H.
Qed.

(** C6 at the input where the code departs from it. A file with an option
    [debug] in its default section is loaded; the option is then taken
    out of the file, together with the option [mode] of section [main].
    [reload_conf] with [clear_load] drops [mode] but leaves [debug] in
    memory, in the default section and, through it, in section [main]:
    the clearing loop does not reach the default section. Without
    [clear_load] both options stay. *)
Theorem reload_conf_clear_keeps_defaults :
  let start := set_fs (fs_with defaults_text) sample_state in
  let loaded := configparser.mkParser
                  [("debug", "1")] [("main", [("name", "x"); ("mode", "fast")])] in
  let cleared := configparser.mkParser [("debug", "1")] [("main", [("name", "x")])] in
  let in_file := configparser.mkParser [] [("main", [("name", "x")])] in
  conf_of (reload_conf false start) = Some loaded
  /\ configparser._read edited_text configparser.empty = configparser.ReadOk in_file
  /\ configparser.has_option in_file "DEFAULT" "debug" = false
  /\ configparser.has_option in_file "main" "debug" = false
  /\ configparser.has_option in_file "main" "mode" = false
  /\ conf_of ((reload_conf false;; edit_file edited_text;; reload_conf true) start)
     = Some cleared
  /\ configparser.has_option cleared "DEFAULT" "debug" = true
  /\ configparser.has_option cleared "main" "debug" = true
  /\ configparser.has_option cleared "main" "mode" = false
  /\ conf_of ((reload_conf false;; edit_file edited_text;; reload_conf false) start)
     = Some loaded
  /\ configparser.has_option loaded "DEFAULT" "debug" = true
  /\ configparser.has_option loaded "main" "mode" = true.
Proof. cbv zeta. repeat split; vm_compute; reflexivity. Qed.

(** *** How far the clearing goes, for every file *)

Section Clear.
Import configparser.

(** What the default section holds has no influence on the course of the
    loop nor on the other sections. *)
Lemma read_line_same_sections (n : nat) (line : string) (st1 st2 : rstate) :
  same_sections st1 st2 ->
  same_outcome (read_line n line st1) (read_line n line st2).
Proof.
  destruct st1 as [[d1 s1] c1 sn1 o1 i1 el1 e1].
  destruct st2 as [[d2 s2] c2 sn2 o2 i2 el2 e2].
  intros (Hs & Hc & Hsn & Ho & Hi & Hel & He). simpl in *. subst.
  unfold read_line. cbv zeta. cbn [cp cursect sectname optname indent_level
                                   elements_added e _sections _defaults].
  destruct (negb (Py.nonempty _)).
  { destruct (_ && _ && _); [|by repeat split].
    destruct c2; by repeat split. }
  destruct (_ && _ && _).
  { destruct c2; by repeat split. }
  destruct (match_section _) as [header|].
  { destruct (dict.mem header s2).
    - destruct (bool_decide _); [done|by repeat split].
    - destruct (bool_decide _); by repeat split. }
  destruct (negb (is_cur c2)); [done|].
  destruct (match_option _) as [[o ov]|]; [|by repeat split].
  destruct (bool_decide _); [done|].
  destruct c2; by repeat split.
Qed.

Lemma read_lines_same_sections (lines : list string) (n : nat) (st1 st2 : rstate) :
  same_sections st1 st2 ->
  same_outcome (read_lines n lines st1) (read_lines n lines st2).
Proof.
  revert n st1 st2. induction lines as [|line lines IH]; intros n st1 st2 Hs.
  - done.
  - simpl. pose proof (read_line_same_sections n line st1 st2 Hs) as H.
    destruct (read_line n line st1), (read_line n line st2); try done.
    by apply IH.
Qed.

(** Reading a file into a parser without sections gives the sections
    that reading it into a new parser gives, whatever the default
    section held. *)
Lemma _read_sections_of_file (text : string) (d : dict.t string) (c1 : Parser string) :
  _read text (mkParser d []) = ReadOk c1 ->
  exists c_file, _read text empty = ReadOk c_file /\ _sections c1 = _sections c_file.
Proof.
  unfold _read.
  pose proof (read_lines_same_sections (Py.readlines text) 1
                (mkR (in_memory (mkParser d [])) CurNone "" None 0 [] [])
                (mkR (in_memory empty) CurNone "" None 0 [] [])) as H.
  destruct (read_lines _ _ (mkR (in_memory (mkParser d [])) _ _ _ _ _ _)) as [|st1];
    [done|].
  destruct (read_lines _ _ (mkR (in_memory empty) _ _ _ _ _ _)) as [|st2].
  { by destruct H; repeat split. }
  destruct H as (Hs & _ & _ & _ & _ & _ & He); [by repeat split|].
  rewrite <- He. destruct (e st1); [|done].
  intros [= <-]. eexists. split; [reflexivity|].
  unfold _join_multiline_values. simpl. by rewrite Hs.
Qed.

(** [_read] adds and overwrites options; it removes none. *)
Lemma read_line_keeps_options (n : nat) (line : string) (st st' : rstate)
    (section opt : string) :
  read_line n line st = inr st' ->
  has_option (cp st) section opt = true ->
  has_option (cp st') section opt = true.
Proof.
  assert (Hset : forall {V} k (x : V) q d,
            dict.mem q d = true -> dict.mem q (dict.set k x d) = true).
  { intros V k x q d. unfold dict.mem.
    induction d as [|[k' v'] d IH]; simpl; [done|].
    destruct (bool_decide (k' = k)) eqn:Hk; simpl.
    - apply bool_decide_eq_true in Hk as ->.
      by destruct (bool_decide (k = q)).
    - by destruct (bool_decide (k' = q)). }
  assert (Hupd : forall {V} k (f : V -> V) q d,
            dict.mem q (dict.update k f d) = dict.mem q d).
  { intros V k f q d. unfold dict.mem.
    induction d as [|[k' v'] d IH]; simpl; [done|].
    destruct (bool_decide (k' = k)) eqn:Hk; simpl;
      by destruct (bool_decide (k' = q)). }
  assert (Hupd_get : forall {V} k (f : V -> V) q d,
            dict.get q (dict.update k f d)
            = if bool_decide (k = q) then f <$> dict.get q d else dict.get q d).
  { intros V k f q d.
    induction d as [|[k' v'] d IH]; simpl; [by destruct (bool_decide _)|].
    destruct (bool_decide (k' = k)) eqn:Hk; simpl.
    - apply bool_decide_eq_true in Hk as ->. by destruct (bool_decide (k = q)).
    - apply bool_decide_eq_false in Hk.
      destruct (bool_decide (k' = q)) eqn:Hq; [|done].
      apply bool_decide_eq_true in Hq as ->.
      by rewrite bool_decide_eq_false_2 by done. }
  assert (Hset_get : forall {V} k (x : V) q d,
            k <> q -> dict.get q (dict.set k x d) = dict.get q d).
  { intros V k x q d Hkq.
    induction d as [|[k' v'] d IH]; simpl.
    - by rewrite bool_decide_eq_false_2 by done.
    - destruct (bool_decide (k' = k)) eqn:Hk; simpl.
      + apply bool_decide_eq_true in Hk as ->.
        by rewrite !bool_decide_eq_false_2 by done.
      + by destruct (bool_decide (k' = q)). }
  assert (Hcur_set : forall c o x p,
            has_option p section opt = true ->
            has_option (cur_set c o x p) section opt = true).
  { intros c o x p. unfold has_option, cur_set.
    destruct c as [| |s]; [done| |]; cbn [_defaults _sections].
    - destruct (_ || _); [by apply Hset|].
      destruct (dict.get section (_sections p)); [|done].
      intros [->|H]%orb_true_iff; [done|]. by rewrite (Hset _ _ _ _ _ H), orb_true_r.
    - destruct (_ || _); [done|]. rewrite Hupd_get.
      destruct (bool_decide (s = section)); [|done].
      destruct (dict.get section (_sections p)) as [d|]; [|done]. simpl.
      intros [H| ->]%orb_true_iff; [|by rewrite orb_true_r].
      by rewrite (Hset _ _ _ _ _ H). }
  assert (Hcur_app : forall c o x p,
            has_option p section opt = true ->
            has_option (cur_append c o x p) section opt = true).
  { intros c o x p. unfold has_option, cur_append.
    destruct c as [| |s]; [done| |]; cbn [_defaults _sections].
    - by rewrite !Hupd.
    - destruct (_ || _); [done|]. rewrite Hupd_get.
      destruct (bool_decide (s = section)); [|done].
      destruct (dict.get section (_sections p)) as [d|]; [|done]. simpl.
      by rewrite Hupd. }
  unfold read_line. cbv zeta.
  destruct (negb (Py.nonempty _)).
  { destruct (_ && _ && _); intros [= <-]; [by apply Hcur_app|done]. }
  destruct (_ && _ && _).
  { intros [= <-]. by apply Hcur_app. }
  destruct (match_section _) as [header|].
  { destruct (dict.mem header (_sections (cp st))) eqn:Hmem.
    - destruct (bool_decide _); [done|]. by intros [= <-].
    - destruct (bool_decide (header = default_section)); intros [= <-]; [done|].
      unfold has_option. cbn [cp _defaults _sections].
      destruct (_ || _); [done|].
      destruct (dict.get section (_sections (cp st))) as [d|] eqn:Hg; [|done].
      assert (Hne : header <> section).
      { intros ->. unfold dict.mem in Hmem. by rewrite Hg in Hmem. }
      rewrite Hset_get by done. intros Hopt.
      match goal with
      | |- match ?x with _ => _ end = _ =>
          replace x with (Some d) by (symmetry; exact Hg)
      end.
      done. }
  destruct (negb (is_cur (cursect st))); [done|].
  destruct (match_option _) as [[o ov]|]; [|by intros [= <-]].
  destruct (bool_decide _); [done|]. intros [= <-]. by apply Hcur_set.
Qed.

Lemma read_lines_keep_options (lines : list string) (n : nat) (st st' : rstate)
    (section opt : string) :
  read_lines n lines st = inr st' ->
  has_option (cp st) section opt = true ->
  has_option (cp st') section opt = true.
Proof.
  revert n st. induction lines as [|line lines IH]; intros n st.
  - by intros [= <-].
  - simpl. destruct (read_line n line st) as [|st1] eqn:H1; [done|].
    intros Hrun Hopt. apply (IH _ _ Hrun).
    by apply (read_line_keeps_options _ _ _ _ _ _ H1).
Qed.

Lemma has_option_map_values {V W : Type} (f : V -> W) (p : Parser V) (section opt : string) :
  has_option (mkParser (dict.map_values f (_defaults p))
                       (dict.map_values (dict.map_values f) (_sections p)))
             section opt
  = has_option p section opt.
Proof.
  unfold has_option. cbn [_defaults _sections].
  rewrite map_values_get, !map_values_mem.
  destruct (dict.get section (_sections p)); [|done]. simpl.
  by rewrite map_values_mem.
Qed.

Lemma _read_keeps_options (text : string) (c c' : Parser string) (section opt : string) :
  _read text c = ReadOk c' ->
  has_option c section opt = true ->
  has_option c' section opt = true.
Proof.
  unfold _read.
  destruct (read_lines _ _ _) as [|st'] eqn:Hrun; [done|].
  destruct (e st'); [|done]. intros [= <-] Hopt.
  unfold _join_multiline_values. rewrite has_option_map_values.
  apply (read_lines_keep_options _ _ _ _ _ _ Hrun). cbn [cp].
  unfold in_memory. by rewrite has_option_map_values.
Qed.

End Clear.

(** A reload that returns has passed the checks, which change neither
    the configuration nor the files, and then read the file. *)
Lemma reload_conf_Ok (clear_load : bool) (st st' : State) (path : string) :
  conffile (pargs st) = Attr path ->
  reload_conf clear_load st = Ok tt st' ->
  exists s,
    fs s = fs st
    /\ conf s = (if clear_load
                then configparser.mkParser (configparser._defaults (conf st)) []
                else conf st)
    /\ conf_read path s = Ok tt st'.
Proof.
  intros Hc.
  unfold reload_conf. erewrite bind_Ok by reflexivity. rewrite Hc.
  unfold access at 1. erewrite bind_Ok by reflexivity.
  destruct (negb (os.access (fs st) path os.R_OK)); [done|].
  erewrite bind_Ok by reflexivity. cbn [conf_rw sys].
  match goal with
  | |- (?m ≫= _) ?s0 = _ -> _ =>
      assert (match m s0 with
              | Ok _ s => conf s = conf st /\ fs s = fs st
              | _ => True
              end) as Hchecks
  end.
  { destruct (conf_rw st); [|done].
    erewrite bind_Ok by reflexivity. cbn [conf_rw_save conf_rw_backup sys].
    destruct (conf_rw_save st || conf_rw_backup st).
    - unfold access. erewrite bind_Ok by reflexivity. cbn [fs sys].
      destruct (negb (os.access (fs st) (posixpath.dirname path) os.W_OK)); [done|].
      erewrite bind_Ok by reflexivity. cbn [fs sys].
      by destruct (negb (os.access (fs st) path os.W_OK)).
    - erewrite bind_Ok by reflexivity. cbn [negb].
      unfold access. erewrite bind_Ok by reflexivity. cbn [fs sys].
      by destruct (negb (os.access (fs st) path os.W_OK)). }
  unfold mbind at 1, M_bind at 1, bind at 1.
  match goal with
  | |- match ?m ?s0 with _ => _ end = _ -> _ =>
      destruct (m s0) as [[] s|?|?]; try done
  end.
  destruct Hchecks as [Hcs Hfs].
  destruct clear_load; unfold when.
  - rewrite (mbind_Ok _ _ _ _ _ (clear_sections s)).
    erewrite mbind_Ok by reflexivity.
    intros Hread. eexists. split; [|split; [|exact Hread]]; simpl; by rewrite ?Hcs.
  - erewrite mbind_Ok by reflexivity.
    erewrite mbind_Ok by reflexivity.
    intros Hread. eexists. split; [|split; [|exact Hread]]; simpl; by rewrite ?Hcs.
Qed.

(** Merge semantics: a reload without clearing never removes an option. *)
Lemma reload_conf_keeps_options (st st' : State) (section opt : string) :
  reload_conf false st = Ok tt st' ->
  configparser.has_option (conf st) section opt = true ->
  configparser.has_option (conf st') section opt = true.
Proof.
  destruct (conffile (pargs st)) as [|path] eqn:Hc.
  { unfold reload_conf. erewrite bind_Ok by reflexivity. rewrite Hc.
    by intros [= <-]. }
  intros (s & Hfs & Hcs & Hread)%(reload_conf_Ok _ _ _ _ Hc).
  revert Hread. unfold conf_read.
  destruct (os.open_r (fs s) path) as [err|text].
  - destruct (is_OSError err); [|done]. intros [= <-]. simpl. by rewrite Hcs.
  - destruct (configparser._read text (conf s)) as [c| |] eqn:Hr; try done.
    intros [= <-] Hopt. simpl. apply (_read_keeps_options _ _ _ _ _ Hr).
    by rewrite Hcs.
Qed.

(** With clearing, the sections in memory after the reload are those of
    the file; the options of the default section were not cleared. *)
Lemma reload_conf_clear_sections (st st' : State) (path text : string) :
  conffile (pargs st) = Attr path ->
  os.open_r (fs st) path = inr text ->
  reload_conf true st = Ok tt st' ->
  exists c_file,
    configparser._read text (configparser.mkParser (configparser._defaults (conf st)) [])
    = configparser.ReadOk (conf st')
    /\ configparser._read text configparser.empty = configparser.ReadOk c_file
    /\ configparser._sections (conf st') = configparser._sections c_file.
Proof.
  intros Hc Hopen (s & Hfs & Hcs & Hread)%(reload_conf_Ok _ _ _ _ Hc).
  revert Hread. unfold conf_read. rewrite Hfs, Hopen, Hcs.
  destruct (configparser._read text _) as [c1| |] eqn:Hr; try done.
  intros [= <-]. cbn [conf set_conf].
  destruct (_read_sections_of_file _ _ _ Hr) as (c_file & Hfile & Hsec).
  by exists c_file.
Qed.

(** * Further properties *)

(** ** reload_conf: the checks and what follows them *)

(** Where the checks pass, [reload_conf] comes to [conf.read]: on the file
    system it found, with the sections cleared if asked for, and after
    the message to the logger. *)
Lemma reload_conf_past_checks (clear_load : bool) (st : State) (path : string) :
  conffile (pargs st) = Attr path ->
  checks_pass st path = true ->
  exists s,
    reload_conf clear_load st = conf_read path s
    /\ fs s = fs st
    /\ conf s = (if clear_load then cleared (conf st) else conf st)
    /\ logger s = logging.log logging.INFO ("loading config file: " +:+ path) (logger st)
    /\ pargs s = pargs st
    /\ (conf_rw st = false -> trace s = (trace st ++ [(CallAccess path os.R_OK, fs st)])%list).
Proof.
  intros Hc Hchk. unfold checks_pass in Hchk.
  apply andb_true_iff in Hchk as [Hr Hw].
  unfold reload_conf. erewrite bind_Ok by reflexivity. rewrite Hc.
  unfold access at 1. erewrite bind_Ok by reflexivity. rewrite Hr. cbn [negb].
  erewrite bind_Ok by reflexivity. cbn [conf_rw sys].
  match goal with
  | |- exists s, (?m ≫= _) ?s0 = _ /\ _ =>
      assert (exists s1, m s0 = Ok tt s1 /\ fs s1 = fs st /\ conf s1 = conf st
                         /\ logger s1 = logger st /\ pargs s1 = pargs st
                         /\ (conf_rw st = false -> s1 = s0))
        as (s1 & Hs1 & Hfs & Hcs & Hlg & Hpa & Htr)
  end.
  { destruct (conf_rw st); [|by eexists]. simpl in Hw.
    erewrite bind_Ok by reflexivity. cbn [conf_rw_save conf_rw_backup sys].
    apply andb_true_iff in Hw as [Hd Hw].
    destruct (conf_rw_save st || conf_rw_backup st); simpl in Hd.
    - unfold access. erewrite bind_Ok by reflexivity. cbn [fs sys]. rewrite Hd.
      cbn [negb]. erewrite bind_Ok by reflexivity. cbn [fs sys]. rewrite Hw.
      eexists. by repeat split.
    - erewrite bind_Ok by reflexivity. cbn [negb].
      unfold access. erewrite bind_Ok by reflexivity. cbn [fs sys]. rewrite Hw.
      eexists. by repeat split. }
  rewrite (mbind_Ok _ _ _ _ _ Hs1).
  destruct clear_load; unfold when.
  - rewrite (mbind_Ok _ _ _ _ _ (clear_sections s1)).
    erewrite mbind_Ok by reflexivity.
    eexists. split; [reflexivity|]. simpl. rewrite Hcs, Hlg.
    repeat split; try done. intros Hrw. by rewrite (Htr Hrw).
  - erewrite mbind_Ok by reflexivity. erewrite mbind_Ok by reflexivity.
    eexists. split; [reflexivity|]. simpl. rewrite Hlg.
    repeat split; try done. intros Hrw. by rewrite (Htr Hrw).
Qed.

(** X1. Lines 75-81. With write-back on, a configuration file that can be
    read but not written, in a directory that can be written to if
    safe-save or backup is on (else the test of the directory comes
    first and raises its own error), makes [reload_conf] raise
    RuntimeError("can not write to config file '<path>'"), whatever
    [clear_load] says: nothing has been cleared or read, the
    configuration, the logger and the file system are as they were. *)
Theorem reload_conf_file_not_writable (clear_load : bool) (st : State) (path : string) :
  conffile (pargs st) = Attr path ->
  conf_rw st = true ->
  os.access (fs st) path os.R_OK = true ->
  (conf_rw_save st || conf_rw_backup st = true ->
   os.access (fs st) (posixpath.dirname path) os.W_OK = true) ->
  os.access (fs st) path os.W_OK = false ->
  exists st',
    reload_conf clear_load st
    = Raise (RuntimeError ("can not write to config file '" +:+ path +:+ "'")) st'
    /\ conf st' = conf st /\ logger st' = logger st /\ fs st' = fs st.
Proof.
  intros Hc Hrw Hr Hd Hw.
  unfold reload_conf. erewrite bind_Ok by reflexivity. rewrite Hc.
  unfold access at 1. erewrite bind_Ok by reflexivity. rewrite Hr. cbn [negb].
  erewrite bind_Ok by reflexivity. cbn [conf_rw sys]. rewrite Hrw.
  unfold mbind at 1, M_bind at 1, bind at 1.
  erewrite bind_Ok by reflexivity. cbn [conf_rw_save conf_rw_backup sys].
  destruct (conf_rw_save st || conf_rw_backup st).
  - unfold access. erewrite bind_Ok by reflexivity. cbn [fs sys].
    rewrite (Hd eq_refl). cbn [negb].
    erewrite bind_Ok by reflexivity. cbn [fs sys]. rewrite Hw. cbn [negb].
    unfold raise. eexists. split; [reflexivity|]. done.
  - erewrite bind_Ok by reflexivity. cbn [negb].
    unfold access. erewrite bind_Ok by reflexivity. cbn [fs sys]. rewrite Hw.
    cbn [negb]. unfold raise. eexists. split; [reflexivity|]. done.
Qed.

Lemma reload_conf_file_not_writable_witness :
  exists st',
    reload_conf true (set_conf sample_conf (set_fs readonly_file_fs sample_state))
    = Raise (RuntimeError ("can not write to config file '" +:+ sample_path +:+ "'")) st'
    /\ conf st' = sample_conf /\ logger st' = logging.root /\ fs st' = readonly_file_fs.
Proof.
  apply (reload_conf_file_not_writable true
           (set_conf sample_conf (set_fs readonly_file_fs sample_state)) sample_path);
    reflexivity.
Defined.

(** X2. Lines 71-75 and 88-90. With write-back off, [reload_conf] asks for
    read access only: a file the process can read is loaded, also when
    neither the file nor its directory can be written. It makes two calls
    into the file system, [os.access(path, R_OK)] and the opening of the
    file, and changes nothing there. *)
Theorem reload_conf_read_only_mode (st : State) (path text : string)
    (c' : configparser.Parser string) :
  conffile (pargs st) = Attr path ->
  conf_rw st = false ->
  os.open_r (fs st) path = inr text ->
  configparser._read text (conf st) = configparser.ReadOk c' ->
  exists st',
    reload_conf false st = Ok tt st'
    /\ conf st' = c'
    /\ fs st' = fs st
    /\ trace st' = (trace st ++ [(CallAccess path os.R_OK, fs st);
                                 (CallOpenR path, fs st)])%list.
Proof.
  intros Hc Hrw Hopen Hread.
  assert (Hr : os.access (fs st) path os.R_OK = true).
  { unfold os.open_r in Hopen. unfold os.access.
    destruct (os.lookup_node (fs st) path) as [[d r w|r w]|]; try done.
    by destruct r. }
  destruct (reload_conf_past_checks false st path Hc)
    as (s & -> & Hfs & Hcs & _ & _ & Htr).
  { unfold checks_pass. by rewrite Hr, Hrw. }
  unfold conf_read. rewrite Hfs, Hopen, Hcs, Hread.
  eexists. split; [reflexivity|]. simpl. rewrite (Htr Hrw), Hfs.
  repeat split; try done. by rewrite <- app_assoc.
Qed.

Lemma reload_conf_read_only_mode_witness :
  exists st',
    reload_conf false (set_flags false true true (set_fs readonly_fs sample_state))
    = Ok tt st'
    /\ conf st' = configparser.mkParser [] [("main", [("name", "x")])]
    /\ fs st' = readonly_fs
    /\ trace st' = ([] ++ [(CallAccess sample_path os.R_OK, readonly_fs);
                           (CallOpenR sample_path, readonly_fs)])%list.
Proof.
  apply (reload_conf_read_only_mode
           (set_flags false true true (set_fs readonly_fs sample_state))
           sample_path sample_text);
    reflexivity.
Defined.

(** X3. Lines 83-90, with [ConfigParser.read] skipping a file it cannot
    open. When the configured path names a directory and the checks pass
    (for a directory [os.access] answers like for a file), [reload_conf]
    returns normally without having read anything: the configuration is
    as it was, or, with [clear_load], has lost all its sections. *)
Theorem reload_conf_skips_directory (clear_load : bool) (st : State) (path : string) :
  conffile (pargs st) = Attr path ->
  os.isdir (fs st) path = true ->
  checks_pass st path = true ->
  exists st',
    reload_conf clear_load st = Ok tt st'
    /\ conf st' = (if clear_load then cleared (conf st) else conf st)
    /\ fs st' = fs st.
Proof.
  intros Hc Hdir Hchk.
  destruct (reload_conf_past_checks clear_load st path Hc Hchk)
    as (s & -> & Hfs & Hcs & _).
  unfold conf_read, os.open_r. rewrite Hfs.
  unfold os.isdir in Hdir.
  destruct (os.lookup_node (fs st) path) as [[d r w|r w]|]; try done.
  simpl. eexists. split; [reflexivity|]. by simpl.
Qed.

Lemma reload_conf_skips_directory_witness :
  exists st',
    reload_conf true (set_conf sample_conf (set_fs dir_at_path_fs sample_state))
    = Ok tt st'
    /\ conf st' = cleared sample_conf
    /\ fs st' = dir_at_path_fs.
Proof.
  apply (reload_conf_skips_directory true
           (set_conf sample_conf (set_fs dir_at_path_fs sample_state)) sample_path);
    reflexivity.
Defined.

(** A blank line or a comment before the first section header is passed
    over. *)
Lemma read_lines_before_header (pre : list string) (n : nat) (st : configparser.rstate) :
  configparser.cursect st = configparser.CurNone ->
  (forall l, l ∈ pre -> line_value l = "") ->
  configparser.read_lines n pre st = inr st.
Proof.
  intros Hcur. revert n. induction pre as [|l pre IH]; intros n Hpre; [done|].
  cbn [configparser.read_lines].
  assert (Hl : configparser.read_line n l st = inr st).
  { unfold configparser.read_line. cbv zeta.
    pose proof (Hpre l (list_elem_of_here _ _)) as Hv. unfold line_value in Hv.
    rewrite Hv. cbn [Py.nonempty negb]. rewrite Hcur. cbn [configparser.is_cur].
    by rewrite andb_false_r. }
  rewrite Hl. apply IH. intros l' Hl'. apply Hpre. by right.
Qed.

(** X4. Lines 88-90 with [ConfigParser._read]. A file in which the first
    line that is neither blank nor a comment is not a section header is
    rejected: [reload_conf] passes on MissingSectionHeaderError with the
    number of that line. *)
Theorem reload_conf_missing_header (clear_load : bool) (st : State)
    (path text line : string) (pre post : list string) :
  conffile (pargs st) = Attr path ->
  checks_pass st path = true ->
  os.open_r (fs st) path = inr text ->
  Py.readlines text = (pre ++ line :: post)%list ->
  (forall l, l ∈ pre -> line_value l = "") ->
  line_value line <> "" ->
  configparser.match_section (line_value line) = None ->
  reload_conf clear_load st = RaiseInRead (MissingSectionHeaderError (S (length pre))).
Proof.
  intros Hc Hchk Hopen Hlines Hpre Hline Hsec.
  destruct (reload_conf_past_checks clear_load st path Hc Hchk)
    as (s & -> & Hfs & Hcs & _).
  unfold conf_read. rewrite Hfs, Hopen.
  unfold configparser._read. rewrite Hlines, read_lines_app.
  rewrite read_lines_before_header by done.
  cbn [configparser.read_lines].
  unfold configparser.read_line. cbv zeta.
  fold (line_value line).
  destruct (line_value line) as [|c0 v] eqn:Hv; [done|].
  cbn [Py.nonempty negb configparser.cursect configparser.is_cur andb].
  rewrite Hsec. done.
Qed.

Lemma reload_conf_missing_header_witness :
  reload_conf false (set_fs (fs_with ("# settings" +:+ nl +:+ nl +:+ "name = x" +:+ nl
                                      +:+ "[main]" +:+ nl)) sample_state)
  = RaiseInRead (MissingSectionHeaderError (S (length ["# settings"; ""]))).
Proof.
  apply (reload_conf_missing_header false _ sample_path
           ("# settings" +:+ nl +:+ nl +:+ "name = x" +:+ nl +:+ "[main]" +:+ nl)
           "name = x" ["# settings"; ""] ["[main]"]);
    try reflexivity.
  - intros l Hl. apply elem_of_cons in Hl as [->|Hl]; [reflexivity|].
    apply list_elem_of_singleton in Hl as ->. reflexivity.
  - discriminate.
Defined.

(** ** save_conf: writing in place, and how it fails *)

Lemma open_out_shape keep (fs0 fs1 : os.FileSystem) (q : string) :
  os.open_out keep fs0 q = inr fs1 ->
  Py.nonempty q = true
  /\ os.cwd fs1 = os.cwd fs0
  /\ exists data r w,
       fs1 = os.set_node q (os.RegFile data r w) fs0
       /\ mode_after_open fs0 q = (r, w)
       /\ (forall old r0 w0, os.lookup_node fs0 q = Some (os.RegFile old r0 w0) ->
                             data = keep old)
       /\ (os.lookup_node fs0 q = None -> data = "").
Proof.
  unfold os.open_out, mode_after_open.
  destruct (os.lookup_node fs0 q) as [[d r w|r w]|] eqn:Hl; try done.
  - destruct w; [|done]. intros [= <-].
    split; [by eapply lookup_node_nonempty|]. split; [done|].
    exists (keep d), r, true. repeat split; try done. by intros old r0 w0 [= <- _ _].
  - destruct (os.check_entry fs0 q) eqn:Hc; [done|]. intros [= <-].
    split; [by eapply check_entry_nonempty|]. split; [done|].
    exists "", true, true. by repeat split.
Qed.

(** X5. Lines 93-106. With write-back on, safe-save and backup off, a
    configured path and a file that [open] accepts for writing,
    [save_conf] writes the file in place: it opens [path] itself for
    writing, which empties it, and then writes the serialised
    configuration. The write is made on a file system where the file is
    already empty (an interruption there leaves neither the old nor the
    new text); afterwards the file holds the new text with the mode it
    had, and no other entry, in particular no [.new] or [.bak] file, has
    been touched. *)
Theorem save_conf_in_place (st : State) (path : string) (fs_open : os.FileSystem) :
  conf_rw st = true ->
  conf_rw_save st = false ->
  conf_rw_backup st = false ->
  conffile (pargs st) = Attr path ->
  os.open_w (fs st) path = inr fs_open ->
  exists st' r w,
    save_conf st = Ok tt st'
    /\ trace st' = (trace st ++
         [(CallOpenW path, fs st);
          (CallWrite path (configparser.write (conf st)), fs_open)])%list
    /\ os.lookup_node fs_open path = Some (os.RegFile "" r w)
    /\ os.lookup_node (fs st') path
       = Some (os.RegFile (configparser.write (conf st)) r w)
    /\ mode_after_open (fs st) path = (r, w)
    /\ forall q, q <> path -> os.lookup_node (fs st') q = os.lookup_node (fs st) q.
Proof.
  intros Hrw Hs Hb Hc Ho.
  destruct (open_out_shape _ _ _ _ Ho) as (Hne & _ & data & r & w & -> & Hmode & Hold & Hnew).
  assert (data = "") as ->.
  { destruct (os.lookup_node (fs st) path) as [[old r0 w0|r0 w0]|] eqn:Hl.
    - by apply (Hold old r0 w0).
    - unfold os.open_w, os.open_out in Ho. by rewrite Hl in Ho.
    - by apply Hnew. }
  unfold save_conf.
  erewrite bind_Ok by reflexivity. rewrite Hrw. cbn [negb].
  erewrite bind_Ok by reflexivity. rewrite Hc.
  erewrite bind_Ok by reflexivity. rewrite Hb. unfold when.
  erewrite mbind_Ok by reflexivity.
  erewrite bind_Ok by reflexivity. rewrite Hs.
  assert (Hrun : open_w path st
                 = Ok path (sys (CallOpenW path)
                                (os.set_node path (os.RegFile "" r w) (fs st)) st))
    by (unfold open_w; by rewrite Ho).
  rewrite (bind_Ok _ _ _ _ _ Hrun).
  unfold conf_write. erewrite bind_Ok by reflexivity.
  unfold fh_write. cbn [fs sys conf].
  rewrite write_set_node by done.
  exists (sys (CallWrite path (configparser.write (conf st)))
              (os.set_node path (os.RegFile (configparser.write (conf st)) r w)
                           (os.set_node path (os.RegFile "" r w) (fs st)))
              (sys (CallOpenW path) (os.set_node path (os.RegFile "" r w) (fs st)) st)),
         r, w.
  split; [reflexivity|]. cbn [trace fs sys]. repeat split.
  - by rewrite <- app_assoc.
  - by rewrite lookup_set_node_eq.
  - by rewrite lookup_set_node_eq.
  - done.
  - intros q Hq. by rewrite !lookup_set_node_ne.
Qed.

Lemma save_conf_in_place_witness :
  exists st' r w,
    save_conf (set_flags true false false (set_conf sample_conf sample_state)) = Ok tt st'
    /\ trace st' = ([] ++
         [(CallOpenW sample_path, sample_fs);
          (CallWrite sample_path (configparser.write sample_conf),
           os.set_node sample_path (os.RegFile "" true true) sample_fs)])%list
    /\ os.lookup_node (os.set_node sample_path (os.RegFile "" true true) sample_fs)
                      sample_path
       = Some (os.RegFile "" r w)
    /\ os.lookup_node (fs st') sample_path
       = Some (os.RegFile (configparser.write sample_conf) r w)
    /\ mode_after_open sample_fs sample_path = (r, w)
    /\ forall q, q <> sample_path ->
                 os.lookup_node (fs st') q = os.lookup_node sample_fs q.
Proof.
  apply (save_conf_in_place
           (set_flags true false false (set_conf sample_conf sample_state))
           sample_path
           (os.set_node sample_path (os.RegFile "" true true) sample_fs));
    reflexivity.
Defined.

(** X6. Lines 97-99. With write-back and backup on, [save_conf] cannot
    create a configuration file that does not exist yet: the copy to
    [path.bak] comes first and raises FileNotFoundError for [path].
    Nothing has been written. *)
Theorem save_conf_backup_missing_file (st : State) (path : string) :
  conf_rw st = true ->
  conf_rw_backup st = true ->
  conffile (pargs st) = Attr path ->
  os.lookup_node (fs st) path = None ->
  exists st',
    save_conf st = Raise (FileNotFoundError path) st'
    /\ fs st' = fs st
    /\ trace st' = (trace st ++ [(CallCopy path (path +:+ ".bak"), fs st)])%list.
Proof.
  intros Hrw Hb Hc Hp.
  unfold save_conf.
  erewrite bind_Ok by reflexivity. rewrite Hrw. cbn [negb].
  erewrite bind_Ok by reflexivity. rewrite Hc.
  erewrite bind_Ok by reflexivity. rewrite Hb. unfold when.
  assert (Hcopy : forall dst, os.copyfile_mode (fs st) path dst
                              = inl (FileNotFoundError path)).
  { intros dst. unfold os.copyfile_mode, os.exists_. rewrite Hp.
    by rewrite andb_false_r. }
  unfold mbind, M_bind, bind, copy, shutil.copy. rewrite Hcopy.
  eexists. split; [reflexivity|]. done.
Qed.

Lemma save_conf_backup_missing_file_witness :
  exists st',
    save_conf (set_conf sample_conf (set_fs no_file_fs sample_state))
    = Raise (FileNotFoundError sample_path) st'
    /\ fs st' = no_file_fs
    /\ trace st' = ([] ++ [(CallCopy sample_path (sample_path +:+ ".bak"), no_file_fs)])%list.
Proof.
  apply (save_conf_backup_missing_file
           (set_conf sample_conf (set_fs no_file_fs sample_state)) sample_path);
    reflexivity.
Defined.

Lemma copyfile_mode_cwd (fs0 fs1 : os.FileSystem) (src dst : string) :
  os.copyfile_mode fs0 src dst = inr fs1 -> os.cwd fs1 = os.cwd fs0.
Proof.
  unfold os.copyfile_mode.
  destruct (bool_decide (src = dst) && os.exists_ fs0 src); [done|].
  destruct (os.lookup_node fs0 src) as [[d r w|r w]|]; try done.
  destruct r; [|done].
  destruct (os.open_w fs0 dst) as [|fs'] eqn:Ho; [done|].
  intros [= <-]. simpl. by apply open_out_again in Ho as [? _].
Qed.

Lemma open_w_refused (fs0 : os.FileSystem) (q : string) :
  os.can_open_w fs0 q = false -> exists err, os.open_w fs0 q = inl err.
Proof.
  unfold os.can_open_w, os.open_w, os.open_out.
  destruct (os.lookup_node fs0 q) as [[d r w|r w]|]; try done.
  - intros ->. eauto.
  - eauto.
Qed.

(** X7. Lines 97-103. A safe save that fails does no harm to the
    configuration file: with safe-save on, in a directory that takes new
    entries, whenever [save_conf] raises (write-back off, no backup
    possible, [path.new] cannot be opened), the entry under [path] is what
    it was before the call. *)
Theorem save_conf_failure_keeps_file (st : State) (path : string) :
  conf_rw_save st = true ->
  conffile (pargs st) = Attr path ->
  os.check_entry (fs st) path = None ->
  os.isdir (fs st) path = false ->
  os.isdir (fs st) (path +:+ ".bak") = false ->
  match save_conf st with
  | Raise _ st' => os.lookup_node (fs st') path = os.lookup_node (fs st) path
  | _ => True
  end.
Proof.
  intros Hs Hc Hce Hnd Hbd.
  set (bak := path +:+ ".bak") in *. set (new := path +:+ ".new").
  assert (Hpb : path <> bak) by (intros Heq; by apply (app_ne_self path ".bak")).
  (* the steps after the backup, from any file system that agrees on the
     entries they look at *)
  assert (Hsteps : forall st1,
    os.cwd (fs st1) = os.cwd (fs st) ->
    (forall q, q <> bak -> os.lookup_node (fs st1) q = os.lookup_node (fs st) q) ->
    match (let* fh := open_w new in conf_write fh;; move new path) st1 with
    | Raise _ st' => os.lookup_node (fs st') path = os.lookup_node (fs st) path
    | _ => True
    end).
  { intros st1 Hcwd Hsame.
    assert (Hce1 : os.check_entry (fs st1) path = None).
    { rewrite <- Hce. apply check_entry_ext; [done|]. apply Hsame.
      intros Heq. apply check_entry_parent in Hce as [r Hr]. rewrite Heq in Hr.
      unfold os.isdir in Hbd. by rewrite Hr in Hbd. }
    assert (Hnd1 : os.isdir (fs st1) path = false).
    { unfold os.isdir in *. by rewrite Hsame. }
    destruct (os.can_open_w (fs st1) new) eqn:Hnew.
    - destruct (safe_save_steps st1 path Hce1 Hnd1 Hnew) as (st' & ? & ? & ? & ? & Hrun & _).
      fold new in Hrun. by rewrite Hrun.
    - destruct (open_w_refused _ _ Hnew) as [err Herr].
      unfold bind, open_w. rewrite Herr. simpl. by apply Hsame. }
  unfold save_conf.
  erewrite bind_Ok by reflexivity.
  destruct (conf_rw st); cbn [negb]; [|done].
  erewrite bind_Ok by reflexivity. rewrite Hc.
  erewrite bind_Ok by reflexivity.
  destruct (conf_rw_backup st); unfold when.
  - unfold mbind at 1, M_bind at 1, bind at 1, copy, shutil.copy.
    fold bak. rewrite Hbd.
    destruct (os.copyfile_mode (fs st) path bak) as [err|fs1] eqn:Hcp; [done|].
    erewrite bind_Ok by reflexivity. cbn [conf_rw_save sys]. rewrite Hs.
    apply Hsteps; cbn [fs sys].
    + by apply copyfile_mode_cwd in Hcp.
    + intros q Hq. by apply (copyfile_mode_only _ _ _ _ Hcp).
  - erewrite mbind_Ok by reflexivity.
    erewrite bind_Ok by reflexivity. rewrite Hs.
    by apply Hsteps.
Qed.

Lemma save_conf_failure_keeps_file_witness :
  exists err st',
    save_conf (set_conf sample_conf (set_fs blocked_new_fs sample_state)) = Raise err st'
    /\ os.lookup_node (fs st') sample_path = os.lookup_node blocked_new_fs sample_path.
Proof.
  pose proof (save_conf_failure_keeps_file
                (set_conf sample_conf (set_fs blocked_new_fs sample_state)) sample_path
                eq_refl eq_refl eq_refl eq_refl eq_refl) as H.
  destruct (save_conf (set_conf sample_conf (set_fs blocked_new_fs sample_state)))
    as [a st'|err st'|err] eqn:Hrun.
  - vm_compute in Hrun. discriminate.
  - by exists err, st'.
  - vm_compute in Hrun. discriminate.
Defined.

(** X8. Lines 93-103, with the fallback of [shutil.move]. With write-back
    on and a configured path, in a directory that takes no new entries,
    with a writable file under [path] and a readable and writable one
    under [path.new] (left over from before), a safe save without backup
    fills [path.new], fails to rename it, copies it over [path] instead
    and then fails to remove it: [save_conf] raises PermissionError for
    [path.new] although the configuration file already holds the new
    text. *)
Theorem save_conf_readonly_directory (st : State) (path data old : string)
    (rd r : bool) :
  conf_rw st = true ->
  conf_rw_save st = true ->
  conf_rw_backup st = false ->
  conffile (pargs st) = Attr path ->
  os.lookup_node (fs st) (posixpath.dirname path) = Some (os.Directory rd false) ->
  os.lookup_node (fs st) path = Some (os.RegFile data r true) ->
  os.lookup_node (fs st) (path +:+ ".new") = Some (os.RegFile old true true) ->
  exists st',
    save_conf st = Raise (PermissionError (path +:+ ".new")) st'
    /\ os.lookup_node (fs st') path
       = Some (os.RegFile (configparser.write (conf st)) true true)
    /\ os.lookup_node (fs st') (path +:+ ".new")
       = Some (os.RegFile (configparser.write (conf st)) true true).
Proof.
  intros Hrw Hs Hb Hc Hd Hp Hn.
  set (new := path +:+ ".new") in *.
  set (text := configparser.write (conf st)).
  assert (Hne : new <> path) by (by apply app_ne_self).
  assert (Hnn : Py.nonempty new = true) by (by eapply lookup_node_nonempty).
  assert (Hpn : Py.nonempty path = true) by (by eapply lookup_node_nonempty).
  assert (Hpar : os.parent (fs st) path = posixpath.dirname path).
  { unfold os.parent. by rewrite (lookup_node_nonempty _ _ _ Hd). }
  assert (Hparn : os.parent (fs st) new = posixpath.dirname path).
  { unfold new. by rewrite parent_app. }
  assert (Hdn : posixpath.dirname path <> new).
  { intros Heq. rewrite Heq in Hd. by rewrite Hd in Hn. }
  assert (Hdp : posixpath.dirname path <> path).
  { intros Heq. rewrite Heq in Hd. by rewrite Hd in Hp. }
  set (fs2 := os.set_node new (os.RegFile "" true true) (fs st)).
  set (fs3 := os.set_node new (os.RegFile text true true) fs2).
  set (fs4 := os.set_node path (os.RegFile text true true)
                (os.set_node path (os.RegFile "" r true) fs3)).
  assert (Hl3n : os.lookup_node fs3 new = Some (os.RegFile text true true))
    by (unfold fs3; by apply lookup_set_node_eq).
  assert (Hl3p : os.lookup_node fs3 path = Some (os.RegFile data r true))
    by (unfold fs3, fs2; by rewrite !lookup_set_node_ne).
  assert (Hl3d : os.lookup_node fs3 (posixpath.dirname path) = Some (os.Directory rd false))
    by (unfold fs3, fs2; by rewrite !lookup_set_node_ne).
  assert (Hc3n : os.check_entry fs3 new = Some (PermissionError new)).
  { unfold os.check_entry. rewrite Hnn.
    change (os.parent fs3 new) with (os.parent (fs st) new). by rewrite Hparn, Hl3d. }
  assert (Hc4n : os.check_entry fs4 new = Some (PermissionError new)).
  { unfold os.check_entry. rewrite Hnn.
    change (os.parent fs4 new) with (os.parent (fs st) new). rewrite Hparn.
    unfold fs4. by rewrite !lookup_set_node_ne, Hl3d by done. }
  assert (Hl4n : os.lookup_node fs4 new = Some (os.RegFile text true true))
    by (unfold fs4; by rewrite !lookup_set_node_ne by done).
  assert (Hmove : shutil.move fs3 new path = inl (PermissionError new, fs4)).
  { unfold shutil.move, os.isdir. rewrite Hl3n, Hl3p. cbn [andb].
    unfold shutil.rename. rewrite Hl3n, Hc3n.
    unfold shutil.copy, os.isdir. rewrite Hl3p.
    unfold os.copyfile_mode.
    rewrite (bool_decide_eq_false_2 (new = path)) by done. cbn [andb].
    rewrite Hl3n. unfold os.open_w, os.open_out. rewrite Hl3p.
    fold fs4. unfold shutil.unlink. by rewrite Hl4n, Hc4n. }
  unfold save_conf.
  erewrite bind_Ok by reflexivity. rewrite Hrw. cbn [negb].
  erewrite bind_Ok by reflexivity. rewrite Hc.
  erewrite bind_Ok by reflexivity. rewrite Hb. unfold when.
  erewrite mbind_Ok by reflexivity.
  erewrite bind_Ok by reflexivity. rewrite Hs. fold new.
  assert (Hrun : open_w new st = Ok new (sys (CallOpenW new) fs2 st)).
  { unfold open_w, os.open_w, os.open_out. by rewrite Hn. }
  rewrite (bind_Ok _ _ _ _ _ Hrun).
  unfold conf_write. erewrite mbind_Ok; cycle 1.
  { erewrite bind_Ok by reflexivity. unfold fh_write. cbn [fs sys conf].
    unfold fs2. rewrite (write_set_node _ _ _ _ _ Hnn). reflexivity. }
  unfold move. cbn [fs sys]. fold fs2 text fs3. rewrite Hmove.
  eexists. split; [reflexivity|]. cbn [fs sys]. split; [|done].
  unfold fs4. by rewrite lookup_set_node_eq.
Qed.

Lemma save_conf_readonly_directory_witness :
  exists st',
    save_conf (set_flags true true false
                 (set_conf sample_conf (set_fs leftover_fs sample_state)))
    = Raise (PermissionError (sample_path +:+ ".new")) st'
    /\ os.lookup_node (fs st') sample_path
       = Some (os.RegFile (configparser.write sample_conf) true true)
    /\ os.lookup_node (fs st') (sample_path +:+ ".new")
       = Some (os.RegFile (configparser.write sample_conf) true true).
Proof.
  apply (save_conf_readonly_directory
           (set_flags true true false
              (set_conf sample_conf (set_fs leftover_fs sample_state)))
           sample_path sample_text "old" true true);
    reflexivity.
Defined.

(** ** reconfigure_logger, startup and cleanup *)

(** X9. Lines 36-50. When the log file cannot be opened,
    [reconfigure_logger] raises what [open] raised, half way: the
    handlers attached before are closed and gone, the only handler
    attached is the new one on the console, and the level has not been
    set, it is the one the logger had. *)
Theorem reconfigure_logger_logfile_error (st : State) (path : string) (err : Exn) :
  logfile (pargs st) = Attr (Some path) ->
  os.open_a (fs st) (abspath (fs st) path) = inl err ->
  exists st' h,
    reconfigure_logger st = Raise err st'
    /\ logging.handlers (logger st') = [h]
    /\ logging.stream h = logging.Stdout
    /\ logging.level (logger st') = logging.level (logger st)
    /\ (forall h0, h0 ∈ logging.handlers (logger st) ->
                   logging.hid h0 ∈ logging.closed (logger st'))
    /\ fs st' = fs st.
Proof.
  intros Hlf Hopen. unfold reconfigure_logger.
  erewrite bind_Ok by reflexivity.
  erewrite mbind_Ok by (by apply clear_handlers).
  erewrite bind_Ok by reflexivity.
  erewrite mbind_Ok by reflexivity.
  erewrite bind_Ok by reflexivity.
  cbn [pargs set_logger logger logging.new_handler fst snd]. rewrite Hlf.
  unfold mbind at 1, M_bind at 1, bind at 1.
  unfold bind at 1, FileHandler. cbn [fs set_logger]. rewrite Hopen.
  eexists _, _. split; [reflexivity|]. cbn [logger sys set_logger fs].
  rewrite addHandler_new by (simpl; apply not_elem_of_nil).
  cbn [logging.handlers logging.level logging.closed app].
  repeat split; try done.
  intros h0 Hh0. apply elem_of_app. left.
  apply list_elem_of_In, in_rev. rewrite rev_involutive.
  apply list_elem_of_In. by apply (list_elem_of_fmap_2 logging.hid).
Qed.

Lemma reconfigure_logger_logfile_error_witness :
  exists st' h,
    reconfigure_logger bad_logfile_state
    = Raise (FileNotFoundError "/nowhere/app.log") st'
    /\ logging.handlers (logger st') = [h]
    /\ logging.stream h = logging.Stdout
    /\ logging.level (logger st') = logging.level (logger bad_logfile_state)
    /\ (forall h0, h0 ∈ logging.handlers (logger bad_logfile_state) ->
                   logging.hid h0 ∈ logging.closed (logger st'))
    /\ fs st' = fs bad_logfile_state.
Proof.
  apply (reconfigure_logger_logfile_error bad_logfile_state "/nowhere/app.log");
    reflexivity.
Defined.

(** [-v] is counted. *)
Lemma parse_args_verbose (argv : list Option_) (ns : Namespace) :
  verbose (fold_left
    (fun ns o =>
       match o with
       | OptInput v => mkNamespace (Attr (Some v)) (logfile ns) (verbose ns) (conffile ns)
       | OptLogfile v => mkNamespace (input ns) (Attr (Some v)) (verbose ns) (conffile ns)
       | OptVerbose => mkNamespace (input ns) (logfile ns) (verbose ns + 1)%Z (conffile ns)
       end) argv ns) = (verbose ns + Z.of_nat (count_verbose argv))%Z.
Proof.
  revert ns. induction argv as [|o argv IH]; intros ns.
  - simpl. lia.
  - cbn [fold_left]. rewrite IH. destruct o; simpl; lia.
Qed.

(** A call that returns has set the level from [pargs.verbose]. *)
Lemma reconfigure_logger_level (st st' : State) :
  reconfigure_logger st = Ok tt st' ->
  logging.level (logger st')
  = (if (verbose (pargs st) =? 1)%Z then logging.INFO
     else if (1 <? verbose (pargs st))%Z then logging.DEBUG
     else logging.WARNING).
Proof.
  unfold reconfigure_logger.
  erewrite bind_Ok by reflexivity.
  erewrite mbind_Ok by (by apply clear_handlers).
  erewrite bind_Ok by reflexivity.
  erewrite mbind_Ok by reflexivity.
  erewrite bind_Ok by reflexivity.
  cbn [pargs set_logger].
  destruct (logfile (pargs st)) as [|[path|]].
  - erewrite mbind_Ok by reflexivity. by intros [= <-].
  - unfold mbind at 1, M_bind at 1, bind at 1.
    unfold bind at 1, FileHandler. cbn [fs set_logger].
    destruct (os.open_a _ _); [done|]. by intros [= <-].
  - erewrite mbind_Ok by reflexivity. by intros [= <-].
Qed.

(** X10. Lines 113-126 with lines 52-59. A start that returns has set the
    level of the root logger from the number of [-v] on the command line:
    WARNING for none, INFO for one, DEBUG for two or more. *)
Theorem startup_level (argv : list Option_) (st st' : State) :
  startup argv st = Ok tt st' ->
  logging.level (logger st')
  = match count_verbose argv with
    | 0 => logging.WARNING
    | 1 => logging.INFO
    | _ => logging.DEBUG
    end.
Proof.
  pose proof (parse_args_verbose argv (mkNamespace (Attr None) (Attr None) 0%Z Absent)) as Hv.
  fold (parse_args argv) in Hv. simpl in Hv.
  pose proof (parse_args_conffile argv (mkNamespace (Attr None) (Attr None) 0%Z Absent)) as Hc.
  fold (parse_args argv) in Hc. simpl in Hc.
  assert (Htail : forall (k : string -> State -> State) s,
    conffile (pargs s) = Absent ->
    verbose (pargs s) = Z.of_nat (count_verbose argv) ->
    match reconfigure_logger s with
    | Ok _ s1 =>
        match conffile (pargs s1) with
        | Absent => mret tt
        | Attr cf => when (negb (Py.nonempty (posixpath.dirname cf)))
                          (fun st0 => Ok tt (k cf st0))
        end s1
    | Raise err s1 => Raise err s1
    | RaiseInRead err => RaiseInRead err
    end = Ok tt st' ->
    logging.level (logger st')
    = match count_verbose argv with
      | 0 => logging.WARNING
      | 1 => logging.INFO
      | _ => logging.DEBUG
      end).
  { intros k s Hs Hvs. pose proof (reconfigure_logger_keeps s) as Hk.
    destruct (reconfigure_logger s) as [[] s1|err s1|err] eqn:Hrun; try discriminate.
    destruct Hk as (_&_&_&_&Hp). rewrite Hp, Hs. simpl.
    intros [= <-]. rewrite (reconfigure_logger_level _ _ Hrun), Hvs.
    destruct (count_verbose argv) as [|[|n]]; [done|done|].
    destruct (Z.eqb_spec (Z.of_nat (S (S n))) 1); [lia|].
    by destruct (Z.ltb_spec 1 (Z.of_nat (S (S n)))); [|lia]. }
  unfold startup, on_pargs, modify, gets, mbind, M_bind, bind. simpl.
  destruct (logfile (parse_args argv)) as [|[lf|]]; simpl.
  - apply (Htail (fun cf st0 => _)); [exact Hc|exact Hv].
  - destruct (negb _); simpl; apply (Htail (fun cf st0 => _)); simpl;
      [exact Hc|exact Hv|exact Hc|exact Hv].
  - apply (Htail (fun cf st0 => _)); [exact Hc|exact Hv].
Qed.

Lemma startup_level_witness :
  logging.level
    (logger (match startup [OptVerbose; OptLogfile "/var/log/app.log"; OptVerbose]
                           (initial logging_fs) with
             | Ok _ s => s
             | _ => initial logging_fs
             end))
  = logging.DEBUG.
Proof.
  apply (startup_level [OptVerbose; OptLogfile "/var/log/app.log"; OptVerbose]
                       (initial logging_fs)).
  vm_compute. reflexivity.
Defined.

(** X11. Lines 88-89. Once the checks have passed, [reload_conf] sends the
    message "loading config file: <path>" at level INFO: each handler
    attached to the logger emits it once when the level of the logger is
    INFO or lower (the program was started with [-v]), and none does
    otherwise. Nothing else is logged, however the reading ends. *)
Theorem reload_conf_log_record (clear_load : bool) (st : State) (path : string) :
  conffile (pargs st) = Attr path ->
  checks_pass st path = true ->
  match reload_conf clear_load st with
  | Ok _ st' | Raise _ st' =>
      logging.records (logger st')
      = (logging.records (logger st)
         ++ info_records ("loading config file: " +:+ path) (logger st))%list
  | RaiseInRead _ => True
  end.
Proof.
  intros Hc Hchk.
  destruct (reload_conf_past_checks clear_load st path Hc Hchk)
    as (s & -> & _ & _ & Hlg & _).
  assert (Hrec : logging.records (logger s)
                 = (logging.records (logger st)
                    ++ info_records ("loading config file: " +:+ path) (logger st))%list).
  { rewrite Hlg. unfold logging.log, info_records.
    destruct (logging.level (logger st) <=? logging.INFO)%nat; [done|].
    by rewrite app_nil_r. }
  unfold conf_read.
  destruct (os.open_r (fs s) path) as [err|text].
  - by destruct (is_OSError err).
  - by destruct (configparser._read text (conf s)).
Qed.

Lemma reload_conf_log_record_witness :
  exists st',
    reload_conf false verbose_state = Ok tt st'
    /\ logging.records (logger st')
       = ([] ++ info_records ("loading config file: " +:+ sample_path)
                             (logger verbose_state))%list.
Proof.
  pose proof (reload_conf_log_record false verbose_state sample_path eq_refl eq_refl) as H.
  destruct (reload_conf false verbose_state) as [[] st'|err st'|err] eqn:Hrun.
  - by exists st'.
  - vm_compute in Hrun. discriminate.
  - vm_compute in Hrun. discriminate.
Defined.

(** X12. Lines 36-50. [reconfigure_logger] leaks no handler: if every
    handler object made so far is attached to the logger or closed, the
    same holds after the call, also when it raises because the log file
    cannot be opened. *)
Theorem reconfigure_logger_accounted (st : State) :
  accounted (logger st) ->
  match reconfigure_logger st with
  | Ok _ st' | Raise _ st' => accounted (logger st')
  | RaiseInRead _ => True
  end.
Proof.
  intros Hacc. unfold reconfigure_logger.
  erewrite bind_Ok by reflexivity.
  erewrite mbind_Ok by (by apply clear_handlers).
  erewrite bind_Ok by reflexivity.
  erewrite mbind_Ok by reflexivity.
  erewrite bind_Ok by reflexivity.
  cbn [pargs set_logger logger logging.new_handler fst snd].
  rewrite addHandler_new by (simpl; apply not_elem_of_nil).
  cbn [logging.handlers logging.level logging.closed logging.next_hid
       logging.records logging.setFormatter logging.hid logging.stream app].
  set (next := logging.next_hid (logger st)).
  set (done_ := (rev (map logging.hid (logging.handlers (logger st)))
                 ++ logging.closed (logger st))%list).
  assert (Hold : forall i, i < next -> i ∈ done_).
  { intros i Hi. unfold done_. apply elem_of_app.
    destruct (Hacc i Hi) as [Hcl|Hat]; [by right|left].
    apply list_elem_of_In, in_rev. rewrite rev_involutive. by apply list_elem_of_In. }
  assert (Hone : forall lvl recs evs,
    accounted (logging.mkLogger [logging.mkHandler next logging.Stdout (Some logformat)]
                                lvl done_ (S next) recs evs)).
  { intros lvl recs evs i Hi. simpl in *.
    destruct (decide (i < next)) as [Hlt|Hge]; [left; by apply Hold|right].
    assert (i = next) as -> by lia. apply list_elem_of_here. }
  destruct (logfile (pargs st)) as [|[path|]].
  - erewrite mbind_Ok by reflexivity. apply Hone.
  - unfold mbind at 1, M_bind at 1, bind at 1.
    unfold bind at 1, FileHandler. cbn [fs set_logger logger].
    destruct (os.open_a _ _) as [err|fs']; [apply Hone|].
    cbn [logger sys set_logger logging.new_handler logging.next_hid fst snd].
    unfold on_logger, modify. cbn [logger set_logger].
    rewrite addHandler_new
      by (simpl; intros Hin; apply list_elem_of_singleton in Hin; lia).
    intros i Hi. simpl in *.
    destruct (decide (i < next)) as [Hlt|Hge]; [left; by apply Hold|right].
    destruct (decide (i = next)) as [->|Hne]; [apply list_elem_of_here|].
    assert (i = S next) as -> by lia. right. apply list_elem_of_here.
  - erewrite mbind_Ok by reflexivity. apply Hone.
Qed.

Lemma reconfigure_logger_accounted_witness :
  exists st', reconfigure_logger logging_state = Ok tt st' /\ accounted (logger st').
Proof.
  assert (Hacc : accounted (logger logging_state)) by (intros i Hi; simpl in Hi; lia).
  pose proof (reconfigure_logger_accounted logging_state Hacc) as H.
  destruct (reconfigure_logger logging_state) as [[] st'|err st'|err] eqn:Hrun.
  - by exists st'.
  - vm_compute in Hrun. discriminate.
  - vm_compute in Hrun. discriminate.
Defined.

Lemma close_handlers (hs : list logging.Handler) (st : State) :
  for_ hs (fun lhandler => on_logger (logging.close lhandler)) st
  = Ok tt (set_logger
             (logging.mkLogger (logging.handlers (logger st)) (logging.level (logger st))
                (rev (map logging.hid hs) ++ logging.closed (logger st))
                (logging.next_hid (logger st)) (logging.records (logger st))
                (logging.events (logger st)
                 ++ map (fun h => logging.Closed (logging.hid h)) hs)) st).
Proof.
  revert st. induction hs as [|h hs IH]; intros st.
  - simpl. unfold mret, M_ret, ret, set_logger. f_equal.
    destruct st as [? ? ? ? lg ? ? ?]. simpl. destruct lg. simpl.
    by rewrite app_nil_r.
  - cbn [for_]. erewrite mbind_Ok by reflexivity. rewrite IH.
    simpl. rewrite set_logger_twice. do 2 f_equal.
    f_equal; by rewrite <- app_assoc.
Qed.

(** X13. Lines 26-29. After [cleanup] no handler is left open: if every
    handler object made so far was attached to the logger or closed,
    every one of them is closed. The handlers stay attached, and nothing
    but the logger has changed. *)
Theorem cleanup_closes_all (st : State) :
  accounted (logger st) ->
  exists st',
    cleanup st = Ok tt st'
    /\ (forall i, i < logging.next_hid (logger st') -> i ∈ logging.closed (logger st'))
    /\ logging.handlers (logger st') = logging.handlers (logger st)
    /\ same_but_logger st st'
    /\ fs st' = fs st.
Proof.
  intros Hacc. unfold cleanup. erewrite bind_Ok by reflexivity.
  rewrite close_handlers. eexists. split; [reflexivity|]. simpl.
  split; [|by repeat split].
  intros i Hi. apply elem_of_app. destruct (Hacc i Hi) as [Hcl|Hat]; [by right|left].
  by rewrite map_rev, rev_involutive.
Qed.

Lemma cleanup_closes_all_witness :
  exists st',
    cleanup verbose_state = Ok tt st'
    /\ (forall i, i < logging.next_hid (logger st') -> i ∈ logging.closed (logger st'))
    /\ logging.handlers (logger st') = logging.handlers (logger verbose_state)
    /\ same_but_logger verbose_state st'
    /\ fs st' = fs verbose_state.
Proof.
  apply (cleanup_closes_all verbose_state).
  intros i Hi. right. simpl in *. assert (i = 0) as -> by lia. apply list_elem_of_here.
Defined.

(** ** What save_conf wrote, read by another parser *)

Section Load.
Import configparser.








(** *** Loading into a parser without sections *)


Lemma dict_set_same {V : Type} (k : string) (v : V) (d : dict.t V) :
  dict.get k d = Some v -> dict.set k v d = d.
Proof.
  induction d as [|[k' v'] d IH]; [done|]. simpl.
  destruct (bool_decide (k' = k)) eqn:Hk.
  - apply bool_decide_eq_true in Hk as ->. by intros [= ->].
  - intros Hg. by rewrite IH.
Qed.










End Load.






(** ** reload_conf lays the file over the configuration in memory *)

Section DictFacts.
Context {V : Type}.
Implicit Types (d a b w : dict.t V) (k q : string).

Lemma dict_get_app k a b :
  dict.get k (a ++ b)%list
  = match dict.get k a with Some v => Some v | None => dict.get k b end.
Proof.
  induction a as [|[k' v'] a IH]; [done|]. simpl.
  by destruct (bool_decide (k' = k)).
Qed.

Lemma dict_mem_app k a b :
  dict.mem k (a ++ b)%list = dict.mem k a || dict.mem k b.
Proof. unfold dict.mem. rewrite dict_get_app. by destruct (dict.get k a). Qed.

Lemma dict_get_set k q (x : V) d :
  dict.get q (dict.set k x d) = if bool_decide (k = q) then Some x else dict.get q d.
Proof.
  induction d as [|[k' v'] d IH]; simpl.
  - by destruct (bool_decide (k = q)).
  - destruct (bool_decide (k' = k)) eqn:Hk; simpl.
    + apply bool_decide_eq_true in Hk as ->. by destruct (bool_decide (k = q)).
    + destruct (bool_decide (k' = q)) eqn:Hq; [|done].
      apply bool_decide_eq_true in Hq as ->. apply bool_decide_eq_false in Hk.
      by rewrite bool_decide_eq_false_2 by done.
Qed.

Lemma dict_get_update k q (f : V -> V) d :
  dict.get q (dict.update k f d)
  = if bool_decide (k = q) then f <$> dict.get q d else dict.get q d.
Proof.
  induction d as [|[k' v'] d IH]; simpl; [by destruct (bool_decide _)|].
  destruct (bool_decide (k' = k)) eqn:Hk; simpl.
  - apply bool_decide_eq_true in Hk as ->. by destruct (bool_decide (k = q)).
  - apply bool_decide_eq_false in Hk.
    destruct (bool_decide (k' = q)) eqn:Hq; [|done].
    apply bool_decide_eq_true in Hq as ->.
    by rewrite bool_decide_eq_false_2 by done.
Qed.

Lemma dict_mem_set k q (x : V) d :
  dict.mem q (dict.set k x d) = bool_decide (k = q) || dict.mem q d.
Proof. unfold dict.mem. rewrite dict_get_set. by destruct (bool_decide (k = q)). Qed.

Lemma dict_mem_update k q (f : V -> V) d :
  dict.mem q (dict.update k f d) = dict.mem q d.
Proof.
  unfold dict.mem. rewrite dict_get_update.
  destruct (bool_decide (k = q)); [|done]. by destruct (dict.get q d).
Qed.

Lemma dict_update_absent k (f : V -> V) d :
  dict.mem k d = false -> dict.update k f d = d.
Proof.
  unfold dict.mem. induction d as [|[k' v'] d IH]; [done|]. simpl.
  destruct (bool_decide (k' = k)); [done|]. intros H. by rewrite IH.
Qed.

Lemma dict_set_app_l k (x : V) a b :
  dict.mem k a = true -> dict.set k x (a ++ b)%list = (dict.set k x a ++ b)%list.
Proof.
  unfold dict.mem. induction a as [|[k' v'] a IH]; [done|]. simpl.
  destruct (bool_decide (k' = k)); [done|]. intros H. simpl. by rewrite IH.
Qed.

Lemma dict_set_app_r k (x : V) a b :
  dict.mem k a = false -> dict.set k x (a ++ b)%list = (a ++ dict.set k x b)%list.
Proof.
  unfold dict.mem. induction a as [|[k' v'] a IH]; [done|]. simpl.
  destruct (bool_decide (k' = k)); [done|]. intros H. simpl. by rewrite IH.
Qed.

Lemma dict_update_app_l k (f : V -> V) a b :
  dict.mem k a = true -> dict.update k f (a ++ b)%list = (dict.update k f a ++ b)%list.
Proof.
  unfold dict.mem. induction a as [|[k' v'] a IH]; [done|]. simpl.
  destruct (bool_decide (k' = k)); [done|]. intros H. simpl. by rewrite IH.
Qed.

Lemma dict_update_app_r k (f : V -> V) a b :
  dict.mem k a = false -> dict.update k f (a ++ b)%list = (a ++ dict.update k f b)%list.
Proof.
  unfold dict.mem. induction a as [|[k' v'] a IH]; [done|]. simpl.
  destruct (bool_decide (k' = k)); [done|]. intros H. simpl. by rewrite IH.
Qed.

(** A change of the values, entry by entry. *)
Lemma dict_get_map_key (G : string * V -> V) k d :
  dict.get k (map (fun kv => (fst kv, G kv)) d)
  = match dict.get k d with Some v => Some (G (k, v)) | None => None end.
Proof.
  induction d as [|[k' v'] d IH]; [done|]. simpl.
  destruct (bool_decide (k' = k)) eqn:Hk; [|done].
  by apply bool_decide_eq_true in Hk as ->.
Qed.

Lemma dict_mem_map_key (G : string * V -> V) k d :
  dict.mem k (map (fun kv => (fst kv, G kv)) d) = dict.mem k d.
Proof. unfold dict.mem. rewrite dict_get_map_key. by destruct (dict.get k d). Qed.

Lemma dict_keys_map_key (G : string * V -> V) d :
  dict.keys (map (fun kv => (fst kv, G kv)) d) = dict.keys d.
Proof. unfold dict.keys. rewrite map_map. by apply map_ext. Qed.

Lemma dict_set_map_key (G : string * V -> V) k (x : V) d :
  NoDup (dict.keys d) ->
  dict.mem k d = true ->
  dict.set k x (map (fun kv => (fst kv, G kv)) d)
  = map (fun kv => (fst kv, if bool_decide (fst kv = k) then x else G kv)) d.
Proof.
  unfold dict.mem. induction d as [|[k' v'] d IH]; [done|]. simpl.
  intros Hnd%NoDup_cons. destruct Hnd as [Hk' Hnd].
  destruct (bool_decide (k' = k)) eqn:Hk.
  - apply bool_decide_eq_true in Hk as ->. intros _. f_equal.
    apply map_ext_in. intros [k2 v2] Hin. simpl.
    rewrite bool_decide_eq_false_2; [done|].
    intros ->. apply Hk'. apply list_elem_of_In in Hin.
    by apply (list_elem_of_fmap_2 fst _ (k, v2)).
  - intros Hm. f_equal. by apply IH.
Qed.

Lemma dict_update_map_key (G : string * V -> V) k (f : V -> V) d :
  NoDup (dict.keys d) ->
  dict.update k f (map (fun kv => (fst kv, G kv)) d)
  = map (fun kv => (fst kv, if bool_decide (fst kv = k) then f (G kv) else G kv)) d.
Proof.
  induction d as [|[k' v'] d IH]; [done|]. simpl.
  intros Hnd%NoDup_cons. destruct Hnd as [Hk' Hnd].
  destruct (bool_decide (k' = k)) eqn:Hk.
  - apply bool_decide_eq_true in Hk as ->. f_equal.
    apply map_ext_in. intros [k2 v2] Hin. simpl.
    rewrite bool_decide_eq_false_2; [done|].
    intros ->. apply Hk'. apply list_elem_of_In in Hin.
    by apply (list_elem_of_fmap_2 fst _ (k, v2)).
  - f_equal. by apply IH.
Qed.

(** A choice of entries by their keys. *)
Lemma dict_filter_set_in (P : string -> bool) k (x : V) w :
  P k = true ->
  List.filter (fun kv => P (fst kv)) (dict.set k x w)
  = dict.set k x (List.filter (fun kv => P (fst kv)) w).
Proof.
  intros HP. induction w as [|[k' v'] w IH]; simpl.
  - by rewrite HP.
  - destruct (bool_decide (k' = k)) eqn:Hk; simpl.
    + apply bool_decide_eq_true in Hk as ->. rewrite HP. simpl.
      by rewrite bool_decide_eq_true_2.
    + destruct (P k'); simpl; [|done]. by rewrite Hk, IH.
Qed.

Lemma dict_filter_set_out (P : string -> bool) k (x : V) w :
  P k = false ->
  List.filter (fun kv => P (fst kv)) (dict.set k x w)
  = List.filter (fun kv => P (fst kv)) w.
Proof.
  intros HP. induction w as [|[k' v'] w IH]; simpl.
  - by rewrite HP.
  - destruct (bool_decide (k' = k)) eqn:Hk; simpl.
    + apply bool_decide_eq_true in Hk as ->. by rewrite HP.
    + by rewrite IH.
Qed.

Lemma dict_mem_filter (P : string -> bool) k w :
  dict.mem k (List.filter (fun kv => P (fst kv)) w) = P k && dict.mem k w.
Proof.
  unfold dict.mem. induction w as [|[k' v'] w IH]; simpl.
  - by rewrite andb_false_r.
  - destruct (bool_decide (k' = k)) eqn:Hk.
    + apply bool_decide_eq_true in Hk as ->.
      destruct (P k) eqn:HP; simpl.
      * by rewrite bool_decide_eq_true_2.
      * by rewrite IH.
    + destruct (P k'); simpl; [by rewrite Hk|done].
Qed.

Lemma dict_filter_update (P : string -> bool) k (f : V -> V) w :
  List.filter (fun kv => P (fst kv)) (dict.update k f w)
  = dict.update k f (List.filter (fun kv => P (fst kv)) w).
Proof.
  induction w as [|[k' v'] w IH]; simpl; [done|].
  destruct (bool_decide (k' = k)) eqn:Hk; simpl.
  - destruct (P k') eqn:HP; simpl; [by rewrite Hk|].
    apply bool_decide_eq_true in Hk as ->.
    by rewrite dict_update_absent by (by rewrite dict_mem_filter, HP).
  - destruct (P k'); simpl; [by rewrite Hk, IH|done].
Qed.

End DictFacts.

Section OverlayFacts.
Context {V : Type}.
Implicit Types (w : dict.t V) (k : string) (comb : V -> V -> V).

Lemma dict_get_filter (P : string -> bool) k w :
  dict.get k (List.filter (fun kv => P (fst kv)) w)
  = if P k then dict.get k w else None.
Proof.
  induction w as [|[k' v'] w IH]; simpl.
  - by destruct (P k).
  - destruct (bool_decide (k' = k)) eqn:Hk.
    + apply bool_decide_eq_true in Hk as ->.
      destruct (P k) eqn:HP; simpl.
      * by rewrite bool_decide_eq_true_2.
      * by rewrite IH.
    + destruct (P k'); simpl; [by rewrite Hk|done].
Qed.

Lemma overlay_with_nil comb (d0 : dict.t V) : overlay_with comb [] d0 = d0.
Proof.
  unfold overlay_with. simpl. rewrite app_nil_r.
  induction d0 as [|[k v] d0 IH]; [done|]. simpl. by rewrite IH.
Qed.

Lemma overlay_with_mem comb k w (d0 : dict.t V) :
  dict.mem k (overlay_with comb w d0) = dict.mem k d0 || dict.mem k w.
Proof.
  unfold overlay_with.
  rewrite dict_mem_app, dict_mem_map_key.
  rewrite (dict_mem_filter (fun q => negb (dict.mem q d0))).
  by destruct (dict.mem k d0), (dict.mem k w).
Qed.

Lemma overlay_with_get comb k w (d0 : dict.t V) :
  dict.get k (overlay_with comb w d0)
  = match dict.get k d0, dict.get k w with
    | Some v0, Some v => Some (comb v v0)
    | Some v0, None => Some v0
    | None, r => r
    end.
Proof.
  unfold overlay_with. rewrite dict_get_app, dict_get_map_key.
  destruct (dict.get k d0) as [v0|] eqn:H0; [cbn [fst snd]; by destruct (dict.get k w)|].
  rewrite (dict_get_filter (fun q => negb (dict.mem q d0))).
  unfold dict.mem. by rewrite H0.
Qed.

(** An assignment to the upper dictionary is an assignment to the whole. *)
Lemma overlay_with_set comb k (x : V) w (d0 : dict.t V) :
  NoDup (dict.keys d0) ->
  overlay_with comb (dict.set k x w) d0
  = match dict.get k d0 with
    | Some v0 => dict.set k (comb x v0) (overlay_with comb w d0)
    | None => dict.set k x (overlay_with comb w d0)
    end.
Proof.
  intros Hnd. unfold overlay_with.
  destruct (dict.get k d0) as [v0|] eqn:H0.
  - assert (Hm : dict.mem k d0 = true) by (unfold dict.mem; by rewrite H0).
    rewrite dict_set_app_l by (by rewrite dict_mem_map_key).
    rewrite dict_set_map_key by done.
    rewrite (dict_filter_set_out (fun q => negb (dict.mem q d0))) by (by rewrite Hm).
    f_equal. apply map_ext_in. intros [k' v'] Hin. cbn [fst snd].
    rewrite dict_get_set.
    destruct (bool_decide (k = k')) eqn:Hk.
    + apply bool_decide_eq_true in Hk as <-.
      rewrite bool_decide_eq_true_2 by done.
      apply list_elem_of_In in Hin.
      rewrite (dict_get_elem k v' d0 Hnd Hin) in H0. by injection H0 as ->.
    + apply bool_decide_eq_false in Hk.
      by rewrite bool_decide_eq_false_2 by done.
  - assert (Hm : dict.mem k d0 = false) by (unfold dict.mem; by rewrite H0).
    rewrite dict_set_app_r by (by rewrite dict_mem_map_key).
    rewrite (dict_filter_set_in (fun q => negb (dict.mem q d0))) by (by rewrite Hm).
    f_equal. apply map_ext_in. intros [k' v'] Hin. cbn [fst snd].
    rewrite dict_get_set.
    rewrite bool_decide_eq_false_2; [done|].
    intros <-. apply list_elem_of_In in Hin.
    by rewrite (dict_get_elem k v' d0 Hnd Hin) in H0.
Qed.

(** A change of a value in the upper dictionary is the same change in
    the whole, where the change goes through [comb] and leaves alone what
    the upper dictionary does not hold. *)
Lemma overlay_with_update comb k (g : V -> V) w (d0 : dict.t V) :
  NoDup (dict.keys d0) ->
  (forall v v0, dict.get k d0 = Some v0 -> comb (g v) v0 = g (comb v v0)) ->
  (dict.mem k w = false -> forall v0, dict.get k d0 = Some v0 -> g v0 = v0) ->
  overlay_with comb (dict.update k g w) d0
  = dict.update k g (overlay_with comb w d0).
Proof.
  intros Hnd Hcomb Hid. unfold overlay_with.
  rewrite (dict_filter_update (fun q => negb (dict.mem q d0))).
  destruct (dict.mem k d0) eqn:Hm.
  - rewrite dict_update_app_l by (by rewrite dict_mem_map_key).
    rewrite dict_update_map_key by done.
    rewrite (dict_update_absent k g
               (List.filter (fun kv => negb (dict.mem (fst kv) d0)) w))
      by (by rewrite (dict_mem_filter (fun q => negb (dict.mem q d0))), Hm).
    f_equal. apply map_ext_in. intros [k' v'] Hin. cbn [fst snd].
    rewrite dict_get_update.
    destruct (bool_decide (k = k')) eqn:Hk.
    + apply bool_decide_eq_true in Hk as <-.
      rewrite bool_decide_eq_true_2 by done.
      apply list_elem_of_In in Hin.
      pose proof (dict_get_elem k v' d0 Hnd Hin) as H0.
      destruct (dict.get k w) as [v|] eqn:Hw; simpl.
      * f_equal. by apply Hcomb.
      * f_equal. symmetry. apply Hid; [|done]. unfold dict.mem. by rewrite Hw.
    + apply bool_decide_eq_false in Hk.
      by rewrite bool_decide_eq_false_2 by done.
  - rewrite dict_update_app_r by (by rewrite dict_mem_map_key).
    f_equal. apply map_ext_in. intros [k' v'] Hin. cbn [fst snd].
    rewrite dict_get_update.
    rewrite bool_decide_eq_false_2; [done|].
    intros <-. apply list_elem_of_In in Hin.
    unfold dict.mem in Hm. by rewrite (dict_get_elem k v' d0 Hnd Hin) in Hm.
Qed.

End OverlayFacts.

Lemma overlay_dict_set {V : Type} (k : string) (x : V) (w d0 : dict.t V) :
  NoDup (dict.keys d0) ->
  overlay_dict (dict.set k x w) d0 = dict.set k x (overlay_dict w d0).
Proof.
  intros Hnd. unfold overlay_dict. rewrite overlay_with_set by done.
  by destruct (dict.get k d0).
Qed.

Lemma overlay_dict_update {V : Type} (k : string) (g : V -> V) (w d0 : dict.t V) :
  NoDup (dict.keys d0) ->
  (dict.mem k w = false -> forall v0, dict.get k d0 = Some v0 -> g v0 = v0) ->
  overlay_dict (dict.update k g w) d0 = dict.update k g (overlay_dict w d0).
Proof.
  intros Hnd Hid. unfold overlay_dict. by apply overlay_with_update.
Qed.

(** A change of all values goes through the overlay. *)
Lemma overlay_with_map_values {V W : Type} (f : V -> W)
    (comb : V -> V -> V) (comb' : W -> W -> W) (w d0 : dict.t V) :
  (forall v v0, f (comb v v0) = comb' (f v) (f v0)) ->
  dict.map_values f (overlay_with comb w d0)
  = overlay_with comb' (dict.map_values f w) (dict.map_values f d0).
Proof.
  intros Hf. unfold overlay_with, dict.map_values.
  rewrite map_app, !map_map. f_equal.
  - apply map_ext. intros [k v]. cbn [fst snd].
    change (map (fun kv => (fst kv, f (snd kv))) w) with (dict.map_values f w).
    rewrite map_values_get. destruct (dict.get k w); simpl; [by rewrite Hf|done].
  - induction w as [|[k v] w IH]; [done|]. simpl.
    change (map (fun kv => (fst kv, f (snd kv))) d0) with (dict.map_values f d0).
    rewrite map_values_mem.
    destruct (negb (dict.mem k d0)); simpl; by rewrite IH.
Qed.

Lemma dict_get_in {V : Type} (k : string) (v : V) (d : dict.t V) :
  dict.get k d = Some v -> (k, v) ∈ d.
Proof.
  induction d as [|[k' v'] d IH]; [done|]. simpl.
  destruct (bool_decide (k' = k)) eqn:Hk.
  - apply bool_decide_eq_true in Hk as ->. intros [= ->]. by left.
  - intros H. right. by apply IH.
Qed.

Section Simulation.
Import configparser.

(** The parser the file is read into, as the read loop finds it: well
    formed, and with values that are not lists of lines. *)
Context (c0 : Parser optval).
Context (Hwf : well_formed c0).
Context (Hstr_defaults : forall k v x,
           dict.get k (_defaults c0) = Some v -> append_line x v = v).
Context (Hstr_sections : forall s d k v x,
           dict.get s (_sections c0) = Some d -> dict.get k d = Some v ->
           append_line x v = v).

Lemma section_NoDup (s : string) (d : dict.t optval) :
  dict.get s (_sections c0) = Some d -> NoDup (dict.keys d).
Proof.
  intros Hs. destruct Hwf as (_ & _ & Hsec & _).
  by apply (Hsec (s, d)), dict_get_in.
Qed.

Lemma overlay_cur_set (cur : cursect_ref) (o : string) (x : optval) (w : Parser optval) :
  (forall s, cur = CurSection s -> dict.mem s (_sections w) = true) ->
  overlay (cur_set cur o x w) c0 = cur_set cur o x (overlay w c0).
Proof.
  intros Hcur. destruct Hwf as (Hd & Hs & Hsec & _).
  destruct cur as [| |s]; unfold overlay, cur_set; cbn [_defaults _sections]; [done| |].
  - by rewrite overlay_dict_set.
  - f_equal. apply overlay_with_update; [done| |].
    + intros v v0 H0. apply overlay_dict_set. by apply (section_NoDup s).
    + intros Hm. by rewrite (Hcur s eq_refl) in Hm.
Qed.

Lemma overlay_cur_append (cur : cursect_ref) (o x : string) (w : Parser optval) :
  (forall s, cur = CurSection s -> dict.mem s (_sections w) = true) ->
  overlay (cur_append cur o x w) c0 = cur_append cur o x (overlay w c0).
Proof.
  intros Hcur. destruct Hwf as (Hd & Hs & Hsec & _).
  destruct cur as [| |s]; unfold overlay, cur_append; cbn [_defaults _sections]; [done| |].
  - rewrite overlay_dict_update; [done|done|].
    intros _ v0 H0. by apply (Hstr_defaults o).
  - f_equal. apply overlay_with_update; [done| |].
    + intros v v0 H0. apply overlay_dict_update; [by apply (section_NoDup s)|].
      intros _ v1 H1. by apply (Hstr_sections s v0 o).
    + intros Hm. by rewrite (Hcur s eq_refl) in Hm.
Qed.

Lemma mem_sections_cur_set (cur : cursect_ref) (o : string) (x : optval)
    (w : Parser optval) (q : string) :
  dict.mem q (_sections (cur_set cur o x w)) = dict.mem q (_sections w).
Proof. destruct cur; simpl; [done|done|]. by rewrite dict_mem_update. Qed.

Lemma mem_sections_cur_append (cur : cursect_ref) (o x : string)
    (w : Parser optval) (q : string) :
  dict.mem q (_sections (cur_append cur o x w)) = dict.mem q (_sections w).
Proof. destruct cur; simpl; [done|done|]. by rewrite dict_mem_update. Qed.

(** A header the new parser has not seen: the section is made there; in
    the other parser it is made too, or it was there from before. *)
Lemma overlay_new_section (h : string) (w : Parser optval) :
  dict.mem h (_sections w) = false ->
  overlay (mkParser (_defaults w) (dict.set h [] (_sections w))) c0
  = if dict.mem h (_sections c0) then overlay w c0
    else mkParser (_defaults (overlay w c0))
                  (dict.set h [] (_sections (overlay w c0))).
Proof.
  intros Hw. destruct Hwf as (Hd & Hs & Hsec & _).
  unfold overlay. cbn [_defaults _sections]. rewrite overlay_with_set by done.
  unfold dict.mem in *.
  destruct (dict.get h (_sections c0)) as [d0|] eqn:H0; [|done].
  f_equal. apply dict_set_same. rewrite overlay_with_get, H0.
  destruct (dict.get h (_sections w)); [done|].
  unfold overlay_dict. by rewrite overlay_with_nil.
Qed.

Lemma read_line_overlaid (n : nat) (line : string) (stA stB : rstate) :
  overlaid c0 stA stB ->
  overlaid_outcome c0 (read_line n line stA) (read_line n line stB).
Proof.
  destruct stA as [cpA cA snA oA iA elA eA].
  destruct stB as [cpB cB snB oB iB elB eB].
  intros (Hcp & Hc & Hsn & Ho & Hi & Hel & He & Hsec & Hcur). simpl in *. subst.
  assert (Hcur' : forall s, cB = CurSection s -> dict.mem s (_sections cpB) = true)
    by exact Hcur.
  unfold read_line. cbv zeta.
  cbn [cp cursect sectname optname indent_level elements_added e].
  destruct (negb (Py.nonempty _)).
  { destruct (_ && _ && _).
    - unfold overlaid_outcome, overlaid. cbn [cp cursect sectname optname indent_level
                                            elements_added e].
      split; [by rewrite overlay_cur_append|]. repeat split; try done.
      + intros s Hs. rewrite mem_sections_cur_append. by apply Hsec.
      + intros s Hs. rewrite mem_sections_cur_append. by apply Hcur.
    - unfold overlaid_outcome, overlaid. by repeat split. }
  destruct (_ && _ && _).
  { unfold overlaid_outcome, overlaid. cbn [cp cursect sectname optname indent_level
                                          elements_added e].
    split; [by rewrite overlay_cur_append|]. repeat split; try done.
    + intros s Hs. rewrite mem_sections_cur_append. by apply Hsec.
    + intros s Hs. rewrite mem_sections_cur_append. by apply Hcur. }
  destruct (match_section _) as [h|].
  { assert (HmA : dict.mem h (_sections (overlay cpB c0))
                  = dict.mem h (_sections c0) || dict.mem h (_sections cpB)).
    { unfold overlay. cbn [_sections]. by rewrite overlay_with_mem. }
    rewrite HmA.
    destruct (dict.mem h (_sections cpB)) eqn:HmB.
    - rewrite orb_true_r.
      destruct (bool_decide (ElSection h ∈ elB)); [done|].
      unfold overlaid_outcome, overlaid. cbn [cp cursect sectname optname indent_level
                                              elements_added e].
      repeat split; try done.
      + intros s Hs. apply elem_of_cons in Hs as [[= ->]|Hs]; [done|by apply Hsec].
      + by intros s [= ->].
    - rewrite orb_false_r.
      destruct (dict.mem h (_sections c0)) eqn:Hm0.
      + (* in memory from before, new to the file *)
        rewrite bool_decide_eq_false_2
          by (intros Hin; apply Hsec in Hin; by rewrite HmB in Hin).
        rewrite bool_decide_eq_false_2.
        2:{ intros ->. destruct Hwf as (_ & _ & _ & Hnd). by rewrite Hnd in Hm0. }
        unfold overlaid_outcome, overlaid. cbn [cp cursect sectname optname indent_level
                                                elements_added e].
        split; [by rewrite overlay_new_section, Hm0|].
        repeat split; try done.
        * intros s Hs. cbn [_sections]. rewrite dict_mem_set.
          apply elem_of_cons in Hs as [[= ->]|Hs].
          -- by rewrite bool_decide_eq_true_2.
          -- rewrite (Hsec s Hs). by rewrite orb_true_r.
        * intros s [= ->]. cbn [_sections]. rewrite dict_mem_set. by rewrite bool_decide_eq_true_2.
      + destruct (bool_decide (h = default_section)).
        * unfold overlaid_outcome, overlaid. by repeat split.
        * unfold overlaid_outcome, overlaid. cbn [cp cursect sectname optname indent_level
                                                  elements_added e].
          split; [by rewrite overlay_new_section, Hm0|].
          repeat split; try done.
          -- intros s Hs. cbn [_sections]. rewrite dict_mem_set.
             apply elem_of_cons in Hs as [[= ->]|Hs].
             ++ by rewrite bool_decide_eq_true_2.
             ++ rewrite (Hsec s Hs). by rewrite orb_true_r.
          -- intros s [= ->]. cbn [_sections]. rewrite dict_mem_set. by rewrite bool_decide_eq_true_2. }
  destruct (negb (is_cur cB)); [done|].
  destruct (match_option _) as [[o ov]|].
  - destruct (bool_decide _); [done|].
    unfold overlaid_outcome, overlaid. cbn [cp cursect sectname optname indent_level
                                            elements_added e].
    split; [by rewrite overlay_cur_set|]. repeat split; try done.
    + intros s Hs. rewrite mem_sections_cur_set.
      apply elem_of_cons in Hs as [[=]|Hs]. by apply Hsec.
    + intros s Hs. rewrite mem_sections_cur_set. by apply Hcur.
  - unfold overlaid_outcome, overlaid. by repeat split.
Qed.

Lemma read_lines_overlaid (lines : list string) (n : nat) (stA stB : rstate) :
  overlaid c0 stA stB ->
  overlaid_outcome c0 (read_lines n lines stA) (read_lines n lines stB).
Proof.
  revert n stA stB. induction lines as [|line lines IH]; intros n stA stB Hs.
  - done.
  - simpl. pose proof (read_line_overlaid n line stA stB Hs) as H.
    destruct (read_line n line stA), (read_line n line stB); try done.
    by apply IH.
Qed.

End Simulation.

Section Overlay.
Import configparser.

Lemma join_overlay (w c0 : Parser optval) :
  _join_multiline_values (overlay w c0)
  = overlay (_join_multiline_values w) (_join_multiline_values c0).
Proof.
  unfold _join_multiline_values, overlay. cbn [_defaults _sections]. f_equal.
  - unfold overlay_dict. by apply overlay_with_map_values.
  - apply overlay_with_map_values. intros v v0.
    unfold overlay_dict. by apply overlay_with_map_values.
Qed.

Lemma well_formed_in_memory (c : Parser string) :
  well_formed c -> well_formed (in_memory c).
Proof.
  intros (Hd & Hs & Hsec & Hdef). unfold well_formed, in_memory.
  cbn [_defaults _sections]. rewrite !map_values_keys, map_values_mem.
  repeat split; try done.
  intros [s d] Hin. unfold dict.map_values in Hin.
  apply list_elem_of_fmap_1 in Hin as ([s0 d1] & [= -> ->] & Hin). cbn [fst snd].
  change (map (fun kv => (fst kv, Str (snd kv))) d1) with (dict.map_values Str d1).
  rewrite map_values_keys. by apply (Hsec (s0, d1)).
Qed.

(** Reading a file into a parser that holds [c] takes the course of
    reading it into a new parser, and leaves what the new parser gets
    laid over [c]. *)
Lemma _read_overlay (text : string) (c : Parser string) :
  well_formed c ->
  match _read text empty with
  | ReadOk cf => _read text c = ReadOk (overlay cf c)
  | ReadParsingError err cf => _read text c = ReadParsingError err (overlay cf c)
  | ReadAborted err => _read text c = ReadAborted err
  end.
Proof.
  intros Hwf. unfold _read.
  set (stA := mkR (in_memory c) CurNone "" None 0 [] []).
  set (stB := mkR (in_memory empty) CurNone "" None 0 [] []).
  assert (Hsim : overlaid (in_memory c) stA stB).
  { unfold overlaid, stA, stB. cbn [cp cursect sectname optname indent_level
                                    elements_added e].
    split.
    { change (in_memory empty) with (@mkParser optval [] []).
      unfold overlay, overlay_dict. cbn [_defaults _sections].
      rewrite !overlay_with_nil. by destruct (in_memory c). }
    repeat split; try done.
    intros s Hs. by apply elem_of_nil in Hs. }
  pose proof (read_lines_overlaid (in_memory c) (well_formed_in_memory c Hwf)) as Hrun.
  specialize (Hrun ltac:(
    intros k v x; unfold in_memory; cbn [_defaults]; rewrite map_values_get;
    destruct (dict.get k (_defaults c)); [by intros [= <-]|done])).
  specialize (Hrun ltac:(
    intros s d k v x; unfold in_memory; cbn [_sections]; rewrite map_values_get;
    destruct (dict.get s (_sections c)) as [d1|]; [|done];
    intros [= <-]; rewrite map_values_get;
    destruct (dict.get k d1); [by intros [= <-]|done])).
  specialize (Hrun (Py.readlines text) 1 stA stB Hsim).
  destruct (read_lines 1 (Py.readlines text) stA) as [errA|stA'],
           (read_lines 1 (Py.readlines text) stB) as [errB|stB']; try done.
  - by rewrite Hrun.
  - destruct Hrun as (Hcp & _ & _ & _ & _ & _ & He & _).
    rewrite He, Hcp, join_overlay, join_in_memory.
    by destruct (e stB').
Qed.

(** *** Reading keeps a parser well formed *)

Lemma dict_keys_update {V : Type} (k : string) (f : V -> V) (d : dict.t V) :
  dict.keys (dict.update k f d) = dict.keys d.
Proof.
  induction d as [|[k' v'] d IH]; [done|]. simpl.
  destruct (bool_decide (k' = k)); simpl; [done|]. by rewrite IH.
Qed.

Lemma dict_keys_set {V : Type} (k : string) (x : V) (d : dict.t V) :
  dict.keys (dict.set k x d)
  = if dict.mem k d then dict.keys d else (dict.keys d ++ [k])%list.
Proof.
  unfold dict.mem. induction d as [|[k' v'] d IH]; [done|]. simpl.
  destruct (bool_decide (k' = k)) eqn:Hk; simpl.
  - by apply bool_decide_eq_true in Hk as ->.
  - rewrite IH. by destruct (dict.get k d).
Qed.

Lemma dict_set_NoDup {V : Type} (k : string) (x : V) (d : dict.t V) :
  NoDup (dict.keys d) -> NoDup (dict.keys (dict.set k x d)).
Proof.
  intros Hnd. rewrite dict_keys_set.
  destruct (dict.mem k d) eqn:Hm; [done|].
  apply NoDup_app. split; [done|]. split; [|apply NoDup_singleton].
  intros q Hq Hin. apply list_elem_of_singleton in Hin as ->.
  apply dict_mem_keys in Hq. by rewrite Hq in Hm.
Qed.

Lemma elem_of_dict_set {V : Type} (k : string) (x : V) (d : dict.t V) (kv : string * V) :
  kv ∈ dict.set k x d -> kv ∈ d \/ kv = (k, x).
Proof.
  induction d as [|[k' v'] d IH]; simpl.
  - intros H. apply list_elem_of_singleton in H. by right.
  - destruct (bool_decide (k' = k)).
    + intros H. apply elem_of_cons in H as [->|H]; [by right|]. left. by right.
    + intros H. apply elem_of_cons in H as [->|H]; [left; by left|].
      destruct (IH H) as [?|?]; [left; by right|by right].
Qed.

Lemma elem_of_dict_update {V : Type} (k : string) (f : V -> V) (d : dict.t V)
    (kv : string * V) :
  kv ∈ dict.update k f d -> kv ∈ d \/ exists v, (k, v) ∈ d /\ kv = (k, f v).
Proof.
  induction d as [|[k' v'] d IH]; simpl; [by left|].
  destruct (bool_decide (k' = k)) eqn:Hk.
  - apply bool_decide_eq_true in Hk as ->.
    intros H. apply elem_of_cons in H as [->|H].
    + right. exists v'. split; [by left|done].
    + left. by right.
  - intros H. apply elem_of_cons in H as [->|H]; [left; by left|].
    destruct (IH H) as [?|(v & ? & ?)]; [left; by right|].
    right. exists v. split; [by right|done].
Qed.

Lemma cur_set_well_formed (cur : cursect_ref) (o : string) (x : optval)
    (w : Parser optval) :
  well_formed w -> well_formed (cur_set cur o x w).
Proof.
  intros (Hd & Hs & Hsec & Hdef).
  destruct cur as [| |s]; unfold well_formed, cur_set; cbn [_defaults _sections].
  - done.
  - split; [by apply dict_set_NoDup|done].
  - rewrite dict_keys_update, dict_mem_update. repeat split; try done.
    intros kv Hkv. apply elem_of_dict_update in Hkv as [Hkv|(v & Hv & ->)].
    + by apply Hsec.
    + cbn [snd]. apply dict_set_NoDup. by apply (Hsec (s, v)).
Qed.

Lemma cur_append_well_formed (cur : cursect_ref) (o x : string) (w : Parser optval) :
  well_formed w -> well_formed (cur_append cur o x w).
Proof.
  intros (Hd & Hs & Hsec & Hdef).
  destruct cur as [| |s]; unfold well_formed, cur_append; cbn [_defaults _sections].
  - done.
  - by rewrite dict_keys_update.
  - rewrite dict_keys_update, dict_mem_update. repeat split; try done.
    intros kv Hkv. apply elem_of_dict_update in Hkv as [Hkv|(v & Hv & ->)].
    + by apply Hsec.
    + cbn [snd]. rewrite dict_keys_update. by apply (Hsec (s, v)).
Qed.

Lemma read_line_well_formed (n : nat) (line : string) (st st' : rstate) :
  well_formed (cp st) -> read_line n line st = inr st' -> well_formed (cp st').
Proof.
  intros Hwf. unfold read_line. cbv zeta.
  destruct (negb (Py.nonempty _)).
  { destruct (_ && _ && _); intros [= <-]; [by apply cur_append_well_formed|done]. }
  destruct (_ && _ && _).
  { intros [= <-]. by apply cur_append_well_formed. }
  destruct (match_section _) as [h|].
  { destruct (dict.mem h (_sections (cp st))).
    - destruct (bool_decide _); [done|]. by intros [= <-].
    - destruct (bool_decide (h = default_section)) eqn:Hh; intros [= <-]; [done|].
      apply bool_decide_eq_false in Hh.
      destruct Hwf as (Hd & Hs & Hsec & Hdef).
      unfold well_formed. cbn [cp _defaults _sections].
      rewrite dict_mem_set, Hdef, bool_decide_eq_false_2 by done.
      repeat split; try done.
      + by apply dict_set_NoDup.
      + intros kv Hkv. apply elem_of_dict_set in Hkv as [Hkv| ->]; [by apply Hsec|].
        apply NoDup_nil_2. }
  destruct (negb (is_cur (cursect st))); [done|].
  destruct (match_option _) as [[o ov]|]; [|by intros [= <-]].
  destruct (bool_decide _); [done|]. intros [= <-]. by apply cur_set_well_formed.
Qed.

Lemma read_lines_well_formed (lines : list string) (n : nat) (st st' : rstate) :
  well_formed (cp st) -> read_lines n lines st = inr st' -> well_formed (cp st').
Proof.
  revert n st. induction lines as [|line lines IH]; intros n st Hwf.
  - by intros [= <-].
  - simpl. destruct (read_line n line st) as [|st1] eqn:H1; [done|].
    apply IH. by apply (read_line_well_formed _ _ _ _ Hwf H1).
Qed.

Lemma well_formed_join (w : Parser optval) :
  well_formed w -> well_formed (_join_multiline_values w).
Proof.
  intros (Hd & Hs & Hsec & Hdef). unfold well_formed, _join_multiline_values.
  cbn [_defaults _sections]. rewrite !map_values_keys, map_values_mem.
  repeat split; try done.
  intros [s d] Hin. unfold dict.map_values in Hin.
  apply list_elem_of_fmap_1 in Hin as ([s0 d1] & [= -> ->] & Hin). cbn [fst snd].
  change (map (fun kv => (fst kv, join_value (snd kv))) d1)
    with (dict.map_values join_value d1).
  rewrite map_values_keys. by apply (Hsec (s0, d1)).
Qed.

Lemma _read_well_formed (text : string) (c c' : Parser string) :
  well_formed c -> _read text c = ReadOk c' -> well_formed c'.
Proof.
  intros Hwf. unfold _read.
  destruct (read_lines _ _ _) as [|st'] eqn:Hrun; [done|].
  destruct (e st'); [|done]. intros [= <-].
  apply well_formed_join.
  eapply read_lines_well_formed; [|exact Hrun]. by apply well_formed_in_memory.
Qed.

Lemma well_formed_empty : well_formed (@empty string).
Proof. unfold well_formed, empty. simpl. repeat split; try apply NoDup_nil_2.
  intros s Hs. by apply elem_of_nil in Hs. Qed.

(** *** Laying the same file over twice *)

Lemma filter_none {A : Type} (P : A -> bool) (l : list A) :
  (forall x, x ∈ l -> P x = false) -> List.filter P l = [].
Proof.
  induction l as [|x l IH]; [done|]. intros H. simpl.
  rewrite (H x) by (by left). apply IH. intros y Hy. apply H. by right.
Qed.

Lemma map_key_id {V : Type} (G : string * V -> V) (l : dict.t V) :
  (forall kv, kv ∈ l -> G kv = snd kv) ->
  map (fun kv => (fst kv, G kv)) l = l.
Proof.
  induction l as [|[k v] l IH]; [done|]. intros H. simpl.
  rewrite (H (k, v)) by (by left). cbn [snd]. f_equal.
  apply IH. intros kv Hkv. apply H. by right.
Qed.

Lemma overlay_with_idem {V : Type} (comb : V -> V -> V) (w d0 : dict.t V) :
  NoDup (dict.keys w) ->
  (forall k v v0, (k, v) ∈ w -> comb v (comb v v0) = comb v v0) ->
  (forall k v, (k, v) ∈ w -> comb v v = v) ->
  overlay_with comb w (overlay_with comb w d0) = overlay_with comb w d0.
Proof.
  intros Hnd Hcc Hc.
  unfold overlay_with at 1.
  rewrite filter_none, app_nil_r.
  2:{ intros [k v] Hin. cbn [fst]. rewrite overlay_with_mem.
      apply (list_elem_of_fmap_2 fst) in Hin. apply dict_mem_keys in Hin.
      cbn [fst] in Hin. rewrite Hin. by rewrite orb_true_r. }
  unfold overlay_with. rewrite map_app. f_equal.
  - rewrite map_map. apply map_ext. intros [k v0]. cbn [fst snd].
    destruct (dict.get k w) as [v|] eqn:Hw; [|done].
    f_equal. apply (Hcc k). by apply dict_get_in.
  - apply map_key_id. intros [k v] Hin. cbn [fst snd].
    apply list_elem_of_In, List.filter_In in Hin as [Hin _].
    apply list_elem_of_In in Hin.
    rewrite (dict_get_elem k v w Hnd Hin). by apply (Hc k).
Qed.

Lemma overlay_dict_idem {V : Type} (w d0 : dict.t V) :
  NoDup (dict.keys w) -> overlay_dict w (overlay_dict w d0) = overlay_dict w d0.
Proof. intros Hnd. unfold overlay_dict. by apply overlay_with_idem. Qed.

Lemma overlay_dict_self {V : Type} (w : dict.t V) :
  NoDup (dict.keys w) -> overlay_dict w w = w.
Proof.
  intros Hnd. unfold overlay_dict, overlay_with.
  rewrite filter_none, app_nil_r.
  - apply map_key_id. intros [k v] Hin. cbn [fst snd].
    by rewrite (dict_get_elem k v w Hnd Hin).
  - intros [k v] Hin. cbn [fst].
    apply (list_elem_of_fmap_2 fst) in Hin. apply dict_mem_keys in Hin.
    cbn [fst] in Hin. by rewrite Hin.
Qed.

Lemma overlay_idem {V : Type} (cf c : Parser V) :
  well_formed cf -> overlay cf (overlay cf c) = overlay cf c.
Proof.
  intros (Hd & Hs & Hsec & _). unfold overlay. cbn [_defaults _sections]. f_equal.
  - by apply overlay_dict_idem.
  - apply overlay_with_idem; [done| |].
    + intros s w d0 Hin. apply overlay_dict_idem. by apply (Hsec (s, w)).
    + intros s w Hin. apply overlay_dict_self. by apply (Hsec (s, w)).
Qed.

Lemma overlay_option_in {V : Type} (cf c : Parser V) (s k : string) :
  option_in (overlay cf c) s k
  = match option_in cf s k with
    | Some v => Some v
    | None => option_in c s k
    end.
Proof.
  unfold option_in, overlay. cbn [_sections]. rewrite overlay_with_get.
  destruct (dict.get s (_sections c)) as [d0|], (dict.get s (_sections cf)) as [w|];
    try done.
  - unfold overlay_dict. rewrite overlay_with_get.
    by destruct (dict.get k d0), (dict.get k w).
  - by destruct (dict.get k w).
Qed.

End Overlay.

Lemma well_formed_b_true {V : Type} (c : configparser.Parser V) :
  well_formed_b c = true -> well_formed c.
Proof.
  unfold well_formed_b, well_formed.
  intros [[[Hd%bool_decide_eq_true Hs%bool_decide_eq_true]%andb_true_iff
             Hsec]%andb_true_iff Hdef%negb_true_iff]%andb_true_iff.
  repeat split; try done.
  intros s Hin. rewrite forallb_forall in Hsec.
  apply list_elem_of_In, Hsec in Hin. by apply bool_decide_eq_true in Hin.
Qed.

Lemma well_formed_cleared (c : configparser.Parser string) :
  well_formed c -> well_formed (cleared c).
Proof.
  intros (Hd & _). unfold well_formed, cleared. simpl.
  repeat split; try done; try apply NoDup_nil_2.
  intros s Hs. by apply elem_of_nil in Hs.
Qed.

(** Past the checks, with the flags, the arguments and the file system
    as they were. *)
Lemma reload_conf_reaches_read (clear_load : bool) (st : State) (path : string) :
  conffile (pargs st) = Attr path ->
  checks_pass st path = true ->
  exists s,
    reload_conf clear_load st = conf_read path s
    /\ fs s = fs st
    /\ conf s = (if clear_load then cleared (conf st) else conf st)
    /\ pargs s = pargs st
    /\ conf_rw s = conf_rw st /\ conf_rw_save s = conf_rw_save st
    /\ conf_rw_backup s = conf_rw_backup st.
Proof.
  intros Hc Hchk. unfold checks_pass in Hchk.
  apply andb_true_iff in Hchk as [Hr Hw].
  unfold reload_conf. erewrite bind_Ok by reflexivity. rewrite Hc.
  unfold access at 1. erewrite bind_Ok by reflexivity. rewrite Hr. cbn [negb].
  erewrite bind_Ok by reflexivity. cbn [conf_rw sys].
  match goal with
  | |- exists s, (?m ≫= _) ?s0 = _ /\ _ =>
      assert (exists s1, m s0 = Ok tt s1 /\ fs s1 = fs st /\ conf s1 = conf st
                         /\ pargs s1 = pargs st
                         /\ conf_rw s1 = conf_rw st /\ conf_rw_save s1 = conf_rw_save st
                         /\ conf_rw_backup s1 = conf_rw_backup st)
        as (s1 & Hs1 & Hfs & Hcs & Hpa & Hf1 & Hf2 & Hf3)
  end.
  { destruct (conf_rw st) eqn:Hrw; [|by eexists]. simpl in Hw.
    erewrite bind_Ok by reflexivity. cbn [conf_rw_save conf_rw_backup sys].
    apply andb_true_iff in Hw as [Hd Hw].
    destruct (conf_rw_save st || conf_rw_backup st); simpl in Hd.
    - unfold access. erewrite bind_Ok by reflexivity. cbn [fs sys]. rewrite Hd.
      cbn [negb]. erewrite bind_Ok by reflexivity. cbn [fs sys]. rewrite Hw.
      eexists. by repeat split.
    - erewrite bind_Ok by reflexivity. cbn [negb].
      unfold access. erewrite bind_Ok by reflexivity. cbn [fs sys]. rewrite Hw.
      eexists. by repeat split. }
  rewrite (mbind_Ok _ _ _ _ _ Hs1).
  destruct clear_load; unfold when.
  - rewrite (mbind_Ok _ _ _ _ _ (clear_sections s1)).
    erewrite mbind_Ok by reflexivity.
    eexists. split; [reflexivity|]. simpl. rewrite Hcs. by repeat split.
  - erewrite mbind_Ok by reflexivity. erewrite mbind_Ok by reflexivity.
    eexists. split; [reflexivity|]. simpl. by repeat split.
Qed.

(** A check that fails ends [reload_conf] there. *)
Lemma reload_conf_stops_at_checks (clear_load : bool) (st : State) (path : string) :
  conffile (pargs st) = Attr path ->
  checks_pass st path = false ->
  exists msg st',
    reload_conf clear_load st = Raise (RuntimeError msg) st'
    /\ conf st' = conf st /\ logger st' = logger st /\ fs st' = fs st.
Proof.
  intros Hc Hchk. unfold checks_pass in Hchk.
  unfold reload_conf. erewrite bind_Ok by reflexivity. rewrite Hc.
  unfold access at 1. erewrite bind_Ok by reflexivity.
  destruct (os.access (fs st) path os.R_OK); cbn [negb andb] in *.
  2:{ unfold raise. eexists _, _. split; [reflexivity|]. done. }
  erewrite bind_Ok by reflexivity. cbn [conf_rw sys].
  destruct (conf_rw st); [|done]. cbn [negb orb] in Hchk.
  unfold mbind at 1, M_bind at 1, bind at 1.
  erewrite bind_Ok by reflexivity. cbn [conf_rw_save conf_rw_backup sys].
  destruct (conf_rw_save st || conf_rw_backup st); cbn [negb orb andb] in Hchk.
  - unfold access. erewrite bind_Ok by reflexivity. cbn [fs sys].
    destruct (os.access (fs st) (posixpath.dirname path) os.W_OK); cbn [negb andb] in *.
    + erewrite bind_Ok by reflexivity. cbn [fs sys]. rewrite Hchk. cbn [negb].
      unfold raise. eexists _, _. split; [reflexivity|]. done.
    + unfold raise. eexists _, _. split; [reflexivity|]. done.
  - erewrite bind_Ok by reflexivity. cbn [negb].
    unfold access. erewrite bind_Ok by reflexivity. cbn [fs sys]. rewrite Hchk.
    cbn [negb]. unfold raise. eexists _, _. split; [reflexivity|]. done.
Qed.

(** X16. Lines 71-86. When one of the checks fails, [reload_conf] raises
    a RuntimeError before anything else happens, whatever [clear_load]
    says: no section has been cleared, nothing has been read or logged,
    the file system is as it was. *)
Theorem reload_conf_checks_fail (clear_load : bool) (st : State) (path : string) :
  conffile (pargs st) = Attr path ->
  checks_pass st path = false ->
  exists msg st',
    reload_conf clear_load st = Raise (RuntimeError msg) st'
    /\ conf st' = conf st /\ logger st' = logger st /\ fs st' = fs st.
Proof. apply reload_conf_stops_at_checks. Qed.

Lemma reload_conf_checks_fail_witness :
  exists msg st',
    reload_conf true (set_conf sample_conf (set_fs readonly_dir_fs sample_state))
    = Raise (RuntimeError msg) st'
    /\ conf st' = sample_conf /\ logger st' = logging.root /\ fs st' = readonly_dir_fs.
Proof.
  apply (reload_conf_checks_fail true
           (set_conf sample_conf (set_fs readonly_dir_fs sample_state)) sample_path);
    reflexivity.
Defined.

(** The file [defaults_text] over a configuration with the options [name]
    and [extra] in section [main]: [name] takes the value of the file in
    its place, [extra] stays, [mode] and the default section are new. *)
Example overlay_sample :
  overlay defaults_conf (conf merge_state)
  = configparser.mkParser
      [("debug", "1")]
      [("main", [("name", "x"); ("extra", "1"); ("mode", "fast")])].
Proof. reflexivity. Qed.

(** X17. Lines 83-90 with [ConfigParser.read]: the merge, in full. Where
    the checks pass and the file parses, the configuration [reload_conf]
    leaves in memory is what a new parser makes of the file, laid over
    the configuration that was in memory (over its default section only,
    with [clear_load]): sections and options that were there keep their
    places, an option the file gives takes the value from the file, every
    other option keeps its value, and what only the file has is added
    behind, in the order of the file. The file system is unchanged. *)
Theorem reload_conf_overlay (clear_load : bool) (st : State) (path text : string)
    (cf : configparser.Parser string) :
  conffile (pargs st) = Attr path ->
  checks_pass st path = true ->
  well_formed (conf st) ->
  os.open_r (fs st) path = inr text ->
  configparser._read text configparser.empty = configparser.ReadOk cf ->
  exists st',
    reload_conf clear_load st = Ok tt st'
    /\ conf st' = overlay cf (if clear_load then cleared (conf st) else conf st)
    /\ fs st' = fs st.
Proof.
  intros Hc Hchk Hwf Hopen Hcf.
  destruct (reload_conf_reaches_read clear_load st path Hc Hchk)
    as (s & -> & Hfs & Hcs & _).
  assert (Hwfs : well_formed (conf s)).
  { rewrite Hcs. destruct clear_load; [by apply well_formed_cleared|done]. }
  pose proof (_read_overlay text (conf s) Hwfs) as Hov. rewrite Hcf in Hov.
  unfold conf_read. rewrite Hfs, Hopen, Hov, Hcs.
  eexists. split; [reflexivity|]. by simpl.
Qed.

Lemma reload_conf_overlay_witness :
  exists st',
    reload_conf false merge_state = Ok tt st'
    /\ conf st' = overlay defaults_conf (conf merge_state)
    /\ fs st' = fs merge_state.
Proof.
  apply (reload_conf_overlay false merge_state sample_path defaults_text defaults_conf);
    try reflexivity.
  apply well_formed_b_true. reflexivity.
Defined.

(** X18. Lines 88-90. Merge semantics, option by option: after a
    [reload_conf] without clearing, a section holds for an option the
    value the file gives for it in that section, and where the file
    gives none the value it held before; the same for the default
    section. *)
Theorem reload_conf_option_values (st : State) (path text : string)
    (cf : configparser.Parser string) :
  conffile (pargs st) = Attr path ->
  checks_pass st path = true ->
  well_formed (conf st) ->
  os.open_r (fs st) path = inr text ->
  configparser._read text configparser.empty = configparser.ReadOk cf ->
  exists st',
    reload_conf false st = Ok tt st'
    /\ (forall s k,
          option_in (conf st') s k
          = match option_in cf s k with
            | Some v => Some v
            | None => option_in (conf st) s k
            end)
    /\ (forall k,
          dict.get k (configparser._defaults (conf st'))
          = match dict.get k (configparser._defaults cf) with
            | Some v => Some v
            | None => dict.get k (configparser._defaults (conf st))
            end).
Proof.
  intros Hc Hchk Hwf Hopen Hcf.
  destruct (reload_conf_reaches_read false st path Hc Hchk)
    as (s & -> & Hfs & Hcs & _).
  assert (Hwfs : well_formed (conf s)) by (by rewrite Hcs).
  pose proof (_read_overlay text (conf s) Hwfs) as Hov. rewrite Hcf in Hov.
  unfold conf_read. rewrite Hfs, Hopen, Hov, Hcs.
  eexists. split; [reflexivity|]. cbn [conf set_conf]. split.
  - intros s0 k. apply overlay_option_in.
  - intros k. unfold overlay, overlay_dict. cbn [configparser._defaults].
    rewrite overlay_with_get.
    by destruct (dict.get k (configparser._defaults (conf st))),
                (dict.get k (configparser._defaults cf)).
Qed.

Lemma reload_conf_option_values_witness :
  exists st',
    reload_conf false merge_state = Ok tt st'
    /\ (forall s k,
          option_in (conf st') s k
          = match option_in defaults_conf s k with
            | Some v => Some v
            | None => option_in (conf merge_state) s k
            end)
    /\ (forall k,
          dict.get k (configparser._defaults (conf st'))
          = match dict.get k (configparser._defaults defaults_conf) with
            | Some v => Some v
            | None => dict.get k (configparser._defaults (conf merge_state))
            end).
Proof.
  apply (reload_conf_option_values merge_state sample_path defaults_text defaults_conf);
    try reflexivity.
  apply well_formed_b_true. reflexivity.
Defined.

(** X19. Lines 62-90. Reloading a file that has not changed changes
    nothing in memory: after a [reload_conf] that returned, a second
    [reload_conf] without clearing returns too and leaves the
    configuration exactly as the first one left it. *)
Theorem reload_conf_twice (clear_load : bool) (st st1 : State) (path : string) :
  conffile (pargs st) = Attr path ->
  well_formed (conf st) ->
  reload_conf clear_load st = Ok tt st1 ->
  exists st2, reload_conf false st1 = Ok tt st2 /\ conf st2 = conf st1.
Proof.
  intros Hc Hwf Hrun.
  destruct (checks_pass st path) eqn:Hchk.
  2:{ destruct (reload_conf_stops_at_checks clear_load st path Hc Hchk)
        as (msg & st' & Hraise & _). by rewrite Hraise in Hrun. }
  destruct (reload_conf_reaches_read clear_load st path Hc Hchk)
    as (s & Hs & Hfs & Hcs & Hpa & Hf1 & Hf2 & Hf3).
  rewrite Hs in Hrun.
  assert (Hwfs : well_formed (conf s)).
  { rewrite Hcs. destruct clear_load; [by apply well_formed_cleared|done]. }
  (* the state the first call left passes the checks again *)
  assert (Hagain : fs st1 = fs st /\ pargs st1 = pargs st
                   /\ conf_rw st1 = conf_rw st /\ conf_rw_save st1 = conf_rw_save st
                   /\ conf_rw_backup st1 = conf_rw_backup st).
  { revert Hrun. unfold conf_read.
    destruct (os.open_r (fs s) path) as [err|text].
    - destruct (is_OSError err); [|done]. intros [= <-]. by simpl.
    - destruct (configparser._read text (conf s)); try done.
      intros [= <-]. by simpl. }
  destruct Hagain as (Hfs1 & Hpa1 & Hg1 & Hg2 & Hg3).
  assert (Hchk1 : checks_pass st1 path = true).
  { unfold checks_pass in *. by rewrite Hfs1, Hg1, Hg2, Hg3. }
  destruct (reload_conf_reaches_read false st1 path) as (s2 & -> & Hfs2 & Hcs2 & _);
    [by rewrite Hpa1|done|].
  revert Hrun. unfold conf_read. rewrite Hfs2, Hfs1, Hfs.
  destruct (os.open_r (fs st) path) as [err|text].
  - destruct (is_OSError err); [|done]. intros [= <-].
    eexists. split; [reflexivity|]. by simpl.
  - destruct (configparser._read text (conf s)) as [c1| |] eqn:Hread; try done.
    intros [= <-]. cbn [conf set_conf] in Hcs2.
    pose proof (_read_overlay text (conf s) Hwfs) as Hov.
    destruct (configparser._read text configparser.empty) as [cf| |] eqn:Hcf;
      rewrite Hread in Hov; try done.
    injection Hov as ->.
    assert (Hwfcf : well_formed cf)
      by (by apply (_read_well_formed text configparser.empty cf well_formed_empty)).
    assert (Hwf1 : well_formed (overlay cf (conf s)))
      by (by apply (_read_well_formed text (conf s))).
    pose proof (_read_overlay text (overlay cf (conf s)) Hwf1) as Hov2.
    rewrite Hcf in Hov2. rewrite Hcs2, Hov2.
    eexists. split; [reflexivity|]. cbn [conf set_conf].
    by apply overlay_idem.
Qed.

Lemma reload_conf_twice_witness :
  exists st2,
    reload_conf false
      (match reload_conf false merge_state with Ok _ s => s | _ => merge_state end)
    = Ok tt st2
    /\ conf st2
       = conf (match reload_conf false merge_state with Ok _ s => s | _ => merge_state end).
Proof.
  apply (reload_conf_twice false merge_state _ sample_path).
  - reflexivity.
  - apply well_formed_b_true. reflexivity.
  - vm_compute. reflexivity.
Defined.

(** X20. Lines 88-90 with [ConfigParser.read]. A line that is neither a
    header nor an option does not stop the reading: [reload_conf] raises
    ParsingError at the end of the file, and by then the well-formed
    lines have been taken. The configuration in memory is what a new
    parser makes of the rest of the file, laid over the one that was
    there: the failure leaves the configuration changed. *)
Theorem reload_conf_parsing_error (clear_load : bool) (st : State) (path text : string)
    (err : Exn) (cf : configparser.Parser string) :
  conffile (pargs st) = Attr path ->
  checks_pass st path = true ->
  well_formed (conf st) ->
  os.open_r (fs st) path = inr text ->
  configparser._read text configparser.empty = configparser.ReadParsingError err cf ->
  exists st',
    reload_conf clear_load st = Raise err st'
    /\ conf st' = overlay cf (if clear_load then cleared (conf st) else conf st)
    /\ fs st' = fs st.
Proof.
  intros Hc Hchk Hwf Hopen Hcf.
  destruct (reload_conf_reaches_read clear_load st path Hc Hchk)
    as (s & -> & Hfs & Hcs & _).
  assert (Hwfs : well_formed (conf s)).
  { rewrite Hcs. destruct clear_load; [by apply well_formed_cleared|done]. }
  pose proof (_read_overlay text (conf s) Hwfs) as Hov. rewrite Hcf in Hov.
  unfold conf_read. rewrite Hfs, Hopen, Hov, Hcs.
  eexists. split; [reflexivity|]. by simpl.
Qed.

Lemma reload_conf_parsing_error_witness :
  exists st',
    reload_conf false (set_conf sample_conf (set_fs (fs_with bad_line_text) sample_state))
    = Raise (ParsingError [3]) st'
    /\ conf st' = overlay (configparser.mkParser [] [("main", [("name", "z")])])
                          sample_conf
    /\ fs st' = fs_with bad_line_text.
Proof.
  apply (reload_conf_parsing_error false
           (set_conf sample_conf (set_fs (fs_with bad_line_text) sample_state))
           sample_path bad_line_text);
    try reflexivity.
  apply well_formed_b_true. reflexivity.
Defined.

(** ** The log file of a start *)

Lemma parse_args_logfile (argv : list Option_) (ns : Namespace) :
  logfile (fold_left
    (fun ns o =>
       match o with
       | OptInput v => mkNamespace (Attr (Some v)) (logfile ns) (verbose ns) (conffile ns)
       | OptLogfile v => mkNamespace (input ns) (Attr (Some v)) (verbose ns) (conffile ns)
       | OptVerbose => mkNamespace (input ns) (logfile ns) (verbose ns + 1)%Z (conffile ns)
       end) argv ns)
  = match last_logfile argv with
    | Some v => Attr (Some v)
    | None => logfile ns
    end.
Proof.
  revert ns. induction argv as [|o argv IH]; intros ns; [done|].
  cbn [fold_left last_logfile]. rewrite IH.
  destruct o; try done. simpl. by destruct (last_logfile argv).
Qed.

Lemma join_absolute (a b : string) :
  Py.startswith "/" a = true -> Py.startswith "/" (posixpath.join a b) = true.
Proof.
  intros Ha. unfold posixpath.join.
  destruct (Py.startswith "/" b) eqn:Hb; [done|].
  destruct a as [|c a]; [done|].
  destruct (negb _ || _); unfold Py.startswith in *;
    rewrite ?str_app_cons; cbn [String.prefix] in *;
    (destruct (ascii_dec "/" c); [|done]);
    match goal with |- String.prefix _ ?x = true => by destruct x end.
Qed.

Lemma abspath_absolute (fs0 : os.FileSystem) (p : string) :
  Py.startswith "/" p = true -> abspath fs0 p = posixpath.normpath p.
Proof. intros Hp. unfold abspath. by rewrite Hp. Qed.

Lemma abspath_join (fs0 : os.FileSystem) (p : string) :
  abspath fs0 p = posixpath.normpath (posixpath.join (os.cwd fs0) p).
Proof.
  unfold abspath, posixpath.join. by destruct (Py.startswith "/" p).
Qed.

(** A call that returns has attached a console handler and, if a log
    file is asked for, a handler on that file. *)
Lemma reconfigure_logger_streams (st st' : State) :
  reconfigure_logger st = Ok tt st' ->
  map logging.stream (logging.handlers (logger st'))
  = logging.Stdout :: file_streams st.
Proof.
  unfold reconfigure_logger.
  erewrite bind_Ok by reflexivity.
  erewrite mbind_Ok by (by apply clear_handlers).
  erewrite bind_Ok by reflexivity.
  erewrite mbind_Ok by reflexivity.
  erewrite bind_Ok by reflexivity.
  cbn [pargs set_logger logger logging.new_handler fst snd].
  rewrite addHandler_new by (simpl; apply not_elem_of_nil).
  unfold file_streams.
  destruct (logfile (pargs st)) as [|[path|]].
  - erewrite mbind_Ok by reflexivity. by intros [= <-].
  - unfold mbind at 1, M_bind at 1, bind at 1.
    unfold bind at 1, FileHandler. cbn [fs set_logger logger].
    destruct (os.open_a _ _); [done|].
    cbn [logger sys set_logger logging.new_handler logging.next_hid fst snd].
    unfold on_logger, modify. cbn [logger set_logger].
    rewrite addHandler_new
      by (simpl; intros Hin; apply list_elem_of_singleton in Hin; lia).
    by intros [= <-].
  - erewrite mbind_Ok by reflexivity. by intros [= <-].
Qed.

(** X21. Lines 111-126. The log file of a start is the value of the last
    [-f], made absolute as [os.path.abspath] does it (taken from the
    working directory unless it is an absolute path, and normalised). A
    start that returns has attached a console handler and, if [-f] was
    given, one handler on that file; [pargs.logfile] holds the value
    joined to the working directory if it had no directory part, and the
    value as given if it had one. The working directory is an absolute,
    normalised path, as [os.getcwd()] gives it. *)
Theorem startup_logfile (argv : list Option_) (st st' : State) :
  Py.startswith "/" (os.cwd (fs st)) = true ->
  abspath (fs st) "." = os.cwd (fs st) ->
  startup argv st = Ok tt st' ->
  map logging.stream (logging.handlers (logger st'))
  = logging.Stdout ::
    match last_logfile argv with
    | Some lf => [logging.FileStream (abspath (fs st) lf)]
    | None => []
    end
  /\ logfile (pargs st')
     = match last_logfile argv with
       | Some lf =>
           Attr (Some (if Py.nonempty (posixpath.dirname lf) then lf
                       else posixpath.join (os.cwd (fs st)) lf))
       | None => Attr None
       end.
Proof.
  intros Hcwd Hdot.
  pose proof (parse_args_logfile argv (mkNamespace (Attr None) (Attr None) 0%Z Absent)) as Hl.
  fold (parse_args argv) in Hl. cbn [logfile] in Hl.
  pose proof (parse_args_conffile argv (mkNamespace (Attr None) (Attr None) 0%Z Absent)) as Hc.
  fold (parse_args argv) in Hc. simpl in Hc.
  assert (Htail : forall (k : string -> State -> State) s,
    conffile (pargs s) = Absent ->
    match reconfigure_logger s with
    | Ok _ s1 =>
        match conffile (pargs s1) with
        | Absent => mret tt
        | Attr cf => when (negb (Py.nonempty (posixpath.dirname cf)))
                          (fun st0 => Ok tt (k cf st0))
        end s1
    | Raise err s1 => Raise err s1
    | RaiseInRead err => RaiseInRead err
    end = Ok tt st' ->
    map logging.stream (logging.handlers (logger st')) = logging.Stdout :: file_streams s
    /\ pargs st' = pargs s).
  { intros k s Hs. pose proof (reconfigure_logger_keeps s) as Hk.
    destruct (reconfigure_logger s) as [[] s1|err s1|err] eqn:Hrun; try discriminate.
    destruct Hk as (_&_&_&_&Hp). rewrite Hp, Hs. simpl.
    intros [= <-]. split; [|done]. by apply reconfigure_logger_streams. }
  unfold startup, on_pargs, modify, gets, mbind, M_bind, bind.
  cbn [fs set_pargs pargs]. rewrite Hdot. simpl.
  rewrite Hl.
  destruct (last_logfile argv) as [lf|]; simpl.
  - destruct (Py.nonempty (posixpath.dirname lf)) eqn:Hd; simpl.
    + intros Hrun. apply (Htail (fun cf st0 => _)) in Hrun as [Hs Hp]; [|exact Hc].
      rewrite Hs, Hp. unfold file_streams. cbn [pargs set_pargs fs logfile].
      by rewrite Hl.
    + intros Hrun. apply (Htail (fun cf st0 => _)) in Hrun as [Hs Hp]; [|exact Hc].
      rewrite Hs, Hp. unfold file_streams. cbn [pargs set_pargs fs logfile].
      rewrite abspath_absolute by (by apply join_absolute).
      by rewrite (abspath_join (fs st) lf).
  - intros Hrun. apply (Htail (fun cf st0 => _)) in Hrun as [Hs Hp]; [|exact Hc].
    rewrite Hs, Hp. unfold file_streams. cbn [pargs set_pargs fs logfile].
    by rewrite Hl.
Qed.

Lemma startup_logfile_witness :
  map logging.stream
      (logging.handlers
         (logger (match startup [OptLogfile "a.log"; OptVerbose; OptLogfile "app.log"]
                                (initial home_fs) with
                  | Ok _ s => s
                  | _ => initial home_fs
                  end)))
  = logging.Stdout ::
    match last_logfile [OptLogfile "a.log"; OptVerbose; OptLogfile "app.log"] with
    | Some lf => [logging.FileStream (abspath (fs (initial home_fs)) lf)]
    | None => []
    end
  /\ logfile (pargs (match startup [OptLogfile "a.log"; OptVerbose; OptLogfile "app.log"]
                                   (initial home_fs) with
                     | Ok _ s => s
                     | _ => initial home_fs
                     end))
     = match last_logfile [OptLogfile "a.log"; OptVerbose; OptLogfile "app.log"] with
       | Some lf =>
           Attr (Some (if Py.nonempty (posixpath.dirname lf) then lf
                       else posixpath.join (os.cwd (fs (initial home_fs))) lf))
       | None => Attr None
       end.
Proof.
  apply (startup_logfile [OptLogfile "a.log"; OptVerbose; OptLogfile "app.log"]
                         (initial home_fs)).
  - reflexivity.
  - reflexivity.
  - vm_compute. reflexivity.
Defined.
